(** * rage-logviewer: the log parser and the windowed aggregation of
      [scripts/parser.js]

    A shallow embedding of the ingestion and aggregation code of
    [scripts/parser.js], and the properties of it that the specification
    states.

    Conventions of the embedding.
    - A JavaScript string is a [string] of the Standard Library; a
      character stands for one code unit below 256.
    - A JavaScript number is an exact rational ([Q]); [NaN] is the [None]
      of [jsnum = option Q].  Rounding to binary64, the two infinities and
      the negative zero are outside the model, so the statements are about
      what the code computes and in which order, not about identities of
      exact arithmetic: a sum is the same sum only when it adds the same
      numbers in the same order.  The ranking of a table is also given over
      any arithmetic ([Ranking]), with the rationals and binary64 as
      instances, to show where the two differ.
    - [null] in a numeric slot ([timeBounds.min], [timeFilter.start], ...)
      is the [None] of an [option Q]; a relational operator reads it as 0,
      as JavaScript does ([ToNumber_null]).
    - The module-level variables [entities], [globalStats], [timeBounds]
      and [timeFilter] are the four fields of one [State] record that every
      function takes and returns.
    - An entity object is reached only through the [entities] map, under
      its own name; writing through the reference held in [source] or
      [target] is an update of the map at that name ([modify]), so that the
      two references are one object when the two names are equal.
    - The DOM is not modelled: a function that writes HTML returns the data
      the HTML is built from. *)

From Stdlib Require Import String Ascii List Bool Arith ZArith QArith Qabs Lia Lqa.
From Stdlib Require Import Permutation.
From Stdlib Require Sorted.
From Stdlib Require Floats.PrimFloat.
Import ListNotations.

Local Open Scope string_scope.
Local Open Scope Q_scope.

(** ** Built-in string operations *)

Module Str.

(** [WhiteSpace] and [LineTerminator] code units below 256: TAB, LF, VT,
    FF, CR, SP and NBSP. *)
Definition isWhiteSpace (c : ascii) : bool :=
  match nat_of_ascii c with
  | 9%nat | 10%nat | 11%nat | 12%nat | 13%nat | 32%nat | 160%nat => true
  | _ => false
  end.

Fixpoint trimStart (s : string) : string :=
  match s with
  | EmptyString => EmptyString
  | String c s' => if isWhiteSpace c then trimStart s' else s
  end.

Fixpoint trimEnd (s : string) : string :=
  match s with
  | EmptyString => EmptyString
  | String c s' =>
      match trimEnd s' with
      | EmptyString => if isWhiteSpace c then EmptyString else String c EmptyString
      | r => String c r
      end
  end.

(** [String.prototype.trim]. *)
Definition trim (s : string) : string := trimEnd (trimStart s).

(** [s.split(sep)] for a separator of one character: never an empty
    list. *)
Fixpoint split (sep : ascii) (s : string) : list string :=
  match s with
  | EmptyString => [EmptyString]
  | String c s' =>
      if Ascii.eqb c sep then EmptyString :: split sep s'
      else match split sep s' with
           | h :: t => String c h :: t
           | [] => [String c EmptyString]
           end
  end.

Definition CR : ascii := ascii_of_nat 13.
Definition LF : ascii := ascii_of_nat 10.

(** [text.split(/\r?\n/)]: a separator is LF, or CR immediately followed
    by LF. *)
Fixpoint splitLines (s : string) : list string :=
  match s with
  | EmptyString => [EmptyString]
  | String c s' =>
      let cons_char := match splitLines s' with
                       | h :: t => String c h :: t
                       | [] => [String c EmptyString]
                       end in
      if Ascii.eqb c LF then EmptyString :: splitLines s'
      else if Ascii.eqb c CR then
             match s' with
             | String c' s'' =>
                 if Ascii.eqb c' LF then EmptyString :: splitLines s''
                 else cons_char
             | EmptyString => cons_char
             end
           else cons_char
  end.

(** Every character of the string is white space. *)
Fixpoint blank (s : string) : bool :=
  match s with
  | EmptyString => true
  | String c s' => isWhiteSpace c && blank s'
  end.

(** Truthiness of a string: the empty string is the only falsy one. *)
Definition truthy (s : string) : bool :=
  match s with EmptyString => false | _ => true end.

End Str.

(** ** Numbers *)

(** A number or [NaN]. *)
Definition jsnum : Type := option Q.

Definition NaN : jsnum := None.

(** [Number.isNaN]. *)
Definition isNaN (x : jsnum) : bool :=
  match x with None => true | Some _ => false end.

(** [x < y] on numbers. *)
Definition Qltb (x y : Q) : bool := negb (Qle_bool y x).

(** [null] read as a number by [<], [>], [<=] and [>=]. *)
Definition ToNumber_null (x : option Q) : Q :=
  match x with Some q => q | None => 0 end.

(** [Math.max] on two numbers. *)
Definition Math_max (x y : Q) : Q := if Qle_bool x y then y else x.

(** *** [StringToNumber] on literals of finite value

    The conversion that [Number(s)] applies to a string, following the
    grammar [StringNumericLiteral] of ECMAScript: the empty string is 0; a
    decimal literal has an optional sign, digits with an optional fraction,
    and an optional exponent; a literal in base 16, 8 or 2 has a prefix and
    no sign.  The literal [Infinity] has no rational value and is not in the
    domain of this definition, and a literal is given its exact value, where
    the machine rounds it to a binary64 number (and a literal such as
    [1e400] to an infinity).  The parsing functions below take the
    conversion as a parameter, and the statements that hold for every
    conversion are proved for every conversion. *)

Module NumberLiteral.

Definition digitVal (base : nat) (c : ascii) : option nat :=
  let n := nat_of_ascii c in
  let v := if (48 <=? n)%nat && (n <=? 57)%nat then Some (n - 48)%nat
           else if (97 <=? n)%nat && (n <=? 102)%nat then Some (n - 87)%nat
           else if (65 <=? n)%nat && (n <=? 70)%nat then Some (n - 55)%nat
           else None in
  match v with
  | Some d => if (d <? base)%nat then Some d else None
  | None => None
  end.

(** The longest prefix of digits in [base]: its value read after [acc],
    the number of digits, and the rest of the string. *)
Fixpoint digits (base : nat) (acc : Z) (len : nat) (s : string)
  : Z * nat * string :=
  match s with
  | EmptyString => (acc, len, s)
  | String c s' =>
      match digitVal base c with
      | Some d => digits base (acc * Z.of_nat base + Z.of_nat d)%Z (S len) s'
      | None => (acc, len, s)
      end
  end.

(** [ExponentPart], or nothing: the exponent, and [None] when a malformed
    exponent follows. *)
Definition exponent (s : string) : option Z :=
  match s with
  | EmptyString => Some 0%Z
  | String c s' =>
      if Ascii.eqb c "e" || Ascii.eqb c "E" then
        let '(neg, s1) :=
          match s' with
          | String c1 s1 =>
              if Ascii.eqb c1 "-" then (true, s1)
              else if Ascii.eqb c1 "+" then (false, s1)
              else (false, s')
          | EmptyString => (false, s')
          end in
        match digits 10 0 0 s1 with
        | (_, O, _) => None
        | (v, _, EmptyString) => Some (if neg then (- v)%Z else v)
        | _ => None
        end
      else None
  end.

(** [StrUnsignedDecimalLiteral] without [Infinity]. *)
Definition unsignedDecimal (s : string) : jsnum :=
  let '(ip, ilen, s1) := digits 10 0 0 s in
  let '(mant, flen, s2) :=
    match s1 with
    | String c s1' =>
        if Ascii.eqb c "." then digits 10 ip 0 s1' else (ip, O, s1)
    | EmptyString => (ip, O, s1)
    end in
  if ((ilen + flen)%nat =? 0)%nat then None
  else match exponent s2 with
       | Some e => Some (Qred (inject_Z mant * Qpower 10 (e - Z.of_nat flen)))
       | None => None
       end.

(** [NonDecimalIntegerLiteral]. *)
Definition nonDecimal (s : string) : option jsnum :=
  match s with
  | String "0" (String p s') =>
      let base := if Ascii.eqb p "x" || Ascii.eqb p "X" then Some 16%nat
                  else if Ascii.eqb p "o" || Ascii.eqb p "O" then Some 8%nat
                  else if Ascii.eqb p "b" || Ascii.eqb p "B" then Some 2%nat
                  else None in
      match base with
      | Some b =>
          Some match digits b 0 0 s' with
               | (_, O, _) => None
               | (v, _, EmptyString) => Some (inject_Z v)
               | _ => None
               end
      | None => None
      end
  | _ => None
  end.

Definition StringToNumber (str : string) : jsnum :=
  let s := Str.trim str in
  match s with
  | EmptyString => Some 0
  | String c s' =>
      match nonDecimal s with
      | Some r => r
      | None =>
          if Ascii.eqb c "-" then option_map Qopp (unsignedDecimal s')
          else if Ascii.eqb c "+" then unsignedDecimal s'
          else unsignedDecimal s
      end
  end.

End NumberLiteral.

(** ** Core data structures *)

(** The event objects of a DMG, DOT or HEAL record.  [dmgEvent] and
    [healEvent] have a [target] and no [source]; [dmgTakenEvent] has a
    [source] and no [target]: a property the object does not have reads as
    [undefined], here [None]. *)
Module Ev.
Record t : Type := mk {
  timestamp : Q;
  type : string;
  source : option string;
  target : option string;
  skill : string;
  amount : Q;
  pool : string;
  hitType : string
}.
End Ev.

(** The event object of a BUFF or DEBUFF record; [effectId] is the number
    when the field converts to one and the field itself otherwise. *)
Module Fx.
Record t : Type := mk {
  timestamp : Q;
  type : string;
  source : string;
  target : string;
  effectName : string;
  effectId : string + Q
}.
End Fx.

Record Entity : Type := mkEntity {
  name : string;
  damageDone : Q;
  healingDone : Q;
  damageReceived : Q;
  damageEvents : list Ev.t;
  healEvents : list Ev.t;
  damageTakenEvents : list Ev.t;
  buffsApplied : list Fx.t;
  debuffsApplied : list Fx.t;
  buffsReceived : list Fx.t;
  debuffsReceived : list Fx.t
}.

(** The object literal of [getEntity]. *)
Definition newEntity (name : string) : Entity :=
  mkEntity name 0 0 0 [] [] [] [] [] [] [].

(** *** Writes to an entity object *)

Definition add_damageDone (x : Q) (e : Entity) : Entity :=
  mkEntity (name e) (damageDone e + x) (healingDone e) (damageReceived e)
    (damageEvents e) (healEvents e) (damageTakenEvents e)
    (buffsApplied e) (debuffsApplied e) (buffsReceived e) (debuffsReceived e).

Definition add_healingDone (x : Q) (e : Entity) : Entity :=
  mkEntity (name e) (damageDone e) (healingDone e + x) (damageReceived e)
    (damageEvents e) (healEvents e) (damageTakenEvents e)
    (buffsApplied e) (debuffsApplied e) (buffsReceived e) (debuffsReceived e).

Definition add_damageReceived (x : Q) (e : Entity) : Entity :=
  mkEntity (name e) (damageDone e) (healingDone e) (damageReceived e + x)
    (damageEvents e) (healEvents e) (damageTakenEvents e)
    (buffsApplied e) (debuffsApplied e) (buffsReceived e) (debuffsReceived e).

Definition push_damageEvents (ev : Ev.t) (e : Entity) : Entity :=
  mkEntity (name e) (damageDone e) (healingDone e) (damageReceived e)
    (damageEvents e ++ [ev]) (healEvents e) (damageTakenEvents e)
    (buffsApplied e) (debuffsApplied e) (buffsReceived e) (debuffsReceived e).

Definition push_healEvents (ev : Ev.t) (e : Entity) : Entity :=
  mkEntity (name e) (damageDone e) (healingDone e) (damageReceived e)
    (damageEvents e) (healEvents e ++ [ev]) (damageTakenEvents e)
    (buffsApplied e) (debuffsApplied e) (buffsReceived e) (debuffsReceived e).

Definition push_damageTakenEvents (ev : Ev.t) (e : Entity) : Entity :=
  mkEntity (name e) (damageDone e) (healingDone e) (damageReceived e)
    (damageEvents e) (healEvents e) (damageTakenEvents e ++ [ev])
    (buffsApplied e) (debuffsApplied e) (buffsReceived e) (debuffsReceived e).

Definition push_buffsApplied (ev : Fx.t) (e : Entity) : Entity :=
  mkEntity (name e) (damageDone e) (healingDone e) (damageReceived e)
    (damageEvents e) (healEvents e) (damageTakenEvents e)
    (buffsApplied e ++ [ev]) (debuffsApplied e) (buffsReceived e) (debuffsReceived e).

Definition push_debuffsApplied (ev : Fx.t) (e : Entity) : Entity :=
  mkEntity (name e) (damageDone e) (healingDone e) (damageReceived e)
    (damageEvents e) (healEvents e) (damageTakenEvents e)
    (buffsApplied e) (debuffsApplied e ++ [ev]) (buffsReceived e) (debuffsReceived e).

Definition push_buffsReceived (ev : Fx.t) (e : Entity) : Entity :=
  mkEntity (name e) (damageDone e) (healingDone e) (damageReceived e)
    (damageEvents e) (healEvents e) (damageTakenEvents e)
    (buffsApplied e) (debuffsApplied e) (buffsReceived e ++ [ev]) (debuffsReceived e).

Definition push_debuffsReceived (ev : Fx.t) (e : Entity) : Entity :=
  mkEntity (name e) (damageDone e) (healingDone e) (damageReceived e)
    (damageEvents e) (healEvents e) (damageTakenEvents e)
    (buffsApplied e) (debuffsApplied e) (buffsReceived e) (debuffsReceived e ++ [ev]).

(** *** The [entities] map

    A JavaScript [Map] iterates in insertion order, and [renderTables]
    sorts what it iterates with a stable sort: the map is an association
    list in insertion order, with at most one entry for a key. *)
Module EMap.

Definition t : Type := list (string * Entity).

Fixpoint get (k : string) (m : t) : option Entity :=
  match m with
  | [] => None
  | (k', v) :: m' => if String.eqb k' k then Some v else get k m'
  end.

Definition has (k : string) (m : t) : bool :=
  match get k m with Some _ => true | None => false end.

(** [set] keeps the position of a key that is present and appends a new
    one. *)
Fixpoint set (k : string) (v : Entity) (m : t) : t :=
  match m with
  | [] => [(k, v)]
  | (k', v') :: m' =>
      if String.eqb k' k then (k, v) :: m' else (k', v') :: set k v m'
  end.

Definition values (m : t) : list Entity := List.map snd m.

Definition keys (m : t) : list string := List.map fst m.

(** A write through a reference to the object stored under [k]. *)
Fixpoint modify (k : string) (f : Entity -> Entity) (m : t) : t :=
  match m with
  | [] => []
  | (k', v) :: m' =>
      if String.eqb k' k then (k', f v) :: m' else (k', v) :: modify k f m'
  end.

End EMap.

(** The property bag [globalStats.byType]. *)
Module ByType.

Definition t : Type := list (string * nat).

Fixpoint get (k : string) (m : t) : option nat :=
  match m with
  | [] => None
  | (k', v) :: m' => if String.eqb k' k then Some v else get k m'
  end.

Fixpoint set (k : string) (v : nat) (m : t) : t :=
  match m with
  | [] => [(k, v)]
  | (k', v') :: m' =>
      if String.eqb k' k then (k, v) :: m' else (k', v') :: set k v m'
  end.

(** [byType[type] = (byType[type] || 0) + 1]. *)
Definition incr (k : string) (m : t) : t :=
  set k (match get k m with Some v => v | None => 0%nat end + 1)%nat m.

Definition init : t :=
  [("DMG", 0%nat); ("DOT", 0%nat); ("HEAL", 0%nat);
   ("ENERGIZE", 0%nat); ("BUFF", 0%nat); ("DEBUFF", 0%nat)].

End ByType.

Record GlobalStats : Type := mkGlobalStats {
  totalLines : nat;
  parsedLines : nat;
  skippedLines : nat;
  byType : ByType.t
}.

(** [timeBounds.min] and [timeBounds.max]. *)
Record TimeBounds : Type := mkTimeBounds {
  tbMin : option Q;
  tbMax : option Q
}.

(** [timeFilter.enabled], [timeFilter.start] and [timeFilter.end]. *)
Record TimeFilter : Type := mkTimeFilter {
  tfEnabled : bool;
  tfStart : option Q;
  tfEnd : option Q
}.

Record State : Type := mkState {
  entities : EMap.t;
  globalStats : GlobalStats;
  timeBounds : TimeBounds;
  timeFilter : TimeFilter
}.

(** The state the script starts in. *)
Definition initialState : State :=
  mkState [] (mkGlobalStats 0 0 0 ByType.init)
    (mkTimeBounds None None) (mkTimeFilter false None None).

Definition set_entities (m : EMap.t) (st : State) : State :=
  mkState m (globalStats st) (timeBounds st) (timeFilter st).

Definition set_globalStats (g : GlobalStats) (st : State) : State :=
  mkState (entities st) g (timeBounds st) (timeFilter st).

Definition set_timeBounds (b : TimeBounds) (st : State) : State :=
  mkState (entities st) (globalStats st) b (timeFilter st).

Definition set_timeFilter (f : TimeFilter) (st : State) : State :=
  mkState (entities st) (globalStats st) (timeBounds st) f.

(** [globalStats.totalLines++]. *)
Definition incr_totalLines (st : State) : State :=
  let g := globalStats st in
  set_globalStats
    (mkGlobalStats (totalLines g + 1) (parsedLines g) (skippedLines g) (byType g)) st.

(** [globalStats.parsedLines++]. *)
Definition incr_parsedLines (st : State) : State :=
  let g := globalStats st in
  set_globalStats
    (mkGlobalStats (totalLines g) (parsedLines g + 1) (skippedLines g) (byType g)) st.

(** [globalStats.skippedLines++]. *)
Definition incr_skippedLines (st : State) : State :=
  let g := globalStats st in
  set_globalStats
    (mkGlobalStats (totalLines g) (parsedLines g) (skippedLines g + 1) (byType g)) st.

(** [globalStats.byType[type] = (globalStats.byType[type] || 0) + 1]. *)
Definition incr_byType (type : string) (st : State) : State :=
  let g := globalStats st in
  set_globalStats
    (mkGlobalStats (totalLines g) (parsedLines g) (skippedLines g)
       (ByType.incr type (byType g))) st.

(** [getEntity]: the map after the call and the reference it returns,
    which is the key of the object. *)
Definition getEntity (name : string) (m : EMap.t) : string * EMap.t :=
  if negb (EMap.has name m) then (name, EMap.set name (newEntity name) m)
  else (name, m).

Definition updateTimeBounds (timestamp : Q) (st : State) : State :=
  let b := timeBounds st in
  let mn := match tbMin b with
            | None => Some timestamp
            | Some m => if Qltb timestamp m then Some timestamp else Some m
            end in
  let mx := match tbMax b with
            | None => Some timestamp
            | Some m => if Qltb m timestamp then Some timestamp else Some m
            end in
  set_timeBounds (mkTimeBounds mn mx) st.

(** ** Parsing logic *)

Section Parsing.

(** The conversion [Number(s)] of a string. *)
Variable Number : string -> jsnum.

Definition parseNumericEvent
    (timestamp : Q) (type : string) (parts : list string) (st : State) : State :=
  if (length parts <? 8)%nat then incr_skippedLines st
  else
    let sourceName := nth 2 parts "" in
    let targetName := nth 3 parts "" in
    let skill := nth 4 parts "" in
    let amountStr := nth 5 parts "" in
    let pool := nth 6 parts "" in
    let hitType := nth 7 parts "" in
    match Number amountStr with
    | None => incr_skippedLines st
    | Some amountRaw =>
        let st := incr_parsedLines st in
        let st := incr_byType type st in
        let st := updateTimeBounds timestamp st in
        let '(source, m) := getEntity sourceName (entities st) in
        let '(target, m) := getEntity targetName m in
        if String.eqb type "DMG" || String.eqb type "DOT" then
          let dmgAmount := if Qltb amountRaw 0 then - amountRaw else amountRaw in
          let m := EMap.modify source (add_damageDone dmgAmount) m in
          let m := EMap.modify target (add_damageReceived dmgAmount) m in
          let dmgEvent :=
            Ev.mk timestamp type None (Some targetName) skill dmgAmount pool hitType in
          let dmgTakenEvent :=
            Ev.mk timestamp type (Some sourceName) None skill dmgAmount pool hitType in
          let m := EMap.modify source (push_damageEvents dmgEvent) m in
          let m := EMap.modify target (push_damageTakenEvents dmgTakenEvent) m in
          set_entities m st
        else if String.eqb type "HEAL" then
          let healAmount := Qabs amountRaw in
          let m := EMap.modify source (add_healingDone healAmount) m in
          let healEvent :=
            Ev.mk timestamp type None (Some targetName) skill healAmount pool hitType in
          let m := EMap.modify source (push_healEvents healEvent) m in
          set_entities m st
        else
          (* ENERGIZE: [regenEvent] is built and stored nowhere *)
          set_entities m st
    end.

Definition parseEffectEvent
    (timestamp : Q) (type : string) (parts : list string) (st : State) : State :=
  if (length parts <? 6)%nat then incr_skippedLines st
  else
    let sourceName := nth 2 parts "" in
    let targetName := nth 3 parts "" in
    let effectName := nth 4 parts "" in
    let effectIdStr := nth 5 parts "" in
    let effectId := Number effectIdStr in
    let st := incr_parsedLines st in
    let st := incr_byType type st in
    let st := updateTimeBounds timestamp st in
    let '(source, m) := getEntity sourceName (entities st) in
    let '(target, m) := getEntity targetName m in
    let effectEvent :=
      Fx.mk timestamp type sourceName targetName effectName
        (match effectId with None => inl effectIdStr | Some n => inr n end) in
    if String.eqb type "BUFF" then
      let m := EMap.modify source (push_buffsApplied effectEvent) m in
      let m := EMap.modify target (push_buffsReceived effectEvent) m in
      set_entities m st
    else
      let m := EMap.modify source (push_debuffsApplied effectEvent) m in
      let m := EMap.modify target (push_debuffsReceived effectEvent) m in
      set_entities m st.

(** [trimmed.split(",").map(p => p.trim())]. *)
Definition fields (trimmed : string) : list string :=
  List.map Str.trim (Str.split "," trimmed).

Definition isNumericType (type : string) : bool :=
  String.eqb type "DMG" || String.eqb type "DOT"
  || String.eqb type "HEAL" || String.eqb type "ENERGIZE".

Definition isEffectType (type : string) : bool :=
  String.eqb type "BUFF" || String.eqb type "DEBUFF".

Definition parseLine (line : string) (st : State) : State :=
  let trimmed := Str.trim line in
  if negb (Str.truthy trimmed) then st
  else
    let st := incr_totalLines st in
    let parts := fields trimmed in
    if (length parts <? 2)%nat then incr_skippedLines st
    else
      let timestampStr := nth 0 parts "" in
      let type := nth 1 parts "" in
      match Number timestampStr with
      | None => incr_skippedLines st
      | Some ts =>
          if isNumericType type then parseNumericEvent ts type parts st
          else if isEffectType type then parseEffectEvent ts type parts st
          else incr_skippedLines st
      end.

(** [for (const line of lines) parseLine(line)]. *)
Definition parseLines (lines : list string) (st : State) : State :=
  fold_left (fun s line => parseLine line s) lines st.

End Parsing.

(** ** Aggregation for the current time frame *)

Definition isInCurrentTimeFrame (tf : TimeFilter) (timestamp : Q) : bool :=
  if negb (tfEnabled tf) then true
  else Qle_bool (ToNumber_null (tfStart tf)) timestamp
       && Qle_bool timestamp (ToNumber_null (tfEnd tf)).

(** The rows of [buildAggregatedEntitiesForCurrentTimeFrame]. *)
Module AggRow.
Record t : Type := mk {
  name : string;
  damageDone : Q;
  healingDone : Q;
  damageReceived : Q
}.

(** [row[valueField]] when it is a number. *)
Definition get (valueField : string) (row : t) : option Q :=
  if String.eqb valueField "damageDone" then Some (damageDone row)
  else if String.eqb valueField "healingDone" then Some (healingDone row)
  else if String.eqb valueField "damageReceived" then Some (damageReceived row)
  else None.

(** [row[valueField]] of a row that [filteredRows] kept. *)
Definition num (valueField : string) (row : t) : Q :=
  match get valueField row with Some v => v | None => 0 end.
End AggRow.

(** [let x = 0; for (const e of events) if (isInCurrentTimeFrame(e.timestamp)) x += e.amount]. *)
Definition windowedSum (tf : TimeFilter) (events : list Ev.t) : Q :=
  fold_left
    (fun acc e => if isInCurrentTimeFrame tf (Ev.timestamp e)
                  then acc + Ev.amount e else acc)
    events 0.

Definition aggregateEntity (tf : TimeFilter) (entity : Entity) : AggRow.t :=
  AggRow.mk (name entity)
    (windowedSum tf (damageEvents entity))
    (windowedSum tf (healEvents entity))
    (windowedSum tf (damageTakenEvents entity)).

Definition buildAggregatedEntitiesForCurrentTimeFrame (st : State) : list AggRow.t :=
  List.map (aggregateEntity (timeFilter st)) (EMap.values (entities st)).

(** ** Rendering *)

(** [Array.prototype.sort] with a comparator: a stable sort; an element
    goes before the first one it does not compare greater than. *)
Fixpoint sort_insert {A : Type} (cmp : A -> A -> Q) (x : A) (l : list A) : list A :=
  match l with
  | [] => [x]
  | y :: l' => if Qle_bool (cmp x y) 0 then x :: l else y :: sort_insert cmp x l'
  end.

Definition sort {A : Type} (cmp : A -> A -> Q) (l : list A) : list A :=
  fold_right (sort_insert cmp) [] l.

(** A row of the rendered table; [pct] is there when the table has a
    percent column. *)
Record TableRow : Type := mkTableRow {
  rank : nat;
  entity : string;
  value : Q;
  pct : option Q
}.

(** The rows that [renderEntityTable] keeps. *)
Definition filteredRows (rows : list AggRow.t) (valueField : string) : list AggRow.t :=
  filter (fun row => match AggRow.get valueField row with
                     | Some v => Qltb 0 v
                     | None => false
                     end) rows.

(** The [forEach] of [renderEntityTable], from index [index]. *)
Fixpoint tableRows (valueField : string) (includePercent : bool) (total : Q)
    (index : nat) (rows : list AggRow.t) : list TableRow :=
  match rows with
  | [] => []
  | row :: rows' =>
      let amount := AggRow.num valueField row in
      let rank := (index + 1)%nat in
      let pct := if Qltb 0 total then (amount / total) * 100 else 0 in
      mkTableRow rank (AggRow.name row) amount
        (if includePercent then Some pct else None)
      :: tableRows valueField includePercent total (S index) rows'
  end.

(** [renderEntityTable]: [None] is the paragraph "No data."; otherwise the
    rows of the table. *)
Definition renderEntityTable (rows : list AggRow.t) (valueField : string)
    (includePercent : bool) : option (list TableRow) :=
  let filtered := filteredRows rows valueField in
  match filtered with
  | [] => None
  | _ =>
      let total := fold_left (fun sum row => sum + AggRow.num valueField row) filtered 0 in
      Some (tableRows valueField includePercent total 0 filtered)
  end.

Definition byDamageDone (aggregated : list AggRow.t) : list AggRow.t :=
  sort (fun a b => AggRow.damageDone b - AggRow.damageDone a) aggregated.

Definition byHealingDone (aggregated : list AggRow.t) : list AggRow.t :=
  sort (fun a b => AggRow.healingDone b - AggRow.healingDone a) aggregated.

Definition byDamageReceived (aggregated : list AggRow.t) : list AggRow.t :=
  sort (fun a b => AggRow.damageReceived b - AggRow.damageReceived a) aggregated.

(** [renderTables]: the three tables, in the order they are rendered. *)
Definition renderTables (st : State)
  : option (list TableRow) * option (list TableRow) * option (list TableRow) :=
  let aggregated := buildAggregatedEntitiesForCurrentTimeFrame st in
  (renderEntityTable (byDamageDone aggregated) "damageDone" true,
   renderEntityTable (byHealingDone aggregated) "healingDone" true,
   renderEntityTable (byDamageReceived aggregated) "damageReceived" false).

(** ** Time filter *)

(** [epochToLocalInput(ts)] throws: [toISOString] raises a RangeError when
    [ts * 1000] is not the time value of a date, which is when it is more
    than 8.64e15 milliseconds away from the epoch.  The text that the
    function returns otherwise is written to the page only. *)
Definition epochToLocalInput_throws (ts : Q) : bool :=
  Qltb 8640000000000000 (Qabs (ts * 1000)).

(** How a call that may throw ends, with the state that it leaves. *)
Inductive Completion : Type :=
| Returned (st : State)
| Thrown (st : State).

(** [setupTimeFilterUI] writes the filter and then the two inputs, with
    [epochToLocalInput]: when that throws, the filter is already
    written. *)
Definition setupTimeFilterUI (st : State) : Completion :=
  match tbMin (timeBounds st), tbMax (timeBounds st) with
  | Some mn, Some mx =>
      let st :=
        set_timeFilter
          (mkTimeFilter false (tbMin (timeBounds st)) (tbMax (timeBounds st)))
          st in
      if epochToLocalInput_throws mn || epochToLocalInput_throws mx
      then Thrown st else Returned st
  | _, _ => Returned st
  end.

(** [setInitialTimeFilterLast30Minutes] writes the filter before it calls
    [epochToLocalInput]: the state that it leaves is the same whether that
    returns or throws. *)
Definition setInitialTimeFilterLast30Minutes (st : State) : State :=
  match tbMin (timeBounds st), tbMax (timeBounds st) with
  | Some mn, Some mx =>
      let THIRTY_MIN := 30 * 60 in
      let candidateStart := mx - THIRTY_MIN in
      let start := Math_max candidateStart mn in
      let end_ := mx in
      set_timeFilter (mkTimeFilter true (Some start) (Some end_)) st
  | _, _ => st
  end.

(** [applyTimeFilterFromInputs] after the two inputs are read:
    [startEpoch] and [endEpoch] are what [localInputToEpoch] returned.  The
    result is the state and the message of the [alert], if any. *)
Definition applyTimeFilterFromInputs (startEpoch endEpoch : jsnum) (st : State)
  : State * option string :=
  match startEpoch, endEpoch with
  | Some startEpoch, Some endEpoch =>
      let mn := ToNumber_null (tbMin (timeBounds st)) in
      let mx := ToNumber_null (tbMax (timeBounds st)) in
      if Qltb startEpoch mn || Qltb mx startEpoch
         || Qltb endEpoch mn || Qltb mx endEpoch then
        (st, Some "Time must be within earliest/latest log timestamps.")
      else if Qltb endEpoch startEpoch then
        (st, Some "Start time must be before end time.")
      else
        (set_timeFilter (mkTimeFilter true (Some startEpoch) (Some endEpoch)) st,
         None)
  | _, _ => (st, Some "Invalid date format.")
  end.

Definition resetTimeFilterToFullRange (st : State) : State :=
  set_timeFilter
    (mkTimeFilter false (tbMin (timeBounds st)) (tbMax (timeBounds st))) st.

(** ** File handling *)

(** The "reset state" block of the click handler of [parseButton]. *)
Definition resetState (st : State) : State :=
  mkState []
    (mkGlobalStats 0 0 0
       (List.map (fun kv => (fst kv, 0%nat)) (byType (globalStats st))))
    (mkTimeBounds None None)
    (mkTimeFilter false None None).

Section Loading.

Variable Number : string -> jsnum.

(** [reader.onload], up to the rendering calls.  An exception of
    [setupTimeFilterUI] is not caught: it ends the handler, and the state
    stays as it was when it was thrown. *)
Definition onload (text : string) (st : State) : State :=
  let lines := Str.splitLines text in
  let st := parseLines Number lines st in
  match setupTimeFilterUI st with
  | Thrown st => st
  | Returned st => setInitialTimeFilterLast30Minutes st
  end.

(** A log load: the reset of the click handler, then [reader.onload] on
    the text of the file. *)
Definition ingest (text : string) (st : State) : State :=
  onload text (resetState st).

End Loading.

(** ** Helpers *)

Module Html.

(** [s.replace(/c/g, rep)] for a pattern of one character. *)
Fixpoint replaceAll (c : ascii) (rep : string) (s : string) : string :=
  match s with
  | EmptyString => EmptyString
  | String x s' =>
      if Ascii.eqb x c then rep ++ replaceAll c rep s'
      else String x (replaceAll c rep s')
  end.

(** The double quote. *)
Definition dquote : ascii := ascii_of_nat 34.

(** [escapeHtml] of a string: the five replacements, in the order of the
    source. *)
Definition escapeHtml (str : string) : string :=
  replaceAll "'" "&#39;"
    (replaceAll dquote "&quot;"
       (replaceAll ">" "&gt;"
          (replaceAll "<" "&lt;"
             (replaceAll "&" "&amp;" str)))).

End Html.

(** A [Map] with string keys built by a query, in insertion order. *)
Module SMap.
Section Values.
Context {V : Type}.

Fixpoint get (k : string) (m : list (string * V)) : option V :=
  match m with
  | [] => None
  | (k', v) :: m' => if String.eqb k' k then Some v else get k m'
  end.

Fixpoint set (k : string) (v : V) (m : list (string * V)) : list (string * V) :=
  match m with
  | [] => [(k, v)]
  | (k', v') :: m' =>
      if String.eqb k' k then (k, v) :: m' else (k', v') :: set k v m'
  end.

End Values.
End SMap.

(** [x || 0] for [x] a number or [undefined]: 0 and [undefined] are
    falsy. *)
Definition orZero (x : option Q) : Q :=
  match x with
  | Some v => if Qeq_bool v 0 then 0 else v
  | None => 0
  end.

(** [x || 0] for [x] a count or [undefined]. *)
Definition orZeroNat (x : option nat) : nat :=
  match x with Some v => v | None => 0%nat end.

(** [s || d] for a string [s]. *)
Definition orString (s d : string) : string :=
  if Str.truthy s then s else d.

(** [s || d] for a property [s] that the object may not have. *)
Definition orStringOpt (s : option string) (d : string) : string :=
  match s with Some s => orString s d | None => d end.

(** Truthiness of a number: 0 is the falsy one. *)
Definition truthyNum (x : Q) : bool := negb (Qeq_bool x 0).

(** [s.split("::")]: the separator is two colons in a row, found from the
    left. *)
Fixpoint splitColons (s : string) : list string :=
  match s with
  | EmptyString => [EmptyString]
  | String c s' =>
      let cons_char := match splitColons s' with
                       | h :: t => String c h :: t
                       | [] => [String c EmptyString]
                       end in
      if Ascii.eqb c ":" then
        match s' with
        | String c' s'' =>
            if Ascii.eqb c' ":" then EmptyString :: splitColons s''
            else cons_char
        | EmptyString => cons_char
        end
      else cons_char
  end.

(** ** Per-entity breakdowns *)

Definition buildEntityDamageBySkill (tf : TimeFilter) (entity : Entity)
  : list (string * Q) :=
  fold_left
    (fun map e =>
       if negb (isInCurrentTimeFrame tf (Ev.timestamp e)) then map
       else
         let key := orString (Ev.skill e) "(no skill)" in
         SMap.set key (orZero (SMap.get key map) + Ev.amount e) map)
    (damageEvents entity) [].

Definition buildEntityHealingBySkill (tf : TimeFilter) (entity : Entity)
  : list (string * Q) :=
  fold_left
    (fun map e =>
       if negb (isInCurrentTimeFrame tf (Ev.timestamp e)) then map
       else
         let key := orString (Ev.skill e) "(no skill)" in
         SMap.set key (orZero (SMap.get key map) + Ev.amount e) map)
    (healEvents entity) [].

(** [buildEntityTopDamageSources(entity, limit)], for a limit that is a
    natural number; the source calls it with the default, 10. *)
Definition buildEntityTopDamageSources (tf : TimeFilter) (entity : Entity)
    (limit : nat) : list (string * Q) :=
  let map :=
    fold_left
      (fun map e =>
         if negb (isInCurrentTimeFrame tf (Ev.timestamp e)) then map
         else
           let key := orStringOpt (Ev.source e) "(unknown)" in
           SMap.set key (orZero (SMap.get key map) + Ev.amount e) map)
      (damageTakenEvents entity) [] in
  let entries := sort (fun a b => snd b - snd a) map in
  firstn limit entries.

(** A row of [buildEntityAppliedBuffsByEffect]; [name] is the second
    element of the split key, [undefined] when there is none. *)
Module FxRow.
Record t : Type := mk {
  type : string;
  name : option string;
  count : nat
}.
End FxRow.

(** The number that a count is. *)
Definition natQ (n : nat) : Q := inject_Z (Z.of_nat n).

Definition buildEntityAppliedBuffsByEffect (tf : TimeFilter) (entity : Entity)
  : list FxRow.t :=
  let map :=
    fold_left
      (fun map e =>
         if negb (isInCurrentTimeFrame tf (Fx.timestamp e)) then map
         else
           let key := "BUFF::" ++ orString (Fx.effectName e) "(unknown)" in
           SMap.set key (orZeroNat (SMap.get key map) + 1)%nat map)
      (buffsApplied entity) [] in
  let map :=
    fold_left
      (fun map e =>
         if negb (isInCurrentTimeFrame tf (Fx.timestamp e)) then map
         else
           let key := "DEBUFF::" ++ orString (Fx.effectName e) "(unknown)" in
           SMap.set key (orZeroNat (SMap.get key map) + 1)%nat map)
      (debuffsApplied entity) map in
  let result :=
    List.map
      (fun kc =>
         let parts := splitColons (fst kc) in
         FxRow.mk (nth 0 parts "") (nth_error parts 1) (snd kc))
      map in
  sort (fun a b => natQ (FxRow.count b) - natQ (FxRow.count a)) result.

(** ** Entity details *)

(** A row of one of the three metric tables of the details: the key, the
    amount and the percentage. *)
Record MetricRow : Type := mkMetricRow {
  metricKey : string;
  metricAmount : Q;
  metricPct : Q
}.

(** What [renderEntityDetails] shows: the hint that asks for a name, the
    hint "Entity not found", or the five tables (an empty list is the
    paragraph that stands for an empty table). *)
Inductive EntityDetails : Type :=
| PleaseType
| EntityNotFound (entityName : string)
| Details (damage healing taken : list MetricRow)
          (appliedBuffs appliedDebuffs : list FxRow.t).

(** The rows of a metric table: [pct = total ? (amount / total) * 100 : 0]. *)
Definition metricRows (total : Q) (entries : list (string * Q)) : list MetricRow :=
  List.map
    (fun kv =>
       mkMetricRow (fst kv) (snd kv)
         (if truthyNum total then (snd kv / total) * 100 else 0))
    entries.

Definition renderEntityDetails (entityName : string) (st : State) : EntityDetails :=
  if negb (Str.truthy entityName) then PleaseType
  else
    match EMap.get entityName (entities st) with
    | None => EntityNotFound entityName
    | Some entity =>
        let tf := timeFilter st in
        let dmgBySkill := buildEntityDamageBySkill tf entity in
        let healBySkill := buildEntityHealingBySkill tf entity in
        let topDamageSources := buildEntityTopDamageSources tf entity 10 in
        let appliedEffects := buildEntityAppliedBuffsByEffect tf entity in
        let appliedBuffs :=
          filter (fun r => String.eqb (FxRow.type r) "BUFF") appliedEffects in
        let appliedDebuffs :=
          filter (fun r => String.eqb (FxRow.type r) "DEBUFF") appliedEffects in
        let totalDmg := fold_left (fun a b => a + b) (List.map snd dmgBySkill) 0 in
        let totalHeal := fold_left (fun a b => a + b) (List.map snd healBySkill) 0 in
        let totalTaken := fold_left (fun sum kv => sum + snd kv) topDamageSources 0 in
        Details
          (metricRows totalDmg (sort (fun a b => snd b - snd a) dmgBySkill))
          (metricRows totalHeal (sort (fun a b => snd b - snd a) healBySkill))
          (metricRows totalTaken topDamageSources)
          appliedBuffs appliedDebuffs
    end.

(** ** Vocabulary of the statements *)

(** The sum of [amount] over a history, accumulated from 0 in the order of
    the history. *)
Definition sumAmounts (events : list Ev.t) : Q :=
  fold_left (fun acc e => acc + Ev.amount e) events 0.

(** The sum of a list of numbers. *)
Definition sumQ (l : list Q) : Q := fold_right Qplus 0 l.

(** The object that [getEntity(name)] returns in the map [m]: the one
    stored under [name], or the new one. *)
Definition entityOf (name : string) (m : EMap.t) : Entity :=
  match EMap.get name m with Some e => e | None => newEntity name end.

(** The running total of an entity that a value field of the tables
    stands for. *)
Definition runningTotal (valueField : string) (e : Entity) : Q :=
  if String.eqb valueField "damageDone" then damageDone e
  else if String.eqb valueField "healingDone" then healingDone e
  else damageReceived e.

(** The values of a rendered table; the paragraph "No data." has no
    row. *)
Definition tableValues (t : option (list TableRow)) : list Q :=
  match t with Some rows => List.map value rows | None => [] end.

(** The running totals agree with the histories of an entity, and no
    stored amount is negative. *)
Definition entityOk (e : Entity) : Prop :=
  damageDone e = sumAmounts (damageEvents e)
  /\ healingDone e = sumAmounts (healEvents e)
  /\ damageReceived e = sumAmounts (damageTakenEvents e)
  /\ Forall (fun ev => 0 <= Ev.amount ev) (damageEvents e)
  /\ Forall (fun ev => 0 <= Ev.amount ev) (healEvents e)
  /\ Forall (fun ev => 0 <= Ev.amount ev) (damageTakenEvents e).

(** A timestamp lies within the time bounds. *)
Definition inBounds (b : TimeBounds) (ts : Q) : Prop :=
  exists lo hi, tbMin b = Some lo /\ tbMax b = Some hi /\ lo <= ts /\ ts <= hi.

(** Every event of the three numeric histories of an entity lies within
    the time bounds. *)
Definition entityInBounds (b : TimeBounds) (e : Entity) : Prop :=
  Forall (fun ev => inBounds b (Ev.timestamp ev)) (damageEvents e)
  /\ Forall (fun ev => inBounds b (Ev.timestamp ev)) (healEvents e)
  /\ Forall (fun ev => inBounds b (Ev.timestamp ev)) (damageTakenEvents e).

(** The invariant of the entities and the time bounds that parsing
    maintains. *)
Definition storeOk (st : State) : Prop :=
  Forall (fun kv => entityOk (snd kv)) (entities st)
  /\ Forall (fun kv => entityInBounds (timeBounds st) (snd kv)) (entities st).

(** The invariant of the line counters. *)
Definition countersOk (st : State) : Prop :=
  (totalLines (globalStats st)
   = parsedLines (globalStats st) + skippedLines (globalStats st))%nat.

(** The filter lets every timestamp of the log through: it is disabled,
    or it is enabled on the whole range of the time bounds. *)
Definition unfiltered (st : State) : Prop :=
  tfEnabled (timeFilter st) = false
  \/ (tfStart (timeFilter st) = tbMin (timeBounds st)
      /\ tfEnd (timeFilter st) = tbMax (timeBounds st)).

(** What a parsed record does to the counters and the bounds, before the
    entities are written. *)
Definition counted (timestamp : Q) (type : string) (st : State) : State :=
  updateTimeBounds timestamp (incr_byType type (incr_parsedLines st)).

(** The writes of [parseNumericEvent] to the map, for a record of raw
    amount [a], with the writes to one object put together: the two
    entities are fetched, then the source and the target are updated. *)
Definition numericWrites (ts : Q) (type : string) (parts : list string) (a : Q)
    (m : EMap.t) : EMap.t :=
  let sourceName := nth 2 parts "" in
  let targetName := nth 3 parts "" in
  let skill := nth 4 parts "" in
  let pool := nth 6 parts "" in
  let hitType := nth 7 parts "" in
  let m2 := snd (getEntity targetName (snd (getEntity sourceName m))) in
  if String.eqb type "DMG" || String.eqb type "DOT" then
    EMap.modify targetName
      (fun e => push_damageTakenEvents
                  (Ev.mk ts type (Some sourceName) None skill (Qabs a) pool hitType)
                  (add_damageReceived (Qabs a) e))
      (EMap.modify sourceName
         (fun e => push_damageEvents
                     (Ev.mk ts type None (Some targetName) skill (Qabs a) pool hitType)
                     (add_damageDone (Qabs a) e))
         m2)
  else if String.eqb type "HEAL" then
    EMap.modify sourceName
      (fun e => push_healEvents
                  (Ev.mk ts type None (Some targetName) skill (Qabs a) pool hitType)
                  (add_healingDone (Qabs a) e))
      m2
  else m2.

(** ** Example logs *)

(** The conversion used in the examples. *)
Definition Number : string -> jsnum := NumberLiteral.StringToNumber.

(** Scenario B of the specification: two HEAL records, one line each. *)
Definition carolHeals : string :=
  "10,HEAL,Carol,Carol,Regen,30,Health,Normal"
  ++ String Str.LF "20,HEAL,Carol,Dave,Regen,20,Health,Normal".

(** A log of three damage records and a line that is skipped. *)
Definition smallLog : string :=
  "100,DMG,Alice,Bob,Fireball,-50,Magic,Crit"
  ++ String Str.CR (String Str.LF "abc,DMG,A,B,Skill,10,Pool,Hit")
  ++ String Str.LF "160,DOT,Bob,Alice,Burn,25,Magic,Normal"
  ++ String Str.LF "4000,DMG,Cat,Alice,Claw,12.5,Physical,Normal".

(** Three hits of 1 by three attackers, and three hits of 0.1, 0.2 and
    0.3. *)
Definition threeHits : string :=
  "1,DMG,A,X,Hit,1,Health,Normal"
  ++ String Str.LF "2,DMG,B,X,Hit,1,Health,Normal"
  ++ String Str.LF "3,DMG,C,X,Hit,1,Health,Normal".

Definition threeAmounts : string :=
  "1,DMG,A,X,Hit,0.1,Health,Normal"
  ++ String Str.LF "2,DMG,B,X,Hit,0.2,Health,Normal"
  ++ String Str.LF "3,DMG,C,X,Hit,0.3,Health,Normal".

(** A state with time bounds 0 and 1000 and the filter on the whole
    range. *)
Definition boundedState : State :=
  mkState [] (mkGlobalStats 0 0 0 ByType.init)
    (mkTimeBounds (Some 0) (Some 1000))
    (mkTimeFilter true (Some 0) (Some 1000)).

(** The entity of Carol after [carolHeals]. *)
Definition carolEntity : Entity :=
  mkEntity "Carol" 0 50 0 []
    [Ev.mk 10 "HEAL" None (Some "Carol") "Regen" 30 "Health" "Normal";
     Ev.mk 20 "HEAL" None (Some "Dave") "Regen" 20 "Health" "Normal"]
    [] [] [] [] [].

(** The fields of a row of a table. *)
Definition tableRowFields (r : TableRow) : nat * string * Q * option Q :=
  (rank r, entity r, value r, pct r).

(** ** The tables in the arithmetic of the machine *)

(** The operations on numbers that the ranking of [renderTables] and
    [renderEntityTable] use. *)
Module Arith.

Record t (N : Type) : Type := mk {
  zero : N;
  hundred : N;
  add : N -> N -> N;
  sub : N -> N -> N;
  mul : N -> N -> N;
  div : N -> N -> N;
  ltb : N -> N -> bool
}.

Arguments mk {N}.
Arguments zero {N}.
Arguments hundred {N}.
Arguments add {N}.
Arguments sub {N}.
Arguments mul {N}.
Arguments div {N}.
Arguments ltb {N}.

(** The operations on the rationals, with no rounding: those of the model
    above. *)
Definition exact : t Q := mk 0 100 Qplus Qminus Qmult Qdiv Qltb.

End Arith.

(** The numbers of JavaScript: binary64, with the operations of IEEE 754,
    rounded to nearest. *)
Module Binary64.

Import PrimFloat.



End Binary64.

(** The ranking of one metric, over any arithmetic.  A row of the input is
    [row.name] with [row[valueField]], a number. *)
Module Ranking.

Record Row (N : Type) : Type := mkRow {
  rank : nat;
  entity : string;
  value : N;
  pct : option N
}.

Arguments mkRow {N}.
Arguments rank {N}.
Arguments entity {N}.
Arguments value {N}.
Arguments pct {N}.

Section Over.

Context {N : Type} (A : Arith.t N).

(** [Array.prototype.sort]: an element goes before the first one that the
    comparator does not put it after. *)
Fixpoint sort_insert {X : Type} (cmp : X -> X -> N) (x : X) (l : list X) : list X :=
  match l with
  | [] => [x]
  | y :: l' =>
      if Arith.ltb A (Arith.zero A) (cmp x y) then y :: sort_insert cmp x l'
      else x :: l
  end.

Definition sort {X : Type} (cmp : X -> X -> N) (l : list X) : list X :=
  fold_right (sort_insert cmp) [] l.

Definition filteredRows (rows : list (string * N)) : list (string * N) :=
  filter (fun row => Arith.ltb A (Arith.zero A) (snd row)) rows.

(** [filteredRows.reduce((sum, row) => sum + row[valueField], 0)]. *)
Definition total (filteredRows : list (string * N)) : N :=
  fold_left (fun sum row => Arith.add A sum (snd row)) filteredRows (Arith.zero A).

Fixpoint tableRows (includePercent : bool) (total : N) (index : nat)
    (rows : list (string * N)) : list (Row N) :=
  match rows with
  | [] => []
  | row :: rows' =>
      let amount := snd row in
      let rank := (index + 1)%nat in
      let pct :=
        if Arith.ltb A (Arith.zero A) total
        then Arith.mul A (Arith.div A amount total) (Arith.hundred A)
        else Arith.zero A in
      mkRow rank (fst row) amount (if includePercent then Some pct else None)
      :: tableRows includePercent total (S index) rows'
  end.

Definition renderEntityTable (rows : list (string * N)) (includePercent : bool)
  : option (list (Row N)) :=
  let filtered := filteredRows rows in
  match filtered with
  | [] => None
  | _ => Some (tableRows includePercent (total filtered) 0 filtered)
  end.

(** The table of one metric of [renderTables]: the rows sorted in
    descending order of the metric, then rendered. *)
Definition table (aggregated : list (string * N)) (includePercent : bool)
  : option (list (Row N)) :=
  renderEntityTable (sort (fun a b => Arith.sub A (snd b) (snd a)) aggregated)
    includePercent.

(** The numbers of a list added from the left, from 0. *)
Definition sum (l : list N) : N := fold_left (Arith.add A) l (Arith.zero A).


Definition values (t : option (list (Row N))) : list N :=
  match t with Some rows => List.map value rows | None => [] end.

End Over.

(** A row of a table of the model, as a row over the rationals. *)
Definition ofTableRow (r : TableRow) : Row Q :=
  let '(rank, entity, value, pct) := tableRowFields r in
  mkRow rank entity value pct.

End Ranking.

(** The names and the values of the rows of a table. *)
Definition tableCells (t : option (list TableRow)) : list (string * Q) :=
  match t with
  | Some rows => List.map (fun r => (entity r, value r)) rows
  | None => []
  end.

(** The pairs with a value above 0. *)
Definition positiveCells (l : list (string * Q)) : list (string * Q) :=
  filter (fun c => Qltb 0 (snd c)) l.

(** ** Vocabulary of the further properties *)

(** The writes of [parseEffectEvent] to the map, for a record whose
    identifier field converts to [effectId]. *)
Definition effectWrites (ts : Q) (type : string) (parts : list string)
    (effectId : jsnum) (m : EMap.t) : EMap.t :=
  let sourceName := nth 2 parts "" in
  let targetName := nth 3 parts "" in
  let effectEvent :=
    Fx.mk ts type sourceName targetName (nth 4 parts "")
      (match effectId with None => inl (nth 5 parts "") | Some n => inr n end) in
  let m2 := snd (getEntity targetName (snd (getEntity sourceName m))) in
  if String.eqb type "BUFF" then
    EMap.modify targetName (push_buffsReceived effectEvent)
      (EMap.modify sourceName (push_buffsApplied effectEvent) m2)
  else
    EMap.modify targetName (push_debuffsReceived effectEvent)
      (EMap.modify sourceName (push_debuffsApplied effectEvent) m2).

(** The sum of the counts of [globalStats.byType]. *)
Definition byTypeTotal (bt : ByType.t) : nat := list_sum (List.map snd bt).

(** The time bounds are both [null] and nothing was parsed, or they are
    two numbers in order and something was parsed. *)
Definition boundsOk (st : State) : Prop :=
  match tbMin (timeBounds st), tbMax (timeBounds st) with
  | None, None => parsedLines (globalStats st) = 0%nat
  | Some lo, Some hi => lo <= hi /\ (0 < parsedLines (globalStats st))%nat
  | _, _ => False
  end.

(** The keys of the map are distinct and every entity is stored under its
    own name. *)
Definition registryOk (m : EMap.t) : Prop :=
  NoDup (EMap.keys m) /\ Forall (fun kv => name (snd kv) = fst kv) m.

(** [e'] is [e] with events appended to its histories: the name is the
    same and each of the seven histories of [e] is a prefix of that of
    [e']. *)
Definition grownFrom (e e' : Entity) : Prop :=
  name e' = name e
  /\ (exists l, damageEvents e' = (damageEvents e ++ l)%list)
  /\ (exists l, healEvents e' = (healEvents e ++ l)%list)
  /\ (exists l, damageTakenEvents e' = (damageTakenEvents e ++ l)%list)
  /\ (exists l, buffsApplied e' = (buffsApplied e ++ l)%list)
  /\ (exists l, debuffsApplied e' = (debuffsApplied e ++ l)%list)
  /\ (exists l, buffsReceived e' = (buffsReceived e ++ l)%list)
  /\ (exists l, debuffsReceived e' = (debuffsReceived e ++ l)%list).

(** The row of an entity when nothing is filtered out: its running
    totals. *)
Definition totalsRow (e : Entity) : AggRow.t :=
  AggRow.mk (name e) (damageDone e) (healingDone e) (damageReceived e).

(** A write to an entity object that only appends to its histories. *)
Definition appendOnly (f : Entity -> Entity) : Prop :=
  forall e, grownFrom e (f e).

(** The map [m'] has the keys of [m], in the same order, followed by new
    ones, and holds under each key of [m] the entity of [m], grown. *)
Definition registryGrows (m m' : EMap.t) : Prop :=
  (exists added, EMap.keys m' = (EMap.keys m ++ added)%list)
  /\ forall k e, EMap.get k m = Some e ->
                 exists e', EMap.get k m' = Some e' /\ grownFrom e e'.

(** The running totals and the three numeric histories of two entities
    are the same. *)
Definition sameNumeric (e e' : Entity) : Prop :=
  damageDone e' = damageDone e /\ healingDone e' = healingDone e
  /\ damageReceived e' = damageReceived e
  /\ damageEvents e' = damageEvents e /\ healEvents e' = healEvents e
  /\ damageTakenEvents e' = damageTakenEvents e.

(** A damage event of the history of an attacker, with the attacker
    written in, and a damage event of the history of a target, with the
    target written in: the record that the event is of. *)
Definition withSource (n : string) (ev : Ev.t) : Ev.t :=
  Ev.mk (Ev.timestamp ev) (Ev.type ev) (Some n) (Ev.target ev) (Ev.skill ev)
    (Ev.amount ev) (Ev.pool ev) (Ev.hitType ev).

Definition withTarget (n : string) (ev : Ev.t) : Ev.t :=
  Ev.mk (Ev.timestamp ev) (Ev.type ev) (Ev.source ev) (Some n) (Ev.skill ev)
    (Ev.amount ev) (Ev.pool ev) (Ev.hitType ev).

(** The records of the events of damage done of a map, by key, and those
    of its events of damage taken. *)
Definition damageDoneRecords (m : EMap.t) : list Ev.t :=
  flat_map (fun kv => List.map (withSource (fst kv)) (damageEvents (snd kv))) m.

Definition damageTakenRecords (m : EMap.t) : list Ev.t :=
  flat_map (fun kv => List.map (withTarget (fst kv)) (damageTakenEvents (snd kv))) m.

(** Each damage record is held once on each side. *)
Definition damageBalanced (m : EMap.t) : Prop :=
  Permutation (damageDoneRecords m) (damageTakenRecords m).

(** The key of an event in the breakdown by skill: [e.skill || "(no skill)"]. *)
Definition skillKey (e : Ev.t) : string := orString (Ev.skill e) "(no skill)".

(** The key of an event in the breakdown by attacker:
    [e.source || "(unknown)"]. *)
Definition sourceKey (e : Ev.t) : string := orStringOpt (Ev.source e) "(unknown)".

(** The loop of the three breakdowns by amount, from the map [map0]. *)
Definition groupSum (tf : TimeFilter) (key : Ev.t -> string)
    (events : list Ev.t) (map0 : list (string * Q)) : list (string * Q) :=
  fold_left
    (fun map e =>
       if negb (isInCurrentTimeFrame tf (Ev.timestamp e)) then map
       else
         let k := key e in
         SMap.set k (orZero (SMap.get k map) + Ev.amount e) map)
    events map0.

(** The events of a history that pass the filter and have the key [k]. *)
Definition keyEvents (tf : TimeFilter) (key : Ev.t -> string) (k : string)
    (events : list Ev.t) : list Ev.t :=
  filter (fun e => isInCurrentTimeFrame tf (Ev.timestamp e)
                   && String.eqb (key e) k) events.

(** Their amounts, added from 0 in the order of the history. *)
Definition keyTotal (tf : TimeFilter) (key : Ev.t -> string) (k : string)
    (events : list Ev.t) : Q :=
  sumAmounts (keyEvents tf key k events).

(** The name under which an effect event is counted:
    [e.effectName || "(unknown)"]. *)
Definition effectNameKey (e : Fx.t) : string :=
  orString (Fx.effectName e) "(unknown)".

(** The loop of the count of effects, with the prefix of the kind, from
    the map [map0]. *)
Definition groupCount (tf : TimeFilter) (prefix : string)
    (events : list Fx.t) (map0 : list (string * nat)) : list (string * nat) :=
  fold_left
    (fun map e =>
       if negb (isInCurrentTimeFrame tf (Fx.timestamp e)) then map
       else
         let k := prefix ++ effectNameKey e in
         SMap.set k (orZeroNat (SMap.get k map) + 1)%nat map)
    events map0.

(** The effect events of a list that pass the filter and are counted
    under the name [n]. *)
Definition namedEffects (tf : TimeFilter) (n : string) (events : list Fx.t)
  : list Fx.t :=
  filter (fun e => isInCurrentTimeFrame tf (Fx.timestamp e)
                   && String.eqb (effectNameKey e) n) events.

(** The effect events of a list that pass the filter. *)
Definition windowedEffects (tf : TimeFilter) (events : list Fx.t) : list Fx.t :=
  filter (fun e => isInCurrentTimeFrame tf (Fx.timestamp e)) events.

(** The value of a key of a map, 0 when the key is not there. *)
Definition valueOr0 (x : option Q) : Q :=
  match x with Some v => v | None => 0 end.

(** The effect events of a list that the loop with the prefix [prefix]
    counts under the key [k]. *)
Definition countedUnder (tf : TimeFilter) (prefix k : string)
    (events : list Fx.t) : list Fx.t :=
  filter (fun e => isInCurrentTimeFrame tf (Fx.timestamp e)
                   && String.eqb (prefix ++ effectNameKey e) k) events.

(** Proves that a write to an entity object only appends. *)
Ltac append_only :=
  unfold appendOnly; intro; unfold grownFrom; simpl; split; [reflexivity|];
  repeat split; first [ exists []; now rewrite app_nil_r | eexists; reflexivity ].

(** The percentage of an amount for a total:
    [total ? (amount / total) * 100 : 0]. *)
Definition pctOf (total amount : Q) : Q :=
  if truthyNum total then (amount / total) * 100 else 0.

(** Every row of a metric table holds the percentage of its amount for
    the total [total]. *)
Definition percentagesOf (total : Q) (rows : list MetricRow) : Prop :=
  Forall (fun r => metricPct r = pctOf total (metricAmount r)) rows.

(** The keys and the amounts of the rows of a metric table. *)
Definition metricCells (rows : list MetricRow) : list (string * Q) :=
  List.map (fun r => (metricKey r, metricAmount r)) rows.

(** The state after [smallLog], with the filter reset to the full
    range. *)
Definition smallLogState : State :=
  resetTimeFilterToFullRange (ingest Number smallLog initialState).

(** The third of the metric tables of the details, when they are shown. *)
Definition takenTable (d : EntityDetails) : list MetricRow :=
  match d with Details _ _ taken _ _ => taken | _ => [] end.

(** The character occurs in the string. *)
Fixpoint occurs (c : ascii) (s : string) : bool :=
  match s with
  | EmptyString => false
  | String x s' => Ascii.eqb x c || occurs c s'
  end.

(** What [escapeHtml] writes for one character. *)
Definition escapeChar (c : ascii) : string :=
  if Ascii.eqb c "&" then "&amp;"
  else if Ascii.eqb c "<" then "&lt;"
  else if Ascii.eqb c ">" then "&gt;"
  else if Ascii.eqb c Html.dquote then "&quot;"
  else if Ascii.eqb c "'" then "&#39;"
  else String c EmptyString.

(** The escaping of a string, one character at a time. *)
Fixpoint escapeEach (s : string) : string :=
  match s with
  | EmptyString => EmptyString
  | String c s' => escapeChar c ++ escapeEach s'
  end.

(** The characters that [escapeHtml] replaces. *)
Definition isMarkupChar (c : ascii) : bool :=
  Ascii.eqb c "&" || Ascii.eqb c "<" || Ascii.eqb c ">"
  || Ascii.eqb c Html.dquote || Ascii.eqb c "'".

(** No character of the string is one that [escapeHtml] replaces. *)
Fixpoint plainText (s : string) : bool :=
  match s with
  | EmptyString => true
  | String c s' => negb (isMarkupChar c) && plainText s'
  end.

(** Every event of the seven histories of an entity has its timestamp
    within the time bounds. *)
Definition historiesInBounds (b : TimeBounds) (e : Entity) : Prop :=
  entityInBounds b e
  /\ Forall (fun fx => inBounds b (Fx.timestamp fx)) (buffsApplied e)
  /\ Forall (fun fx => inBounds b (Fx.timestamp fx)) (debuffsApplied e)
  /\ Forall (fun fx => inBounds b (Fx.timestamp fx)) (buffsReceived e)
  /\ Forall (fun fx => inBounds b (Fx.timestamp fx)) (debuffsReceived e).

(** ** Numbers: comparison *)

Lemma Qltb_lt (x y : Q) : Qltb x y = true <-> x < y.
Proof.
  unfold Qltb. rewrite negb_true_iff.
  split; intro H.
  - apply Qnot_le_lt. intro Hle. apply Qle_bool_iff in Hle. congruence.
  - destruct (Qle_bool y x) eqn:E; [|reflexivity].
    apply Qle_bool_iff in E. exfalso. apply (Qlt_not_le _ _ H E).
Qed.

Lemma Qltb_ge (x y : Q) : Qltb x y = false <-> y <= x.
Proof.
  unfold Qltb. rewrite negb_false_iff. apply Qle_bool_iff.
Qed.

(** The amount of a DMG or DOT record is the absolute value of the raw
    amount. *)
Lemma dmgAmount_abs (a : Q) : (if Qltb a 0 then - a else a) = Qabs a.
Proof.
  destruct a as [n d]. unfold Qltb, Qle_bool, Qabs, Qopp. simpl.
  rewrite Z.mul_1_r.
  destruct (Z.leb_spec 0 n) as [H|H]; simpl.
  - rewrite Z.abs_eq by assumption. reflexivity.
  - rewrite Z.abs_neq by lia. reflexivity.
Qed.

(** ** The [entities] map *)

Module EMapFacts.

Lemma get_modify (k k' : string) (f : Entity -> Entity) (m : EMap.t) :
  EMap.get k' (EMap.modify k f m)
  = if String.eqb k k' then option_map f (EMap.get k' m) else EMap.get k' m.
Proof.
  induction m as [|[k0 v] m IH]; simpl.
  - destruct (String.eqb k k'); reflexivity.
  - destruct (String.eqb k0 k) eqn:E1; destruct (String.eqb k0 k') eqn:E2;
      destruct (String.eqb k k') eqn:E3; simpl; rewrite ?E1, ?E2, ?E3;
      try reflexivity; try (rewrite IH, E3; reflexivity);
      rewrite ?String.eqb_eq, ?String.eqb_neq in *; congruence.
Qed.

Lemma get_set (k k' : string) (v : Entity) (m : EMap.t) :
  EMap.get k' (EMap.set k v m)
  = if String.eqb k k' then Some v else EMap.get k' m.
Proof.
  induction m as [|[k0 v0] m IH]; simpl.
  - reflexivity.
  - destruct (String.eqb k0 k) eqn:E1; destruct (String.eqb k0 k') eqn:E2;
      destruct (String.eqb k k') eqn:E3; simpl; rewrite ?E1, ?E2, ?E3;
      try reflexivity; try (rewrite IH, E3; reflexivity);
      rewrite ?String.eqb_eq, ?String.eqb_neq in *; congruence.
Qed.

Lemma get_getEntity (n k : string) (m : EMap.t) :
  EMap.get k (snd (getEntity n m))
  = if String.eqb n k then Some (entityOf n m) else EMap.get k m.
Proof.
  unfold getEntity, EMap.has, entityOf.
  destruct (EMap.get n m) as [e|] eqn:E; simpl.
  - destruct (String.eqb_spec n k) as [<-|]; [exact E|reflexivity].
  - apply get_set.
Qed.

Lemma fst_getEntity (n : string) (m : EMap.t) : fst (getEntity n m) = n.
Proof. unfold getEntity. destruct (negb (EMap.has n m)); reflexivity. Qed.

Lemma modify_modify (k : string) (f g : Entity -> Entity) (m : EMap.t) :
  EMap.modify k f (EMap.modify k g m) = EMap.modify k (fun e => f (g e)) m.
Proof.
  induction m as [|[k0 v] m IH]; simpl; [reflexivity|].
  destruct (String.eqb k0 k) eqn:E; simpl; rewrite E; [reflexivity|].
  now rewrite IH.
Qed.

Lemma modify_comm (k k' : string) (f g : Entity -> Entity) (m : EMap.t) :
  k <> k' ->
  EMap.modify k f (EMap.modify k' g m) = EMap.modify k' g (EMap.modify k f m).
Proof.
  intro Hne. induction m as [|[k0 v] m IH]; simpl; [reflexivity|].
  destruct (String.eqb k0 k') eqn:E1; destruct (String.eqb k0 k) eqn:E2;
    simpl; rewrite ?E1, ?E2; try reflexivity.
  - apply String.eqb_eq in E1, E2. congruence.
  - now rewrite IH.
Qed.

Lemma Forall_modify (P : Entity -> Prop) (k : string) (f : Entity -> Entity)
    (m : EMap.t) :
  (forall e, P e -> P (f e)) ->
  Forall (fun kv => P (snd kv)) m ->
  Forall (fun kv => P (snd kv)) (EMap.modify k f m).
Proof.
  intros Hf. induction 1 as [|[k0 v] m Hv Hm IH]; simpl; [constructor|].
  destruct (String.eqb k0 k); constructor; simpl in *; auto.
Qed.

Lemma Forall_set (P : Entity -> Prop) (k : string) (v : Entity) (m : EMap.t) :
  P v ->
  Forall (fun kv => P (snd kv)) m ->
  Forall (fun kv => P (snd kv)) (EMap.set k v m).
Proof.
  intros Hv. induction 1 as [|[k0 v0] m Hv0 Hm IH]; simpl.
  - constructor; [exact Hv|constructor].
  - destruct (String.eqb k0 k); constructor; simpl in *; auto.
Qed.

Lemma Forall_getEntity (P : Entity -> Prop) (n : string) (m : EMap.t) :
  P (newEntity n) ->
  Forall (fun kv => P (snd kv)) m ->
  Forall (fun kv => P (snd kv)) (snd (getEntity n m)).
Proof.
  intros Hn Hm. unfold getEntity.
  destruct (negb (EMap.has n m)); simpl; [apply Forall_set|]; assumption.
Qed.

End EMapFacts.

(** ** The time window *)

(** C2.  For every timestamp, [isInCurrentTimeFrame] is true when the
    filter is disabled; when the filter is enabled it is true if and only
    if [start <= timestamp] and [timestamp <= end], both bounds included
    (a bound that is still [null] counts as 0, as the comparison reads
    it). *)
Theorem isInCurrentTimeFrame_window (tf : TimeFilter) (t : Q) :
  (tfEnabled tf = false -> isInCurrentTimeFrame tf t = true)
  /\ (tfEnabled tf = true ->
      (isInCurrentTimeFrame tf t = true
       <-> ToNumber_null (tfStart tf) <= t /\ t <= ToNumber_null (tfEnd tf))).
Proof.
  unfold isInCurrentTimeFrame. split; intros ->; simpl.
  - reflexivity.
  - rewrite andb_true_iff, !Qle_bool_iff. tauto.
Qed.

Lemma isInCurrentTimeFrame_window_witness :
  isInCurrentTimeFrame (mkTimeFilter false (Some 100) (Some 200)) 500 = true
  /\ (isInCurrentTimeFrame (mkTimeFilter true (Some 100) (Some 200)) 200 = true
      <-> 100 <= 200 /\ 200 <= 200).
Proof.
  split.
  - apply (proj1 (isInCurrentTimeFrame_window
                    (mkTimeFilter false (Some 100) (Some 200)) 500)).
    reflexivity.
  - apply (proj2 (isInCurrentTimeFrame_window
                    (mkTimeFilter true (Some 100) (Some 200)) 200)).
    reflexivity.
Defined.

(** C5.  With time bounds [lo] and [hi], [applyTimeFilterFromInputs]
    accepts a pair of inputs exactly when both are numbers within
    [[lo, hi]] and the start is not after the end: it then enables the
    filter on that range.  In every other case it raises an alert and
    leaves the state, and with it the filter, as it was. *)
Theorem applyTimeFilterFromInputs_validates
    (st : State) (lo hi : Q) (startEpoch endEpoch : jsnum) :
  tbMin (timeBounds st) = Some lo ->
  tbMax (timeBounds st) = Some hi ->
  let valid :=
    exists s e, startEpoch = Some s /\ endEpoch = Some e
                /\ (lo <= s /\ s <= hi) /\ (lo <= e /\ e <= hi) /\ s <= e in
  (valid ->
   applyTimeFilterFromInputs startEpoch endEpoch st
   = (set_timeFilter (mkTimeFilter true startEpoch endEpoch) st, None))
  /\ (~ valid ->
      exists msg,
        applyTimeFilterFromInputs startEpoch endEpoch st = (st, Some msg)).
Proof.
  intros Hlo Hhi valid. unfold applyTimeFilterFromInputs.
  rewrite Hlo, Hhi. simpl. split.
  - intros (s & e & -> & -> & [Hs1 Hs2] & [He1 He2] & Hse).
    apply Qltb_ge in Hs1, Hs2, He1, He2, Hse.
    now rewrite Hs1, Hs2, He1, He2, Hse.
  - intro Hnot.
    destruct startEpoch as [s|]; [|eexists; reflexivity].
    destruct endEpoch as [e|]; [|eexists; reflexivity].
    destruct (Qltb s lo || Qltb hi s || Qltb e lo || Qltb hi e) eqn:E1;
      [eexists; reflexivity|].
    destruct (Qltb e s) eqn:E2; [eexists; reflexivity|].
    exfalso. apply Hnot.
    rewrite !orb_false_iff in E1. destruct E1 as [[[A B] C] D].
    apply Qltb_ge in A, B, C, D, E2.
    exists s, e. tauto.
Qed.

Lemma applyTimeFilterFromInputs_validates_witness :
  applyTimeFilterFromInputs (Some 100) (Some 500) boundedState
  = (set_timeFilter (mkTimeFilter true (Some 100) (Some 500)) boundedState, None)
  /\ exists msg,
       applyTimeFilterFromInputs (Some 500) (Some 100) boundedState
       = (boundedState, Some msg).
Proof.
  pose proof (applyTimeFilterFromInputs_validates boundedState 0 1000
                (Some 100) (Some 500) eq_refl eq_refl) as [Hacc _].
  pose proof (applyTimeFilterFromInputs_validates boundedState 0 1000
                (Some 500) (Some 100) eq_refl eq_refl) as [_ Hrej].
  split.
  - apply Hacc. exists 100, 500.
    repeat split; try reflexivity; unfold Qle; simpl; lia.
  - apply Hrej. intros (s & e & Hs & He & _ & _ & Hse).
    injection Hs as <-. injection He as <-.
    revert Hse. unfold Qle. simpl. lia.
Defined.

(** ** Parsing: the shape of the result *)

Section ParsingFacts.

Variable Number : string -> jsnum.

Lemma truthy_false (s : string) : Str.truthy s = false <-> s = EmptyString.
Proof. destruct s; simpl; split; congruence. Qed.

Lemma parseNumericEvent_cases (ts : Q) (type : string) (parts : list string)
    (st : State) :
  parseNumericEvent Number ts type parts st = incr_skippedLines st
  \/ exists m, parseNumericEvent Number ts type parts st
               = set_entities m (counted ts type st).
Proof.
  unfold parseNumericEvent.
  destruct (length parts <? 8)%nat; [now left|].
  destruct (Number (nth 5 parts "")) as [a|]; [|now left].
  right. fold (counted ts type st).
  destruct (getEntity (nth 2 parts "") (entities (counted ts type st))) as [source m1].
  destruct (getEntity (nth 3 parts "") m1) as [target m2].
  destruct (String.eqb type "DMG" || String.eqb type "DOT");
    [|destruct (String.eqb type "HEAL")]; eexists; reflexivity.
Qed.

Lemma parseEffectEvent_cases (ts : Q) (type : string) (parts : list string)
    (st : State) :
  parseEffectEvent Number ts type parts st = incr_skippedLines st
  \/ exists m, parseEffectEvent Number ts type parts st
               = set_entities m (counted ts type st).
Proof.
  unfold parseEffectEvent.
  destruct (length parts <? 6)%nat; [now left|].
  right. fold (counted ts type st).
  destruct (getEntity (nth 2 parts "") (entities (counted ts type st))) as [source m1].
  destruct (getEntity (nth 3 parts "") m1) as [target m2].
  destruct (String.eqb type "BUFF"); eexists; reflexivity.
Qed.

Lemma parseLine_blank (line : string) (st : State) :
  Str.trim line = EmptyString -> parseLine Number line st = st.
Proof. intro H. unfold parseLine. now rewrite H. Qed.

Lemma parseLine_cases (line : string) (st : State) :
  Str.trim line <> EmptyString ->
  parseLine Number line st = incr_skippedLines (incr_totalLines st)
  \/ exists ts type m,
       parseLine Number line st
       = set_entities m (counted ts type (incr_totalLines st)).
Proof.
  intro Hne. unfold parseLine.
  destruct (Str.truthy (Str.trim line)) eqn:T;
    [|apply truthy_false in T; contradiction]. simpl.
  destruct (length (fields (Str.trim line)) <? 2)%nat; [now left|].
  destruct (Number (nth 0 (fields (Str.trim line)) "")) as [ts|]; [|now left].
  destruct (isNumericType _).
  - destruct (parseNumericEvent_cases ts (nth 1 (fields (Str.trim line)) "")
                (fields (Str.trim line)) (incr_totalLines st)) as [H|[m H]];
      rewrite H; [now left|right; eauto].
  - destruct (isEffectType _); [|now left].
    destruct (parseEffectEvent_cases ts (nth 1 (fields (Str.trim line)) "")
                (fields (Str.trim line)) (incr_totalLines st)) as [H|[m H]];
      rewrite H; [now left|right; eauto].
Qed.

(** The three line counters after one line. *)
Lemma parseLine_counters (line : string) (st : State) :
  Str.trim line <> EmptyString ->
  let g := globalStats st in
  let g' := globalStats (parseLine Number line st) in
  totalLines g' = (totalLines g + 1)%nat
  /\ ((parsedLines g' = (parsedLines g + 1)%nat /\ skippedLines g' = skippedLines g)
      \/ (parsedLines g' = parsedLines g
          /\ skippedLines g' = (skippedLines g + 1)%nat)).
Proof.
  intros Hne g g'. subst g g'.
  destruct (parseLine_cases line st Hne) as [H|(ts & type & m & H)];
    rewrite H; simpl; auto.
Qed.

Lemma parseLines_cons (line : string) (rest : list string) (st : State) :
  parseLines Number (line :: rest) st
  = parseLines Number rest (parseLine Number line st).
Proof. reflexivity. Qed.

Lemma parseLines_app (l1 l2 : list string) (st : State) :
  parseLines Number (l1 ++ l2) st
  = parseLines Number l2 (parseLines Number l1 st).
Proof. unfold parseLines. apply fold_left_app. Qed.

End ParsingFacts.

(** ** Parsing: the writes to the entities *)

Module WriteFacts.

Import EMapFacts.

Lemma getEntity_pair (n : string) (m : EMap.t) :
  getEntity n m = (n, snd (getEntity n m)).
Proof. unfold getEntity. destruct (negb (EMap.has n m)); reflexivity. Qed.

Lemma modify_ext (k : string) (f g : Entity -> Entity) (m : EMap.t) :
  (forall e, f e = g e) -> EMap.modify k f m = EMap.modify k g m.
Proof.
  intro H. induction m as [|[k0 v] m IH]; simpl; [reflexivity|].
  destruct (String.eqb k0 k); [now rewrite H|now rewrite IH].
Qed.

(** The four writes of a DMG or DOT record, in the order of the source,
    are a write to the source and a write to the target. *)
Lemma dmg_writes (s t : string) (x : Q) (evD evT : Ev.t) (m : EMap.t) :
  EMap.modify t (push_damageTakenEvents evT)
    (EMap.modify s (push_damageEvents evD)
       (EMap.modify t (add_damageReceived x)
          (EMap.modify s (add_damageDone x) m)))
  = EMap.modify t (fun e => push_damageTakenEvents evT (add_damageReceived x e))
      (EMap.modify s (fun e => push_damageEvents evD (add_damageDone x e)) m).
Proof.
  destruct (String.eqb_spec s t) as [->|Hne].
  - rewrite !modify_modify. apply modify_ext. reflexivity.
  - rewrite (modify_comm s t) by assumption.
    rewrite modify_modify, modify_modify. reflexivity.
Qed.

Lemma heal_writes (s : string) (x : Q) (ev : Ev.t) (m : EMap.t) :
  EMap.modify s (push_healEvents ev) (EMap.modify s (add_healingDone x) m)
  = EMap.modify s (fun e => push_healEvents ev (add_healingDone x e)) m.
Proof. apply modify_modify. Qed.

End WriteFacts.

Section NumericRecord.

Variable Number : string -> jsnum.

(** A numeric record that passes the two checks of [parseNumericEvent]
    counts as parsed and writes [numericWrites]. *)
Lemma parseNumericEvent_parsed (ts : Q) (type : string) (parts : list string)
    (a : Q) (st : State) :
  (8 <= length parts)%nat ->
  Number (nth 5 parts "") = Some a ->
  parseNumericEvent Number ts type parts st
  = set_entities (numericWrites ts type parts a (entities st)) (counted ts type st).
Proof.
  intros Hlen Ha. unfold parseNumericEvent.
  destruct (Nat.ltb_spec (length parts) 8) as [Hlt|_]; [lia|].
  rewrite Ha. fold (counted ts type st).
  change (entities (counted ts type st)) with (entities st).
  rewrite (WriteFacts.getEntity_pair (nth 2 parts "") (entities st)).
  rewrite (WriteFacts.getEntity_pair (nth 3 parts "")
             (snd (getEntity (nth 2 parts "") (entities st)))).
  unfold numericWrites.
  destruct (String.eqb type "DMG" || String.eqb type "DOT").
  - rewrite dmgAmount_abs, WriteFacts.dmg_writes. reflexivity.
  - destruct (String.eqb type "HEAL"); [|reflexivity].
    rewrite WriteFacts.heal_writes. reflexivity.
Qed.

End NumericRecord.

Section NumericLine.

Variable Number : string -> jsnum.

(** A line of at least eight fields whose timestamp and amount convert
    and whose kind is numeric is parsed. *)
Lemma parseLine_numeric (line : string) (st : State)
    (tsS type src tgt skill amtS pool hit : string) (rest : list string)
    (ts a : Q) :
  fields (Str.trim line)
  = tsS :: type :: src :: tgt :: skill :: amtS :: pool :: hit :: rest ->
  Number tsS = Some ts ->
  Number amtS = Some a ->
  isNumericType type = true ->
  parseLine Number line st
  = set_entities
      (numericWrites ts type (fields (Str.trim line)) a (entities st))
      (counted ts type (incr_totalLines st)).
Proof.
  intros Hf Hts Ha Hty. unfold parseLine.
  destruct (Str.truthy (Str.trim line)) eqn:T.
  - simpl. rewrite Hf. simpl. rewrite Hts, Hty.
    rewrite (parseNumericEvent_parsed Number ts type _ a); [reflexivity| |exact Ha].
    simpl. lia.
  - apply truthy_false in T. rewrite T in Hf. discriminate Hf.
Qed.

End NumericLine.

(** *** The entity stored under a name after a numeric record *)

Module NumericWritesFacts.

Import EMapFacts.

Lemma entityOf_getEntity (n k : string) (m : EMap.t) :
  entityOf k (snd (getEntity n m)) = entityOf k m.
Proof.
  unfold entityOf at 1. rewrite get_getEntity.
  destruct (String.eqb_spec n k) as [->|_]; reflexivity.
Qed.

(** After the two calls of [getEntity], the two names are keys. *)
Lemma get_fetched (s t k : string) (m : EMap.t) :
  EMap.get k (snd (getEntity t (snd (getEntity s m))))
  = if String.eqb s k || String.eqb t k then Some (entityOf k m)
    else EMap.get k m.
Proof.
  rewrite !get_getEntity.
  destruct (String.eqb_spec t k) as [->|_].
  - rewrite entityOf_getEntity, orb_true_r. reflexivity.
  - rewrite orb_false_r.
    destruct (String.eqb_spec s k) as [->|_]; reflexivity.
Qed.

Lemma get_numericWrites_dmg (ts : Q) (type : string) (parts : list string)
    (a : Q) (m : EMap.t) (k : string) :
  String.eqb type "DMG" || String.eqb type "DOT" = true ->
  let s := nth 2 parts "" in
  let t := nth 3 parts "" in
  let evD := Ev.mk ts type None (Some t) (nth 4 parts "") (Qabs a)
               (nth 6 parts "") (nth 7 parts "") in
  let evT := Ev.mk ts type (Some s) None (nth 4 parts "") (Qabs a)
               (nth 6 parts "") (nth 7 parts "") in
  EMap.get k (numericWrites ts type parts a m)
  = if String.eqb s k || String.eqb t k then
      Some ((if String.eqb t k
             then fun e => push_damageTakenEvents evT (add_damageReceived (Qabs a) e)
             else fun e => e)
              ((if String.eqb s k
                then fun e => push_damageEvents evD (add_damageDone (Qabs a) e)
                else fun e => e)
                 (entityOf k m)))
    else EMap.get k m.
Proof.
  intros Hty s t evD evT. unfold numericWrites. rewrite Hty.
  fold s t evD evT. rewrite !get_modify, get_fetched.
  destruct (String.eqb s k), (String.eqb t k); reflexivity.
Qed.

Lemma get_numericWrites_heal (ts : Q) (parts : list string)
    (a : Q) (m : EMap.t) (k : string) :
  let s := nth 2 parts "" in
  let t := nth 3 parts "" in
  let ev := Ev.mk ts "HEAL" None (Some t) (nth 4 parts "") (Qabs a)
              (nth 6 parts "") (nth 7 parts "") in
  EMap.get k (numericWrites ts "HEAL" parts a m)
  = if String.eqb s k || String.eqb t k then
      Some ((if String.eqb s k
             then fun e => push_healEvents ev (add_healingDone (Qabs a) e)
             else fun e => e)
              (entityOf k m))
    else EMap.get k m.
Proof.
  intros s t ev. unfold numericWrites. simpl.
  fold s t ev. rewrite !get_modify, get_fetched.
  destruct (String.eqb s k), (String.eqb t k); reflexivity.
Qed.

End NumericWritesFacts.

(** C1.  A line that is parsed as a DMG, DOT or HEAL record of raw amount
    [a] stores the absolute value of [a], which is not negative: it is the
    amount of the event appended to the [damageEvents] of the source and to
    the [damageTakenEvents] of the target (to the [healEvents] of the
    source for HEAL), and the amount added to the running totals. *)
Theorem parseLine_stores_absolute_amount
    (Number : string -> jsnum) (line : string) (st : State)
    (tsS type src tgt skill amtS pool hit : string) (rest : list string)
    (ts a : Q) :
  fields (Str.trim line)
  = tsS :: type :: src :: tgt :: skill :: amtS :: pool :: hit :: rest ->
  Number tsS = Some ts ->
  Number amtS = Some a ->
  let m := entities st in
  let m' := entities (parseLine Number line st) in
  0 <= Qabs a
  /\ (type = "DMG" \/ type = "DOT" ->
      exists es' et',
        EMap.get src m' = Some es' /\ EMap.get tgt m' = Some et'
        /\ damageEvents es'
           = (damageEvents (entityOf src m)
              ++ [Ev.mk ts type None (Some tgt) skill (Qabs a) pool hit])%list
        /\ damageDone es' = damageDone (entityOf src m) + Qabs a
        /\ damageTakenEvents et'
           = (damageTakenEvents (entityOf tgt m)
              ++ [Ev.mk ts type (Some src) None skill (Qabs a) pool hit])%list
        /\ damageReceived et' = damageReceived (entityOf tgt m) + Qabs a)
  /\ (type = "HEAL" ->
      exists es',
        EMap.get src m' = Some es'
        /\ healEvents es'
           = (healEvents (entityOf src m)
              ++ [Ev.mk ts type None (Some tgt) skill (Qabs a) pool hit])%list
        /\ healingDone es' = healingDone (entityOf src m) + Qabs a).
Proof.
  intros Hf Hts Ha m m'. subst m m'.
  split; [apply Qabs_nonneg|]. split.
  - intro Hty.
    assert (Hb : String.eqb type "DMG" || String.eqb type "DOT" = true)
      by (destruct Hty as [-> | ->]; reflexivity).
    rewrite (parseLine_numeric Number line st _ _ _ _ _ _ _ _ _ ts a Hf Hts Ha)
      by (destruct Hty as [-> | ->]; reflexivity).
    simpl entities.
    pose proof (NumericWritesFacts.get_numericWrites_dmg ts type
                  (fields (Str.trim line)) a (entities st)) as G.
    specialize (fun k => G k Hb). rewrite Hf in G. simpl in G.
    rewrite Hf, (G src), (G tgt), !String.eqb_refl, orb_true_r. simpl.
    do 2 eexists. split; [reflexivity|]. split; [reflexivity|].
    destruct (String.eqb tgt src), (String.eqb src tgt);
      repeat split; reflexivity.
  - intros ->.
    rewrite (parseLine_numeric Number line st _ _ _ _ _ _ _ _ _ ts a Hf Hts Ha)
      by reflexivity.
    simpl entities.
    pose proof (NumericWritesFacts.get_numericWrites_heal ts
                  (fields (Str.trim line)) a (entities st)) as G.
    rewrite Hf in G. simpl in G.
    rewrite Hf, (G src), String.eqb_refl. simpl.
    eexists. repeat split; reflexivity.
Qed.

Lemma parseLine_stores_absolute_amount_witness :
  let m' := entities (parseLine Number "7,DMG,A,B,S,-450,P,H" initialState) in
  exists es' et',
    EMap.get "A" m' = Some es' /\ EMap.get "B" m' = Some et'
    /\ damageEvents es' = [Ev.mk 7 "DMG" None (Some "B") "S" 450 "P" "H"]
    /\ damageDone es' = 0 + 450
    /\ damageTakenEvents et' = [Ev.mk 7 "DMG" (Some "A") None "S" 450 "P" "H"]
    /\ damageReceived et' = 0 + 450.
Proof.
  apply (proj1 (proj2 (parseLine_stores_absolute_amount
                         Number "7,DMG,A,B,S,-450,P,H" initialState
                         "7" "DMG" "A" "B" "S" "-450" "P" "H" [] 7 (-450)
                         eq_refl eq_refl eq_refl))).
  left. reflexivity.
Defined.

(** ** The invariant of the store *)

Module StoreFacts.

Import EMapFacts.

Lemma sumAmounts_snoc (l : list Ev.t) (ev : Ev.t) :
  sumAmounts (l ++ [ev]) = sumAmounts l + Ev.amount ev.
Proof. unfold sumAmounts. rewrite fold_left_app. reflexivity. Qed.

Lemma Forall_snoc {A : Type} (P : A -> Prop) (l : list A) (x : A) :
  Forall P l -> P x -> Forall P (l ++ [x]).
Proof. intros Hl Hx. apply Forall_app. split; [exact Hl|now constructor]. Qed.

Lemma entityOk_new (n : string) : entityOk (newEntity n).
Proof. unfold entityOk, newEntity, sumAmounts. simpl. repeat split; constructor. Qed.

Lemma entityOk_damageDone (ev : Ev.t) (e : Entity) :
  0 <= Ev.amount ev -> entityOk e ->
  entityOk (push_damageEvents ev (add_damageDone (Ev.amount ev) e)).
Proof.
  intros Hx (H1 & H2 & H3 & H4 & H5 & H6). unfold entityOk. simpl.
  rewrite sumAmounts_snoc, H1. repeat split; auto using Forall_snoc.
Qed.

Lemma entityOk_damageReceived (ev : Ev.t) (e : Entity) :
  0 <= Ev.amount ev -> entityOk e ->
  entityOk (push_damageTakenEvents ev (add_damageReceived (Ev.amount ev) e)).
Proof.
  intros Hx (H1 & H2 & H3 & H4 & H5 & H6). unfold entityOk. simpl.
  rewrite sumAmounts_snoc, H3. repeat split; auto using Forall_snoc.
Qed.

Lemma entityOk_healingDone (ev : Ev.t) (e : Entity) :
  0 <= Ev.amount ev -> entityOk e ->
  entityOk (push_healEvents ev (add_healingDone (Ev.amount ev) e)).
Proof.
  intros Hx (H1 & H2 & H3 & H4 & H5 & H6). unfold entityOk. simpl.
  rewrite sumAmounts_snoc, H2. repeat split; auto using Forall_snoc.
Qed.

Lemma entityInBounds_new (b : TimeBounds) (n : string) :
  entityInBounds b (newEntity n).
Proof. unfold entityInBounds. simpl. repeat split; constructor. Qed.

Lemma entityInBounds_damageDone (b : TimeBounds) (ev : Ev.t) (x : Q) (e : Entity) :
  inBounds b (Ev.timestamp ev) -> entityInBounds b e ->
  entityInBounds b (push_damageEvents ev (add_damageDone x e)).
Proof.
  intros Hx (H1 & H2 & H3). unfold entityInBounds. simpl.
  repeat split; auto using Forall_snoc.
Qed.

Lemma entityInBounds_damageReceived (b : TimeBounds) (ev : Ev.t) (x : Q) (e : Entity) :
  inBounds b (Ev.timestamp ev) -> entityInBounds b e ->
  entityInBounds b (push_damageTakenEvents ev (add_damageReceived x e)).
Proof.
  intros Hx (H1 & H2 & H3). unfold entityInBounds. simpl.
  repeat split; auto using Forall_snoc.
Qed.

Lemma entityInBounds_healingDone (b : TimeBounds) (ev : Ev.t) (x : Q) (e : Entity) :
  inBounds b (Ev.timestamp ev) -> entityInBounds b e ->
  entityInBounds b (push_healEvents ev (add_healingDone x e)).
Proof.
  intros Hx (H1 & H2 & H3). unfold entityInBounds. simpl.
  repeat split; auto using Forall_snoc.
Qed.

(** [updateTimeBounds] puts the timestamp within the bounds and widens
    them. *)
Lemma inBounds_update_self (ts : Q) (st : State) :
  inBounds (timeBounds (updateTimeBounds ts st)) ts.
Proof.
  unfold inBounds, updateTimeBounds. simpl.
  destruct (tbMin (timeBounds st)) as [lo|], (tbMax (timeBounds st)) as [hi|].
  - destruct (Qltb ts lo) eqn:E1, (Qltb hi ts) eqn:E2;
      do 2 eexists; (split; [reflexivity|]); (split; [reflexivity|]);
      rewrite ?Qltb_ge in *; split; auto using Qle_refl.
  - destruct (Qltb ts lo) eqn:E1;
      do 2 eexists; (split; [reflexivity|]); (split; [reflexivity|]);
      rewrite ?Qltb_ge in *; split; auto using Qle_refl.
  - destruct (Qltb hi ts) eqn:E2;
      do 2 eexists; (split; [reflexivity|]); (split; [reflexivity|]);
      rewrite ?Qltb_ge in *; split; auto using Qle_refl.
  - do 2 eexists; (split; [reflexivity|]); (split; [reflexivity|]);
      split; apply Qle_refl.
Qed.

Lemma inBounds_update_widen (ts x : Q) (st : State) :
  inBounds (timeBounds st) x ->
  inBounds (timeBounds (updateTimeBounds ts st)) x.
Proof.
  intros (lo & hi & Hlo & Hhi & H1 & H2).
  unfold inBounds, updateTimeBounds. simpl. rewrite Hlo, Hhi.
  destruct (Qltb ts lo) eqn:E1, (Qltb hi ts) eqn:E2;
    rewrite ?Qltb_lt, ?Qltb_ge in *;
    do 2 eexists; (split; [reflexivity|]); (split; [reflexivity|]);
    split; lra.
Qed.

Lemma entityInBounds_widen (b b' : TimeBounds) (e : Entity) :
  (forall x, inBounds b x -> inBounds b' x) ->
  entityInBounds b e -> entityInBounds b' e.
Proof.
  intros Hw (H1 & H2 & H3). unfold entityInBounds.
  repeat split; eapply Forall_impl; eauto; simpl; auto.
Qed.

(** [numericWrites] preserves a property of the entities that the new
    entity has and that each of the three writes preserves. *)
Lemma Forall_numericWrites (P : Entity -> Prop) (ts : Q) (type : string)
    (parts : list string) (a : Q) (m : EMap.t) :
  (forall n, P (newEntity n)) ->
  (forall ev e, Ev.timestamp ev = ts -> Ev.amount ev = Qabs a -> P e ->
                P (push_damageEvents ev (add_damageDone (Qabs a) e))
                /\ P (push_damageTakenEvents ev (add_damageReceived (Qabs a) e))
                /\ P (push_healEvents ev (add_healingDone (Qabs a) e))) ->
  Forall (fun kv => P (snd kv)) m ->
  Forall (fun kv => P (snd kv)) (numericWrites ts type parts a m).
Proof.
  intros Hnew Hw Hm. unfold numericWrites.
  assert (H2 : Forall (fun kv => P (snd kv))
                 (snd (getEntity (nth 3 parts "")
                         (snd (getEntity (nth 2 parts "") m)))))
    by (apply Forall_getEntity; [apply Hnew|];
        apply Forall_getEntity; [apply Hnew|exact Hm]).
  destruct (String.eqb type "DMG" || String.eqb type "DOT");
    [|destruct (String.eqb type "HEAL")].
  - apply Forall_modify; [intros e He; now apply Hw|].
    apply Forall_modify; [intros e He; now apply Hw|exact H2].
  - apply Forall_modify; [intros e He; now apply Hw|exact H2].
  - exact H2.
Qed.

End StoreFacts.

Section Invariant.

Variable Number : string -> jsnum.

Import StoreFacts.

Lemma storeOk_counted (ts : Q) (type : string) (st : State) (m : EMap.t) :
  Forall (fun kv => entityOk (snd kv)) m ->
  Forall (fun kv => entityInBounds (timeBounds (counted ts type st)) (snd kv)) m ->
  storeOk (set_entities m (counted ts type st)).
Proof. intros H1 H2. split; assumption. Qed.

Lemma inBounds_counted (ts : Q) (type : string) (st : State) :
  inBounds (timeBounds (counted ts type st)) ts
  /\ forall x, inBounds (timeBounds st) x ->
               inBounds (timeBounds (counted ts type st)) x.
Proof.
  split.
  - apply (inBounds_update_self ts (incr_byType type (incr_parsedLines st))).
  - intros x Hx.
    apply (inBounds_update_widen ts x (incr_byType type (incr_parsedLines st))).
    exact Hx.
Qed.

Lemma storeOk_parseNumericEvent (ts : Q) (type : string) (parts : list string)
    (st : State) :
  storeOk st -> storeOk (parseNumericEvent Number ts type parts st).
Proof.
  intros [Hok Hb].
  destruct (Nat.ltb_spec (length parts) 8) as [Hlt|Hge].
  - unfold parseNumericEvent.
    destruct (Nat.ltb_spec (length parts) 8); [|lia]. split; assumption.
  - destruct (Number (nth 5 parts "")) as [a|] eqn:Ha.
    + rewrite (parseNumericEvent_parsed Number ts type parts a st Hge Ha).
      destruct (inBounds_counted ts type st) as [Hself Hwiden].
      apply storeOk_counted.
      * apply Forall_numericWrites; [apply entityOk_new| |exact Hok].
        intros ev e _ Hamt He. rewrite <- Hamt.
        assert (0 <= Ev.amount ev) by (rewrite Hamt; apply Qabs_nonneg).
        auto using entityOk_damageDone, entityOk_damageReceived,
          entityOk_healingDone.
      * apply Forall_numericWrites.
        -- intro n. apply entityInBounds_new.
        -- intros ev e Hts _ He.
           assert (Hev : inBounds (timeBounds (counted ts type st)) (Ev.timestamp ev))
             by (rewrite Hts; exact Hself).
           split; [|split].
           ++ now apply entityInBounds_damageDone.
           ++ now apply entityInBounds_damageReceived.
           ++ now apply entityInBounds_healingDone.
        -- eapply Forall_impl; [|exact Hb]. intros kv Hkv.
           eapply entityInBounds_widen; [exact Hwiden|exact Hkv].
    + unfold parseNumericEvent.
      destruct (Nat.ltb_spec (length parts) 8); [lia|].
      rewrite Ha. split; assumption.
Qed.

Lemma storeOk_parseEffectEvent (ts : Q) (type : string) (parts : list string)
    (st : State) :
  storeOk st -> storeOk (parseEffectEvent Number ts type parts st).
Proof.
  intros [Hok Hb]. unfold parseEffectEvent.
  destruct (length parts <? 6)%nat; [split; assumption|].
  fold (counted ts type st).
  change (entities (counted ts type st)) with (entities st).
  rewrite (WriteFacts.getEntity_pair (nth 2 parts "") (entities st)).
  rewrite (WriteFacts.getEntity_pair (nth 3 parts "")
             (snd (getEntity (nth 2 parts "") (entities st)))).
  destruct (inBounds_counted ts type st) as [_ Hwiden].
  assert (Hb' : Forall (fun kv => entityInBounds (timeBounds (counted ts type st))
                                    (snd kv)) (entities st)).
  { eapply Forall_impl; [|exact Hb]. intros kv Hkv.
    eapply entityInBounds_widen; [exact Hwiden|exact Hkv]. }
  destruct (String.eqb type "BUFF"); apply storeOk_counted;
    repeat (apply EMapFacts.Forall_modify; [intros e He; exact He|]);
    repeat (apply EMapFacts.Forall_getEntity;
            [first [apply entityOk_new | apply entityInBounds_new]|]);
    assumption.
Qed.

Lemma storeOk_parseLine (line : string) (st : State) :
  storeOk st -> storeOk (parseLine Number line st).
Proof.
  intro H. unfold parseLine.
  destruct (negb (Str.truthy (Str.trim line))); [exact H|].
  assert (H1 : storeOk (incr_totalLines st)) by exact H.
  destruct (length (fields (Str.trim line)) <? 2)%nat; [exact H|].
  destruct (Number (nth 0 (fields (Str.trim line)) "")) as [ts|]; [|exact H].
  destruct (isNumericType _); [now apply storeOk_parseNumericEvent|].
  destruct (isEffectType _); [now apply storeOk_parseEffectEvent|exact H].
Qed.

Lemma countersOk_parseLine (line : string) (st : State) :
  countersOk st -> countersOk (parseLine Number line st).
Proof.
  unfold countersOk. intro H.
  destruct (string_dec (Str.trim line) EmptyString) as [E|E].
  - now rewrite parseLine_blank.
  - pose proof (parseLine_counters Number line st E) as Hc. simpl in Hc. lia.
Qed.

Lemma storeOk_parseLines (lines : list string) (st : State) :
  storeOk st -> storeOk (parseLines Number lines st).
Proof.
  revert st. induction lines as [|l ls IH]; intros st H; [exact H|].
  rewrite parseLines_cons. apply IH. now apply storeOk_parseLine.
Qed.

Lemma countersOk_parseLines (lines : list string) (st : State) :
  countersOk st -> countersOk (parseLines Number lines st).
Proof.
  revert st. induction lines as [|l ls IH]; intros st H; [exact H|].
  rewrite parseLines_cons. apply IH. now apply countersOk_parseLine.
Qed.

Lemma storeOk_resetState (st : State) : storeOk (resetState st).
Proof. split; constructor. Qed.

Lemma countersOk_resetState (st : State) : countersOk (resetState st).
Proof. reflexivity. Qed.

(** The two filter initialisations of [onload] write the filter only. *)
Lemma onload_filter_only (text : string) (st : State) :
  exists tf,
    onload Number text st
    = set_timeFilter tf (parseLines Number (Str.splitLines text) st).
Proof.
  unfold onload, setupTimeFilterUI, setInitialTimeFilterLast30Minutes.
  set (p := parseLines Number (Str.splitLines text) st).
  destruct (tbMin (timeBounds p)) as [lo|] eqn:E1;
    destruct (tbMax (timeBounds p)) as [hi|] eqn:E2;
    try destruct (epochToLocalInput_throws lo || epochToLocalInput_throws hi);
    simpl; rewrite ?E1, ?E2; try (eexists; reflexivity);
    exists (timeFilter p); destruct p; reflexivity.
Qed.

Lemma storeOk_ingest (text : string) (st : State) :
  storeOk (ingest Number text st).
Proof.
  unfold ingest.
  destruct (onload_filter_only text (resetState st)) as [tf ->].
  apply (storeOk_parseLines _ (resetState st)), storeOk_resetState.
Qed.

Lemma countersOk_ingest (text : string) (st : State) :
  countersOk (ingest Number text st).
Proof.
  unfold ingest.
  destruct (onload_filter_only text (resetState st)) as [tf ->].
  apply (countersOk_parseLines _ (resetState st)), countersOk_resetState.
Qed.

End Invariant.

(** ** Blank lines *)

Module StrFacts.

Lemma trimEnd_empty (s : string) :
  Str.trimEnd s = EmptyString <-> Str.blank s = true.
Proof.
  induction s as [|c s IH]; simpl; [tauto|].
  destruct (Str.trimEnd s) eqn:E.
  - destruct (Str.isWhiteSpace c); simpl.
    + rewrite <- IH. tauto.
    + split; discriminate.
  - split; [discriminate|]. intro H. apply andb_true_iff in H.
    destruct H as [_ H]. apply IH in H. discriminate H.
Qed.

Lemma blank_trimStart (s : string) :
  Str.blank (Str.trimStart s) = Str.blank s.
Proof.
  induction s as [|c s IH]; simpl; [reflexivity|].
  destruct (Str.isWhiteSpace c) eqn:E; simpl; [exact IH|now rewrite E].
Qed.

(** [line.trim()] is empty exactly for a line of white space. *)
Lemma trim_empty (s : string) :
  Str.trim s = EmptyString <-> Str.blank s = true.
Proof. unfold Str.trim. rewrite trimEnd_empty, blank_trimStart. tauto. Qed.

Lemma trim_nonempty (s : string) :
  Str.trim s <> EmptyString <-> Str.blank s = false.
Proof. rewrite trim_empty. destruct (Str.blank s); split; congruence. Qed.

End StrFacts.

(** ** Running totals, skipped lines and counters *)

(** C3.  After the ingestion of any text, from any state, the running
    totals [damageDone], [healingDone] and [damageReceived] of every entity
    are the sums of [amount] over its [damageEvents], [healEvents] and
    [damageTakenEvents].  The totals do not depend on the time filter: the
    filter in force when the log is loaded does not change the result, and
    neither [applyTimeFilterFromInputs] nor [resetTimeFilterToFullRange]
    writes to the entities. *)
Theorem running_totals_match_histories
    (Number : string -> jsnum) (text : string) (st0 : State) :
  let st := ingest Number text st0 in
  (forall k e, In (k, e) (entities st) ->
     damageDone e = sumAmounts (damageEvents e)
     /\ healingDone e = sumAmounts (healEvents e)
     /\ damageReceived e = sumAmounts (damageTakenEvents e))
  /\ (forall tf, ingest Number text (set_timeFilter tf st0) = st)
  /\ (forall startEpoch endEpoch,
        entities (fst (applyTimeFilterFromInputs startEpoch endEpoch st))
        = entities st)
  /\ entities (resetTimeFilterToFullRange st) = entities st.
Proof.
  intro st. split; [|split; [|split]].
  - intros k e Hin.
    destruct (storeOk_ingest Number text st0) as [Hok _].
    rewrite Forall_forall in Hok. specialize (Hok (k, e) Hin).
    destruct Hok as (H1 & H2 & H3 & _). auto.
  - reflexivity.
  - intros s e. unfold applyTimeFilterFromInputs.
    destruct s as [s|], e as [e|]; try reflexivity.
    destruct (_ || _); [reflexivity|].
    destruct (Qltb e s); reflexivity.
  - reflexivity.
Qed.

Lemma running_totals_match_histories_witness :
  healingDone carolEntity = sumAmounts (healEvents carolEntity).
Proof.
  apply (proj1 (running_totals_match_histories Number carolHeals initialState)
           "Carol" carolEntity).
  vm_compute. left. reflexivity.
Defined.

(** C4.  A line that is not blank and is malformed, in that it has fewer
    than two fields, or its timestamp does not convert to a number, or its
    kind is none of the six, or it has fewer fields than its kind needs, or
    its amount does not convert to a number, adds 1 to [totalLines] and to
    [skippedLines] and changes nothing else in the state: [parsedLines],
    the entities and the time bounds are as before.  The lines after it are
    parsed as usual, from that state. *)
Theorem parseLine_malformed_is_skipped
    (Number : string -> jsnum) (line : string) (st : State) :
  Str.blank line = false ->
  let parts := fields (Str.trim line) in
  let type := nth 1 parts "" in
  (length parts < 2)%nat
  \/ Number (nth 0 parts "") = None
  \/ (isNumericType type = false /\ isEffectType type = false)
  \/ (isNumericType type = true /\ (length parts < 8)%nat)
  \/ (isEffectType type = true /\ (length parts < 6)%nat)
  \/ (isNumericType type = true /\ Number (nth 5 parts "") = None) ->
  let st' := parseLine Number line st in
  st' = incr_skippedLines (incr_totalLines st)
  /\ totalLines (globalStats st') = (totalLines (globalStats st) + 1)%nat
  /\ skippedLines (globalStats st') = (skippedLines (globalStats st) + 1)%nat
  /\ parsedLines (globalStats st') = parsedLines (globalStats st)
  /\ entities st' = entities st
  /\ timeBounds st' = timeBounds st
  /\ forall rest,
       parseLines Number (line :: rest) st
       = parseLines Number rest (incr_skippedLines (incr_totalLines st)).
Proof.
  intros Hnb parts type Hbad st'.
  assert (E : st' = incr_skippedLines (incr_totalLines st)).
  { subst st'. unfold parseLine.
    apply StrFacts.trim_nonempty in Hnb.
    destruct (Str.truthy (Str.trim line)) eqn:T;
      [|apply truthy_false in T; contradiction].
    simpl. fold parts. fold type.
    destruct (Nat.ltb_spec (length parts) 2) as [|Hlen]; [reflexivity|].
    destruct (Number (nth 0 parts "")) as [ts|] eqn:Hts; [|reflexivity].
    destruct Hbad as [H|[H|[[H1 H2]|[[H1 H2]|[[H1 H2]|[H1 H2]]]]]].
    - lia.
    - discriminate H.
    - now rewrite H1, H2.
    - rewrite H1. unfold parseNumericEvent.
      destruct (Nat.ltb_spec (length parts) 8); [reflexivity|lia].
    - destruct (isNumericType type) eqn:Hn.
      + unfold isNumericType, isEffectType in *.
        destruct (String.eqb_spec type "BUFF") as [->|];
          [discriminate Hn|].
        destruct (String.eqb_spec type "DEBUFF") as [->|];
          [discriminate Hn|discriminate H1].
      + rewrite H1. unfold parseEffectEvent.
        destruct (Nat.ltb_spec (length parts) 6); [reflexivity|lia].
    - rewrite H1. unfold parseNumericEvent.
      destruct (length parts <? 8)%nat; [reflexivity|].
      now rewrite H2. }
  rewrite E. repeat split.
  intro rest. rewrite parseLines_cons. fold st'. now rewrite E.
Qed.

Lemma parseLine_malformed_is_skipped_witness :
  parseLine Number "abc,DMG,A,B,Skill,10,Pool,Hit" initialState
  = incr_skippedLines (incr_totalLines initialState).
Proof.
  apply (parseLine_malformed_is_skipped Number
           "abc,DMG,A,B,Skill,10,Pool,Hit" initialState eq_refl).
  right. left. reflexivity.
Defined.

(** C9.  After the ingestion of any text, [totalLines] is [parsedLines]
    plus [skippedLines].  A line of white space leaves the state as it is;
    any other line adds 1 to [totalLines] and 1 to exactly one of
    [parsedLines] and [skippedLines]. *)
Theorem counters_add_up (Number : string -> jsnum) :
  (forall text st0,
     let g := globalStats (ingest Number text st0) in
     totalLines g = (parsedLines g + skippedLines g)%nat)
  /\ (forall line st,
        Str.blank line = true -> parseLine Number line st = st)
  /\ (forall line st,
        Str.blank line = false ->
        let g := globalStats st in
        let g' := globalStats (parseLine Number line st) in
        totalLines g' = (totalLines g + 1)%nat
        /\ ((parsedLines g' = (parsedLines g + 1)%nat
             /\ skippedLines g' = skippedLines g)
            \/ (parsedLines g' = parsedLines g
                /\ skippedLines g' = (skippedLines g + 1)%nat))).
Proof.
  split; [|split].
  - intros text st0. apply (countersOk_ingest Number text st0).
  - intros line st H. apply parseLine_blank, StrFacts.trim_empty, H.
  - intros line st H. apply parseLine_counters, StrFacts.trim_nonempty, H.
Qed.

Lemma counters_add_up_witness :
  (let g := globalStats (ingest Number smallLog initialState) in
   totalLines g = (parsedLines g + skippedLines g)%nat)
  /\ parseLine Number "   " boundedState = boundedState.
Proof.
  split.
  - apply (proj1 (counters_add_up Number) smallLog initialState).
  - apply (proj1 (proj2 (counters_add_up Number)) "   " boundedState).
    reflexivity.
Defined.

(** ** Windowed totals *)

Module WindowFacts.

Lemma fold_windowed_mono (tf tf' : TimeFilter) (events : list Ev.t) :
  Forall (fun ev => 0 <= Ev.amount ev) events ->
  (forall t, isInCurrentTimeFrame tf t = true ->
             isInCurrentTimeFrame tf' t = true) ->
  forall acc acc', acc <= acc' ->
    fold_left (fun acc e => if isInCurrentTimeFrame tf (Ev.timestamp e)
                            then acc + Ev.amount e else acc) events acc
    <= fold_left (fun acc e => if isInCurrentTimeFrame tf' (Ev.timestamp e)
                               then acc + Ev.amount e else acc) events acc'.
Proof.
  intros Hpos Hsub. induction Hpos as [|ev events Hev _ IH]; intros acc acc' Hacc.
  - exact Hacc.
  - simpl. apply IH.
    destruct (isInCurrentTimeFrame tf (Ev.timestamp ev)) eqn:E.
    + rewrite (Hsub _ E). lra.
    + destruct (isInCurrentTimeFrame tf' (Ev.timestamp ev)); lra.
Qed.

Lemma windowedSum_mono (tf tf' : TimeFilter) (events : list Ev.t) :
  Forall (fun ev => 0 <= Ev.amount ev) events ->
  (forall t, isInCurrentTimeFrame tf t = true ->
             isInCurrentTimeFrame tf' t = true) ->
  windowedSum tf events <= windowedSum tf' events.
Proof.
  intros Hpos Hsub. unfold windowedSum.
  apply fold_windowed_mono; [assumption|assumption|apply Qle_refl].
Qed.

(** A window within another lets through no timestamp that the other
    stops. *)
Lemma window_widen (s e s' e' t : Q) :
  s' <= s -> e <= e' ->
  isInCurrentTimeFrame (mkTimeFilter true (Some s) (Some e)) t = true ->
  isInCurrentTimeFrame (mkTimeFilter true (Some s') (Some e')) t = true.
Proof.
  intros Hs He. unfold isInCurrentTimeFrame. simpl.
  rewrite !andb_true_iff, !Qle_bool_iff. intros [H1 H2]. split; lra.
Qed.

Lemma Forall2_map_same {A B : Type} (R : B -> B -> Prop) (f g : A -> B)
    (l : list A) :
  Forall (fun x => R (f x) (g x)) l -> Forall2 R (List.map f l) (List.map g l).
Proof. induction 1; simpl; constructor; assumption. Qed.

End WindowFacts.

(** C7.  After the ingestion of any text, replacing the enabled window
    [[s, e]] by a window [[s', e']] with [s' <= s] and [e <= e'] decreases
    none of the three windowed totals of any entity: the rows that
    [buildAggregatedEntitiesForCurrentTimeFrame] builds with the two
    windows are for the same entities, in the same order, and each total of
    the wider window is at least that of the narrower one. *)
Theorem widening_window_never_decreases
    (Number : string -> jsnum) (text : string) (st0 : State) (s e s' e' : Q) :
  s' <= s -> e <= e' ->
  let st := ingest Number text st0 in
  let narrow := set_timeFilter (mkTimeFilter true (Some s) (Some e)) st in
  let wide := set_timeFilter (mkTimeFilter true (Some s') (Some e')) st in
  Forall2
    (fun r r' =>
       AggRow.name r = AggRow.name r'
       /\ AggRow.damageDone r <= AggRow.damageDone r'
       /\ AggRow.healingDone r <= AggRow.healingDone r'
       /\ AggRow.damageReceived r <= AggRow.damageReceived r')
    (buildAggregatedEntitiesForCurrentTimeFrame narrow)
    (buildAggregatedEntitiesForCurrentTimeFrame wide).
Proof.
  intros Hs He st narrow wide.
  unfold buildAggregatedEntitiesForCurrentTimeFrame. simpl.
  apply WindowFacts.Forall2_map_same.
  destruct (storeOk_ingest Number text st0) as [Hok _]. fold st in Hok.
  unfold EMap.values. rewrite Forall_map.
  eapply Forall_impl; [|exact Hok].
  intros [k ent] (_ & _ & _ & H4 & H5 & H6). simpl in *.
  split; [reflexivity|].
  repeat split; apply WindowFacts.windowedSum_mono; auto;
    intro t; apply WindowFacts.window_widen; assumption.
Qed.

Lemma widening_window_never_decreases_witness :
  let st := ingest Number smallLog initialState in
  Forall2
    (fun r r' =>
       AggRow.name r = AggRow.name r'
       /\ AggRow.damageDone r <= AggRow.damageDone r'
       /\ AggRow.healingDone r <= AggRow.healingDone r'
       /\ AggRow.damageReceived r <= AggRow.damageReceived r')
    (buildAggregatedEntitiesForCurrentTimeFrame
       (set_timeFilter (mkTimeFilter true (Some 150) (Some 200)) st))
    (buildAggregatedEntitiesForCurrentTimeFrame
       (set_timeFilter (mkTimeFilter true (Some 100) (Some 4000)) st)).
Proof.
  apply (widening_window_never_decreases Number smallLog initialState
           150 200 100 4000); unfold Qle; simpl; lia.
Defined.

(** ** Ranking tables *)

Module TableFacts.

Lemma fold_left_sumQ {A : Type} (f : A -> Q) (l : list A) (acc : Q) :
  fold_left (fun sum x => sum + f x) l acc == acc + sumQ (List.map f l).
Proof.
  revert acc. induction l as [|x l IH]; intro acc; simpl; [lra|].
  rewrite IH. lra.
Qed.

Lemma sort_insert_perm {A : Type} (cmp : A -> A -> Q) (x : A) (l : list A) :
  Permutation (sort_insert cmp x l) (x :: l).
Proof.
  induction l as [|y l IH]; simpl; [reflexivity|].
  destruct (Qle_bool (cmp x y) 0); [reflexivity|].
  rewrite IH. apply perm_swap.
Qed.

(** The sort rearranges the rows and drops or adds none. *)
Lemma sort_perm {A : Type} (cmp : A -> A -> Q) (l : list A) :
  Permutation (sort cmp l) l.
Proof.
  induction l as [|x l IH]; simpl; [reflexivity|].
  rewrite sort_insert_perm. now constructor.
Qed.


Lemma tableRows_values (valueField : string) (includePercent : bool) (total : Q)
    (index : nat) (rows : list AggRow.t) :
  List.map value (tableRows valueField includePercent total index rows)
  = List.map (AggRow.num valueField) rows.
Proof.
  revert index. induction rows as [|row rows IH]; intro index; simpl;
    [reflexivity|]. now rewrite IH.
Qed.



Lemma tableValues_render (rows : list AggRow.t) (valueField : string)
    (includePercent : bool) :
  tableValues (renderEntityTable rows valueField includePercent)
  = List.map (AggRow.num valueField) (filteredRows rows valueField).
Proof.
  unfold renderEntityTable.
  destruct (filteredRows rows valueField) as [|row l]; [reflexivity|].
  unfold tableValues. apply tableRows_values.
Qed.

End TableFacts.

Module UnfilteredFacts.

Lemma fold_windowed_all (tf : TimeFilter) (events : list Ev.t) (acc : Q) :
  Forall (fun ev => isInCurrentTimeFrame tf (Ev.timestamp ev) = true) events ->
  fold_left (fun acc e => if isInCurrentTimeFrame tf (Ev.timestamp e)
                          then acc + Ev.amount e else acc) events acc
  = fold_left (fun acc e => acc + Ev.amount e) events acc.
Proof.
  intro H. revert acc. induction H as [|ev events Hev _ IH]; intro acc; simpl;
    [reflexivity|]. rewrite Hev. apply IH.
Qed.

(** When every event of a history passes the filter, its windowed sum is
    its sum. *)
Lemma windowedSum_all (tf : TimeFilter) (events : list Ev.t) :
  Forall (fun ev => isInCurrentTimeFrame tf (Ev.timestamp ev) = true) events ->
  windowedSum tf events = sumAmounts events.
Proof. apply fold_windowed_all. Qed.

Lemma unfiltered_passes (st : State) (t : Q) :
  unfiltered st -> inBounds (timeBounds st) t ->
  isInCurrentTimeFrame (timeFilter st) t = true.
Proof.
  intros Hu (lo & hi & Hlo & Hhi & H1 & H2). unfold isInCurrentTimeFrame.
  destruct (tfEnabled (timeFilter st)) eqn:E; [|reflexivity]. simpl.
  destruct Hu as [Hu|[Hs He]]; [congruence|].
  rewrite Hs, He, Hlo, Hhi. simpl.
  apply andb_true_iff. split; now apply Qle_bool_iff.
Qed.

Lemma aggregateEntity_unfiltered (st : State) (e : Entity) :
  unfiltered st -> entityOk e -> entityInBounds (timeBounds st) e ->
  aggregateEntity (timeFilter st) e
  = AggRow.mk (name e) (damageDone e) (healingDone e) (damageReceived e).
Proof.
  intros Hu (H1 & H2 & H3 & _) (B1 & B2 & B3). unfold aggregateEntity.
  rewrite !windowedSum_all, <- H1, <- H2, <- H3; [reflexivity| | |];
    (eapply Forall_impl; [|eassumption]); intros ev Hev;
    now apply unfiltered_passes.
Qed.

Lemma fold_windowed_nonneg (tf : TimeFilter) (events : list Ev.t) (acc : Q) :
  Forall (fun ev => 0 <= Ev.amount ev) events -> 0 <= acc ->
  0 <= fold_left (fun acc e => if isInCurrentTimeFrame tf (Ev.timestamp e)
                               then acc + Ev.amount e else acc) events acc.
Proof.
  intro H. revert acc. induction H as [|ev events Hev _ IH]; intros acc Hacc;
    simpl; [exact Hacc|].
  apply IH. destruct (isInCurrentTimeFrame tf (Ev.timestamp ev)); lra.
Qed.

Lemma windowedSum_nonneg (tf : TimeFilter) (events : list Ev.t) :
  Forall (fun ev => 0 <= Ev.amount ev) events -> 0 <= windowedSum tf events.
Proof. intro H. apply fold_windowed_nonneg; [exact H|lra]. Qed.

End UnfilteredFacts.

(** *** The ranking over any arithmetic *)

Module RankingFacts.

Lemma sort_insert_exact {X : Type} (cmp : X -> X -> Q) (x : X) (l : list X) :
  Ranking.sort_insert Arith.exact cmp x l = sort_insert cmp x l.
Proof.
  induction l as [|y l IH]; simpl; [reflexivity|].
  unfold Qltb. destruct (Qle_bool (cmp x y) 0); simpl; [reflexivity|].
  now rewrite IH.
Qed.

Lemma sort_exact {X : Type} (cmp : X -> X -> Q) (l : list X) :
  Ranking.sort Arith.exact cmp l = sort cmp l.
Proof.
  unfold Ranking.sort, sort.
  induction l as [|x l IH]; simpl; [reflexivity|].
  rewrite IH. apply sort_insert_exact.
Qed.

Lemma sort_insert_map {X Y : Type} (f : X -> Y) (cmp : Y -> Y -> Q)
    (x : X) (l : list X) :
  List.map f (sort_insert (fun a b => cmp (f a) (f b)) x l)
  = sort_insert cmp (f x) (List.map f l).
Proof.
  induction l as [|y l IH]; simpl; [reflexivity|].
  destruct (Qle_bool (cmp (f x) (f y)) 0); simpl; [reflexivity|].
  now rewrite IH.
Qed.

Lemma sort_map {X Y : Type} (f : X -> Y) (cmp : Y -> Y -> Q) (l : list X) :
  List.map f (sort (fun a b => cmp (f a) (f b)) l) = sort cmp (List.map f l).
Proof.
  unfold sort.
  induction l as [|x l IH]; simpl; [reflexivity|].
  rewrite <- IH. apply sort_insert_map.
Qed.

Lemma fold_left_map {X Y Z : Type} (f : Z -> Y -> Z) (g : X -> Y)
    (l : list X) (z : Z) :
  fold_left f (List.map g l) z = fold_left (fun acc x => f acc (g x)) l z.
Proof. revert z. induction l as [|x l IH]; intro z; simpl; auto. Qed.

Lemma fold_left_ext {X Z : Type} (f g : Z -> X -> Z) (l : list X) (z : Z) :
  (forall acc x, f acc x = g acc x) -> fold_left f l z = fold_left g l z.
Proof.
  intro H. revert z. induction l as [|x l IH]; intro z; simpl; [reflexivity|].
  now rewrite H, IH.
Qed.


Section Field.

Variables (valueField : string) (proj : AggRow.t -> Q).
Hypothesis get_proj : forall row, AggRow.get valueField row = Some (proj row).

Lemma num_proj (row : AggRow.t) : AggRow.num valueField row = proj row.
Proof. unfold AggRow.num. now rewrite get_proj. Qed.

Lemma filteredRows_proj (rows : list AggRow.t) :
  filteredRows rows valueField = filter (fun row => Qltb 0 (proj row)) rows.
Proof.
  unfold filteredRows. apply filter_ext. intro row. now rewrite get_proj.
Qed.

Lemma filteredRows_exact (rows : list AggRow.t) :
  Ranking.filteredRows Arith.exact
    (List.map (fun row => (AggRow.name row, proj row)) rows)
  = List.map (fun row => (AggRow.name row, proj row))
      (filteredRows rows valueField).
Proof.
  unfold Ranking.filteredRows. rewrite filter_map_swap, filteredRows_proj.
  reflexivity.
Qed.

Lemma tableRows_exact (includePercent : bool) (total : Q) (index : nat)
    (rows : list AggRow.t) :
  Ranking.tableRows Arith.exact includePercent total index
    (List.map (fun row => (AggRow.name row, proj row)) rows)
  = List.map Ranking.ofTableRow
      (tableRows valueField includePercent total index rows).
Proof.
  revert index. induction rows as [|row rows IH]; intro index; simpl;
    [reflexivity|].
  rewrite IH, num_proj. reflexivity.
Qed.

(** [renderEntityTable] over the rationals is that of the model. *)
Lemma renderEntityTable_exact (rows : list AggRow.t) (includePercent : bool) :
  Ranking.renderEntityTable Arith.exact
    (List.map (fun row => (AggRow.name row, proj row)) rows) includePercent
  = option_map (List.map Ranking.ofTableRow)
      (renderEntityTable rows valueField includePercent).
Proof.
  unfold Ranking.renderEntityTable, renderEntityTable.
  rewrite filteredRows_exact.
  destruct (filteredRows rows valueField) as [|row l]; [reflexivity|].
  cbn [List.map option_map].
  change ((AggRow.name row, proj row)
          :: List.map (fun row => (AggRow.name row, proj row)) l)
    with (List.map (fun row => (AggRow.name row, proj row)) (row :: l)).
  f_equal. rewrite tableRows_exact. f_equal. f_equal.
  unfold Ranking.total. rewrite fold_left_map.
  apply fold_left_ext. intros acc row'. simpl. now rewrite num_proj.
Qed.

(** The table of a metric over the rationals is that of the model. *)
Lemma table_exact (aggregated : list AggRow.t) (includePercent : bool) :
  Ranking.table Arith.exact
    (List.map (fun row => (AggRow.name row, proj row)) aggregated) includePercent
  = option_map (List.map Ranking.ofTableRow)
      (renderEntityTable (sort (fun a b => proj b - proj a) aggregated)
         valueField includePercent).
Proof.
  unfold Ranking.table. rewrite sort_exact. simpl Arith.sub.
  rewrite <- (sort_map (fun row => (AggRow.name row, proj row))
                (fun a b => snd b - snd a)).
  apply renderEntityTable_exact.
Qed.

(** The names and the values of a table are those of the rows that are
    kept, in their order. *)
Lemma tableCells_render (rows : list AggRow.t) (includePercent : bool) :
  tableCells (renderEntityTable rows valueField includePercent)
  = positiveCells (List.map (fun row => (AggRow.name row, proj row)) rows).
Proof.
  unfold positiveCells. rewrite filter_map_swap. simpl.
  rewrite <- filteredRows_proj. unfold renderEntityTable.
  destruct (filteredRows rows valueField) as [|row l] eqn:E; [reflexivity|].
  rewrite <- E. clear E row l. simpl.
  generalize (fold_left (fun sum row => sum + AggRow.num valueField row)
                (filteredRows rows valueField) 0) as total.
  generalize 0%nat as index.
  induction (filteredRows rows valueField) as [|row l IH];
    intros index total; simpl; [reflexivity|].
  now rewrite IH, num_proj.
Qed.


End Field.

End RankingFacts.

(** The three tables of [renderTables] are the tables of the three metrics
    over the rationals. *)
Lemma renderTables_exact (st : State) :
  let aggregated := buildAggregatedEntitiesForCurrentTimeFrame st in
  let over (proj : AggRow.t -> Q) (includePercent : bool) :=
    Ranking.table Arith.exact
      (List.map (fun row => (AggRow.name row, proj row)) aggregated)
      includePercent in
  let '(dd, hd, dr) := renderTables st in
  over AggRow.damageDone true = option_map (List.map Ranking.ofTableRow) dd
  /\ over AggRow.healingDone true = option_map (List.map Ranking.ofTableRow) hd
  /\ over AggRow.damageReceived false
     = option_map (List.map Ranking.ofTableRow) dr.
Proof.
  unfold renderTables, byDamageDone, byHealingDone, byDamageReceived.
  repeat split; apply RankingFacts.table_exact; reflexivity.
Qed.



(** *** The tables in binary64 *)

(** The rows of the damage done after [threeHits] and after
    [threeAmounts], in the order of the map. *)
Example threeHits_rows :
  List.map (fun row => (AggRow.name row, AggRow.damageDone row))
    (buildAggregatedEntitiesForCurrentTimeFrame
       (ingest Number threeHits initialState))
  = [("A", 1); ("X", 0); ("B", 1); ("C", 1)].
Proof. vm_compute. reflexivity. Qed.

Example threeAmounts_rows :
  List.map (fun row => (AggRow.name row, AggRow.damageDone row))
    (buildAggregatedEntitiesForCurrentTimeFrame
       (ingest Number threeAmounts initialState))
  = [("A", 1 # 10); ("X", 0); ("B", 1 # 5); ("C", 3 # 10)].
Proof. vm_compute. reflexivity. Qed.

Module Binary64Facts.

Import PrimFloat.


End Binary64Facts.

(** ** HEAL records *)

(** C8.  A line that is parsed as a HEAL record appends one event to the
    [healEvents] of the source and adds the amount to its [healingDone];
    nothing else of the source changes.  The target, when it is not the
    source, is the object it was (the new, empty one when the name is seen
    for the first time), and every other entity is as before.  After the
    two records of Carol, healing herself for 30 and Dave for 20, the
    [healingDone] of Carol is 50 and the [healEvents] of Dave are empty. *)
Theorem heal_line_writes_source_only :
  (forall (conv : string -> jsnum) (line : string) (st : State)
          (tsS src tgt skill amtS pool hit : string) (rest : list string)
          (ts a : Q),
     fields (Str.trim line)
     = tsS :: "HEAL" :: src :: tgt :: skill :: amtS :: pool :: hit :: rest ->
     conv tsS = Some ts ->
     conv amtS = Some a ->
     let m := entities st in
     let m' := entities (parseLine conv line st) in
     let es := entityOf src m in
     (exists es',
        EMap.get src m' = Some es'
        /\ healEvents es'
           = (healEvents es
              ++ [Ev.mk ts "HEAL" None (Some tgt) skill (Qabs a) pool hit])%list
        /\ healingDone es' = healingDone es + Qabs a
        /\ name es' = name es
        /\ damageDone es' = damageDone es
        /\ damageReceived es' = damageReceived es
        /\ damageEvents es' = damageEvents es
        /\ damageTakenEvents es' = damageTakenEvents es
        /\ buffsApplied es' = buffsApplied es
        /\ debuffsApplied es' = debuffsApplied es
        /\ buffsReceived es' = buffsReceived es
        /\ debuffsReceived es' = debuffsReceived es)
     /\ (tgt <> src -> EMap.get tgt m' = Some (entityOf tgt m))
     /\ (forall k, k <> src -> k <> tgt -> EMap.get k m' = EMap.get k m))
  /\ (let st := ingest Number carolHeals initialState in
      option_map healingDone (EMap.get "Carol" (entities st)) = Some 50
      /\ option_map healEvents (EMap.get "Dave" (entities st)) = Some []
      /\ buildAggregatedEntitiesForCurrentTimeFrame (resetTimeFilterToFullRange st)
         = [AggRow.mk "Carol" 0 50 0; AggRow.mk "Dave" 0 0 0]).
Proof.
  split.
  - intros conv line st tsS src tgt skill amtS pool hit rest ts a Hf Hts Ha m m' es.
    subst m m' es.
    rewrite (parseLine_numeric conv line st _ _ _ _ _ _ _ _ _ ts a Hf Hts Ha)
      by reflexivity.
    simpl entities.
    pose proof (NumericWritesFacts.get_numericWrites_heal ts
                  (fields (Str.trim line)) a (entities st)) as G.
    rewrite Hf in G. simpl in G. rewrite Hf.
    split; [|split].
    + rewrite (G src), String.eqb_refl. simpl.
      eexists. repeat split; reflexivity.
    + intro Hne. rewrite (G tgt), String.eqb_refl, orb_true_r.
      destruct (String.eqb_spec src tgt) as [E|_];
        [symmetry in E; contradiction|reflexivity].
    + intros k Hs Ht. rewrite (G k).
      destruct (String.eqb_spec src k) as [E|_]; [symmetry in E; contradiction|].
      destruct (String.eqb_spec tgt k) as [E|_]; [symmetry in E; contradiction|].
      reflexivity.
  - vm_compute. repeat split; reflexivity.
Qed.

Lemma heal_line_writes_source_only_witness :
  EMap.get "Dave"
    (entities (parseLine Number "20,HEAL,Carol,Dave,Regen,20,Health,Normal"
                 initialState))
  = Some (newEntity "Dave").
Proof.
  apply (proj1 (proj2 (proj1 heal_line_writes_source_only
                         Number "20,HEAL,Carol,Dave,Regen,20,Health,Normal"
                         initialState "20" "Carol" "Dave" "Regen" "20"
                         "Health" "Normal" [] 20 20
                         eq_refl eq_refl eq_refl))).
  discriminate.
Defined.

(** ** Empty numeric fields *)

(** C10.  The conversion of a field of white space is 0, so that a numeric
    record whose timestamp field is empty is parsed at timestamp 0, which
    the time bounds then include, and a numeric record whose amount field
    is empty is parsed with amount 0; neither is skipped.  The lines
    [,DMG,A,B,S,10,P,H] and [5,DMG,A,B,S,,P,H] are parsed that way. *)
Theorem empty_numeric_field_is_zero :
  (forall w, Str.blank w = true -> Str.trim w = "" /\ Number w = Some 0)
  /\ (forall (line : string) (st : State)
             (type src tgt skill amtS pool hit : string) (rest : list string)
             (a : Q),
        fields (Str.trim line)
        = "" :: type :: src :: tgt :: skill :: amtS :: pool :: hit :: rest ->
        isNumericType type = true ->
        Number amtS = Some a ->
        let st' := parseLine Number line st in
        st' = set_entities
                (numericWrites 0 type (fields (Str.trim line)) a (entities st))
                (counted 0 type (incr_totalLines st))
        /\ parsedLines (globalStats st') = (parsedLines (globalStats st) + 1)%nat
        /\ skippedLines (globalStats st') = skippedLines (globalStats st)
        /\ inBounds (timeBounds st') 0)
  /\ (forall (line : string) (st : State)
             (tsS type src tgt skill pool hit : string) (rest : list string)
             (ts : Q),
        fields (Str.trim line)
        = tsS :: type :: src :: tgt :: skill :: "" :: pool :: hit :: rest ->
        isNumericType type = true ->
        Number tsS = Some ts ->
        let st' := parseLine Number line st in
        st' = set_entities
                (numericWrites ts type (fields (Str.trim line)) 0 (entities st))
                (counted ts type (incr_totalLines st))
        /\ parsedLines (globalStats st') = (parsedLines (globalStats st) + 1)%nat
        /\ skippedLines (globalStats st') = skippedLines (globalStats st))
  /\ (let st' := parseLine Number ",DMG,A,B,S,10,P,H" initialState in
      parsedLines (globalStats st') = 1%nat
      /\ skippedLines (globalStats st') = 0%nat
      /\ timeBounds st' = mkTimeBounds (Some 0) (Some 0)
      /\ option_map damageEvents (EMap.get "A" (entities st'))
         = Some [Ev.mk 0 "DMG" None (Some "B") "S" 10 "P" "H"])
  /\ (let st' := parseLine Number "5,DMG,A,B,S,,P,H" initialState in
      parsedLines (globalStats st') = 1%nat
      /\ skippedLines (globalStats st') = 0%nat
      /\ option_map damageEvents (EMap.get "A" (entities st'))
         = Some [Ev.mk 5 "DMG" None (Some "B") "S" 0 "P" "H"]
      /\ option_map damageDone (EMap.get "A" (entities st')) = Some 0).
Proof.
  split; [|split; [|split; [|split]]].
  - intros w Hw. apply StrFacts.trim_empty in Hw. split; [exact Hw|].
    unfold Number, NumberLiteral.StringToNumber. now rewrite Hw.
  - intros line st type src tgt skill amtS pool hit rest a Hf Hty Ha st'.
    assert (E : st' = set_entities
                        (numericWrites 0 type (fields (Str.trim line)) a (entities st))
                        (counted 0 type (incr_totalLines st)))
      by (apply (parseLine_numeric Number line st _ _ _ _ _ _ _ _ _ 0 a Hf);
          [reflexivity|exact Ha|exact Hty]).
    rewrite E. repeat split.
    apply (StoreFacts.inBounds_update_self 0).
  - intros line st tsS type src tgt skill pool hit rest ts Hf Hty Hts st'.
    assert (E : st' = set_entities
                        (numericWrites ts type (fields (Str.trim line)) 0 (entities st))
                        (counted ts type (incr_totalLines st)))
      by (apply (parseLine_numeric Number line st _ _ _ _ _ _ _ _ _ ts 0 Hf);
          [exact Hts|reflexivity|exact Hty]).
    rewrite E. repeat split.
  - vm_compute. repeat split; reflexivity.
  - vm_compute. repeat split; reflexivity.
Qed.

Lemma empty_numeric_field_is_zero_witness :
  inBounds
    (timeBounds (parseLine Number "  ,DOT,A,B,S,10,P,H" initialState)) 0.
Proof.
  apply (proj1 (proj2 empty_numeric_field_is_zero)
           "  ,DOT,A,B,S,10,P,H" initialState "DOT" "A" "B" "S" "10" "P" "H" [] 10
           eq_refl eq_refl eq_refl).
Defined.

(** ** The scenarios of the specification, evaluated *)

(** Scenario A: one DMG record of raw amount -50. *)
Example scenario_A :
  let st := resetTimeFilterToFullRange
              (ingest Number "100,DMG,Alice,Bob,Fireball,-50,Magic,Crit"
                 initialState) in
  ByType.get "DMG" (byType (globalStats st)) = Some 1%nat
  /\ buildAggregatedEntitiesForCurrentTimeFrame st
     = [AggRow.mk "Alice" 50 0 0; AggRow.mk "Bob" 0 0 50].
Proof. vm_compute. split; reflexivity. Qed.

(** Scenario C: a log from 0 to 7200 starts with the window of its last
    1800 seconds. *)
Example scenario_C :
  timeFilter
    (ingest Number ("0,BUFF,A,B,Shield,1" ++ String Str.LF "7200,DEBUFF,B,A,Slow,x")
       initialState)
  = mkTimeFilter true (Some 5400) (Some 7200).
Proof. vm_compute. reflexivity. Qed.

(** Scenario D: a timestamp that is not a number. *)
Example scenario_D :
  globalStats (parseLine Number "abc,DMG,A,B,Skill,10,Pool,Hit" initialState)
  = mkGlobalStats 1 0 1 ByType.init.
Proof. vm_compute. reflexivity. Qed.

(** Scenario E: an inverted window on a log with bounds 0 and 1000. *)
Example scenario_E :
  applyTimeFilterFromInputs (Some 500) (Some 100) boundedState
  = (boundedState, Some "Start time must be before end time.").
Proof. vm_compute. reflexivity. Qed.

(** The ranking by damage received keeps the order of the map between two
    entities of equal value, and leaves out the entity that received
    none. *)
Example ranking_is_stable :
  let st := resetTimeFilterToFullRange
              (ingest Number
                 ("1,DMG,Alice,Bob,Hit,50,Health,Normal"
                  ++ String Str.LF "2,DMG,Bob,Alice,Hit,50,Health,Normal"
                  ++ String Str.LF "3,HEAL,Cat,Cat,Mend,5,Health,Normal")
                 initialState) in
  snd (renderTables st)
  = Some [mkTableRow 1 "Alice" 50 None; mkTableRow 2 "Bob" 50 None].
Proof. vm_compute. reflexivity. Qed.

(** * Further properties of the code *)

(** ** Parsing: the four outcomes of a line *)

Section Outcomes.

Variable Number : string -> jsnum.

Lemma parseEffectEvent_parsed (ts : Q) (type : string) (parts : list string)
    (st : State) :
  (6 <= length parts)%nat ->
  parseEffectEvent Number ts type parts st
  = set_entities
      (effectWrites ts type parts (Number (nth 5 parts "")) (entities st))
      (counted ts type st).
Proof.
  intro Hlen. unfold parseEffectEvent.
  destruct (Nat.ltb_spec (length parts) 6) as [Hlt|_]; [lia|].
  fold (counted ts type st).
  change (entities (counted ts type st)) with (entities st).
  rewrite (WriteFacts.getEntity_pair (nth 2 parts "") (entities st)).
  rewrite (WriteFacts.getEntity_pair (nth 3 parts "")
             (snd (getEntity (nth 2 parts "") (entities st)))).
  unfold effectWrites. destruct (String.eqb type "BUFF"); reflexivity.
Qed.

(** A line is blank, or skipped, or parsed as a numeric record, or parsed
    as an effect record. *)
Lemma parseLine_outcome (line : string) (st : State) :
  let parts := fields (Str.trim line) in
  let type := nth 1 parts "" in
  (Str.blank line = true /\ parseLine Number line st = st)
  \/ (Str.blank line = false
      /\ parseLine Number line st = incr_skippedLines (incr_totalLines st))
  \/ (exists ts a,
        Str.blank line = false /\ isNumericType type = true
        /\ (8 <= length parts)%nat
        /\ Number (nth 0 parts "") = Some ts
        /\ Number (nth 5 parts "") = Some a
        /\ parseLine Number line st
           = set_entities (numericWrites ts type parts a (entities st))
               (counted ts type (incr_totalLines st)))
  \/ (exists ts,
        Str.blank line = false /\ isEffectType type = true
        /\ (6 <= length parts)%nat
        /\ Number (nth 0 parts "") = Some ts
        /\ parseLine Number line st
           = set_entities
               (effectWrites ts type parts (Number (nth 5 parts "")) (entities st))
               (counted ts type (incr_totalLines st))).
Proof.
  intros parts type.
  destruct (Str.blank line) eqn:Hb.
  - left. split; [reflexivity|]. now apply parseLine_blank, StrFacts.trim_empty.
  - right. pose proof Hb as Hne. apply StrFacts.trim_nonempty in Hne.
    unfold parseLine.
    destruct (Str.truthy (Str.trim line)) eqn:T;
      [|apply truthy_false in T; contradiction].
    simpl. fold parts. fold type.
    destruct (Nat.ltb_spec (length parts) 2) as [|H2]; [now left|].
    destruct (Number (nth 0 parts "")) as [ts|] eqn:Hts; [|now left].
    destruct (isNumericType type) eqn:Hn.
    + destruct (Nat.ltb_spec (length parts) 8) as [Hlt|H8].
      * left. split; [reflexivity|]. unfold parseNumericEvent.
        destruct (Nat.ltb_spec (length parts) 8); [reflexivity|lia].
      * destruct (Number (nth 5 parts "")) as [a|] eqn:Ha.
        -- right. left. exists ts, a. repeat split; auto.
           exact (parseNumericEvent_parsed Number ts type parts a
                    (incr_totalLines st) H8 Ha).
        -- left. split; [reflexivity|]. unfold parseNumericEvent.
           destruct (Nat.ltb_spec (length parts) 8); [lia|]. now rewrite Ha.
    + destruct (isEffectType type) eqn:He; [|now left].
      destruct (Nat.ltb_spec (length parts) 6) as [Hlt|H6].
      * left. split; [reflexivity|]. unfold parseEffectEvent.
        destruct (Nat.ltb_spec (length parts) 6); [reflexivity|lia].
      * right. right. exists ts. repeat split; auto.
        exact (parseEffectEvent_parsed ts type parts (incr_totalLines st) H6).
Qed.

End Outcomes.

(** ** Invariants of an ingestion *)

Section IngestInvariants.

Variable Number : string -> jsnum.

(** A property of the state that every outcome of a line preserves is
    preserved by [parseLines]. *)
Lemma parseLines_inv (I : State -> Prop) :
  (forall st, I st -> I (incr_skippedLines (incr_totalLines st))) ->
  (forall st ts type parts a,
     I st -> isNumericType type = true ->
     I (set_entities (numericWrites ts type parts a (entities st))
          (counted ts type (incr_totalLines st)))) ->
  (forall st ts type parts effectId,
     I st -> isEffectType type = true ->
     I (set_entities (effectWrites ts type parts effectId (entities st))
          (counted ts type (incr_totalLines st)))) ->
  forall lines st, I st -> I (parseLines Number lines st).
Proof.
  intros Hskip Hnum Heff.
  assert (Hline : forall line st, I st -> I (parseLine Number line st)).
  { intros line st Hst.
    destruct (parseLine_outcome Number line st)
      as [[_ ->]|[[_ ->]|[(ts & a & _ & Hty & _ & _ & _ & ->)
                         |(ts & _ & Hty & _ & _ & ->)]]]; auto. }
  induction lines as [|l ls IH]; intros st Hst; [exact Hst|].
  rewrite parseLines_cons. apply IH, Hline, Hst.
Qed.

(** If moreover the reset establishes the property and the filter does
    not matter to it, it holds after an ingestion. *)
Lemma ingest_inv (I : State -> Prop) :
  (forall st, I (resetState st)) ->
  (forall st, I st -> I (incr_skippedLines (incr_totalLines st))) ->
  (forall st ts type parts a,
     I st -> isNumericType type = true ->
     I (set_entities (numericWrites ts type parts a (entities st))
          (counted ts type (incr_totalLines st)))) ->
  (forall st ts type parts effectId,
     I st -> isEffectType type = true ->
     I (set_entities (effectWrites ts type parts effectId (entities st))
          (counted ts type (incr_totalLines st)))) ->
  (forall tf st, I st -> I (set_timeFilter tf st)) ->
  forall text st0, I (ingest Number text st0).
Proof.
  intros Hreset Hskip Hnum Heff Hfilter text st0. unfold ingest.
  destruct (onload_filter_only Number text (resetState st0)) as [tf ->].
  apply Hfilter, (parseLines_inv I Hskip Hnum Heff), Hreset.
Qed.

Lemma byTypeTotal_set (k : string) (v : nat) (m : ByType.t) :
  (byTypeTotal (ByType.set k v m) + orZeroNat (ByType.get k m)
   = byTypeTotal m + v)%nat.
Proof.
  unfold byTypeTotal. induction m as [|[k0 v0] m IH]; simpl; [lia|].
  destruct (String.eqb k0 k); simpl; lia.
Qed.

Lemma byTypeTotal_incr (k : string) (m : ByType.t) :
  byTypeTotal (ByType.incr k m) = (byTypeTotal m + 1)%nat.
Proof.
  unfold ByType.incr.
  pose proof (byTypeTotal_set k
                (match ByType.get k m with Some v => v | None => 0 end + 1) m) as H.
  unfold orZeroNat in H. lia.
Qed.

Lemma byTypeTotal_zeroed (m : ByType.t) :
  byTypeTotal (List.map (fun kv => (fst kv, 0%nat)) m) = 0%nat.
Proof. unfold byTypeTotal. induction m as [|kv m IH]; simpl; auto. Qed.

End IngestInvariants.

Section BoundsInvariant.

Variable Number : string -> jsnum.

Lemma boundsOk_counted (ts : Q) (type : string) (st : State) (m : EMap.t) :
  boundsOk st ->
  boundsOk (set_entities m (counted ts type (incr_totalLines st))).
Proof.
  unfold boundsOk. simpl.
  destruct (tbMin (timeBounds st)) as [lo|], (tbMax (timeBounds st)) as [hi|];
    try contradiction.
  - intros [Hle _].
    destruct (Qltb ts lo) eqn:E1, (Qltb hi ts) eqn:E2;
      rewrite ?Qltb_lt, ?Qltb_ge in *; split; try lia; lra.
  - intros _. split; [lra|lia].
Qed.

Lemma boundsOk_parseLines (lines : list string) (st : State) :
  boundsOk st -> boundsOk (parseLines Number lines st).
Proof.
  apply (parseLines_inv Number boundsOk).
  - intros s H. exact H.
  - intros s ts type parts a H _. now apply boundsOk_counted.
  - intros s ts type parts effectId H _. now apply boundsOk_counted.
Qed.

Lemma timeFilter_parseLines (lines : list string) (st : State) :
  timeFilter (parseLines Number lines st) = timeFilter st.
Proof.
  apply (parseLines_inv Number (fun s => timeFilter s = timeFilter st));
    auto.
Qed.

End BoundsInvariant.

(** X1.  After an ingestion the counts of [globalStats.byType] add up to
    [parsedLines]: every parsed record is counted under one kind, and
    nothing else is. *)
Theorem byType_counts_add_up_to_parsedLines
    (Number : string -> jsnum) (text : string) (st0 : State) :
  let g := globalStats (ingest Number text st0) in
  byTypeTotal (byType g) = parsedLines g.
Proof.
  apply (ingest_inv Number
           (fun st => byTypeTotal (byType (globalStats st))
                      = parsedLines (globalStats st))).
  - intro st. simpl. apply byTypeTotal_zeroed.
  - intros st H. exact H.
  - intros st ts type parts a H _. simpl. rewrite byTypeTotal_incr. lia.
  - intros st ts type parts effectId H _. simpl. rewrite byTypeTotal_incr. lia.
  - intros tf st H. exact H.
Qed.

(** X2.  After an ingestion either nothing was parsed and both time
    bounds are [null], or something was parsed and the bounds are two
    numbers with [min <= max].  A line never narrows the bounds: a
    timestamp within them before the line is within them after it. *)
Theorem timeBounds_valid_and_widening (Number : string -> jsnum) :
  (forall text st0,
     let st := ingest Number text st0 in
     (parsedLines (globalStats st) = 0%nat
      /\ tbMin (timeBounds st) = None /\ tbMax (timeBounds st) = None)
     \/ ((0 < parsedLines (globalStats st))%nat
         /\ exists lo hi,
              tbMin (timeBounds st) = Some lo /\ tbMax (timeBounds st) = Some hi
              /\ lo <= hi))
  /\ (forall line st x,
        inBounds (timeBounds st) x ->
        inBounds (timeBounds (parseLine Number line st)) x).
Proof.
  split.
  - intros text st0 st.
    assert (H : boundsOk st).
    { apply (ingest_inv Number boundsOk).
      - intro s. reflexivity.
      - intros s H. exact H.
      - intros s ts type parts a H _. now apply boundsOk_counted.
      - intros s ts type parts effectId H _. now apply boundsOk_counted.
      - intros tf s H. exact H. }
    unfold boundsOk in H.
    destruct (tbMin (timeBounds st)) as [lo|], (tbMax (timeBounds st)) as [hi|];
      try contradiction.
    + right. destruct H as [H1 H2]. split; [exact H2|]. exists lo, hi. auto.
    + left. auto.
  - intros line st x Hx.
    destruct (parseLine_outcome Number line st)
      as [[_ ->]|[[_ ->]|[(ts & a & _ & _ & _ & _ & _ & ->)
                         |(ts & _ & _ & _ & _ & ->)]]]; try exact Hx;
      apply (StoreFacts.inBounds_update_widen ts x); exact Hx.
Qed.

(** ** The registry of entities *)

Module RegistryFacts.

Import EMapFacts.

Lemma keys_modify (k : string) (f : Entity -> Entity) (m : EMap.t) :
  EMap.keys (EMap.modify k f m) = EMap.keys m.
Proof.
  unfold EMap.keys. induction m as [|[k0 v] m IH]; simpl; [reflexivity|].
  destruct (String.eqb k0 k); simpl; [reflexivity|now rewrite IH].
Qed.

Lemma get_None_iff (k : string) (m : EMap.t) :
  EMap.get k m = None <-> ~ In k (EMap.keys m).
Proof.
  unfold EMap.keys. induction m as [|[k0 v] m IH]; simpl; [tauto|].
  destruct (String.eqb_spec k0 k) as [->|Hne].
  - split; [discriminate|]. intro H. exfalso. apply H. now left.
  - rewrite IH. tauto.
Qed.

Lemma set_absent (k : string) (v : Entity) (m : EMap.t) :
  EMap.get k m = None -> EMap.set k v m = (m ++ [(k, v)])%list.
Proof.
  induction m as [|[k0 v0] m IH]; simpl; [reflexivity|].
  destruct (String.eqb k0 k); [discriminate|]. intro H. now rewrite IH.
Qed.

(** [getEntity] leaves the map as it is or appends the new entity. *)
Lemma getEntity_map (n : string) (m : EMap.t) :
  (EMap.get n m <> None /\ snd (getEntity n m) = m)
  \/ (EMap.get n m = None
      /\ snd (getEntity n m) = (m ++ [(n, newEntity n)])%list).
Proof.
  unfold getEntity, EMap.has. destruct (EMap.get n m) eqn:E; simpl.
  - left. split; [discriminate|reflexivity].
  - right. split; [reflexivity|]. now apply set_absent.
Qed.

Lemma registryOk_getEntity (n : string) (m : EMap.t) :
  registryOk m -> registryOk (snd (getEntity n m)).
Proof.
  intros [Hnd Hnames].
  destruct (getEntity_map n m) as [[_ ->]|[Hnone ->]]; [split; assumption|].
  split.
  - unfold EMap.keys. rewrite map_app. simpl.
    apply NoDup_app; [exact Hnd|repeat constructor; simpl; tauto|].
    intros x Hx [<-|[]]. apply get_None_iff in Hnone. contradiction.
  - apply Forall_app. split; [exact Hnames|]. now repeat constructor.
Qed.

Lemma registryOk_modify (k : string) (f : Entity -> Entity) (m : EMap.t) :
  appendOnly f -> registryOk m -> registryOk (EMap.modify k f m).
Proof.
  intros Hf [Hnd Hnames]. split; [now rewrite keys_modify|].
  clear Hnd. induction Hnames as [|[k0 v] m Hv Hm IH]; simpl; [constructor|].
  destruct (String.eqb k0 k).
  - constructor; [|exact Hm]. simpl in *. rewrite <- Hv. apply (Hf v).
  - constructor; [exact Hv|exact IH].
Qed.

Lemma grownFrom_refl (e : Entity) : grownFrom e e.
Proof.
  unfold grownFrom. split; [reflexivity|].
  repeat split; exists []; now rewrite app_nil_r.
Qed.

Lemma grownFrom_trans (e1 e2 e3 : Entity) :
  grownFrom e1 e2 -> grownFrom e2 e3 -> grownFrom e1 e3.
Proof.
  intros (N1 & [a1 A1] & [b1 B1] & [c1 C1] & [d1 D1] & [f1 F1] & [g1 G1] & [h1 H1])
         (N2 & [a2 A2] & [b2 B2] & [c2 C2] & [d2 D2] & [f2 F2] & [g2 G2] & [h2 H2]).
  unfold grownFrom. split; [congruence|].
  repeat split; eexists;
    rewrite ?A2, ?B2, ?C2, ?D2, ?F2, ?G2, ?H2,
            ?A1, ?B1, ?C1, ?D1, ?F1, ?G1, ?H1, <- app_assoc; reflexivity.
Qed.

(** Each write of the parser to an entity object only appends. *)
Lemma appendOnly_writes (ev : Ev.t) (fx : Fx.t) (x : Q) :
  appendOnly (add_damageDone x) /\ appendOnly (add_healingDone x)
  /\ appendOnly (add_damageReceived x)
  /\ appendOnly (push_damageEvents ev) /\ appendOnly (push_healEvents ev)
  /\ appendOnly (push_damageTakenEvents ev)
  /\ appendOnly (push_buffsApplied fx) /\ appendOnly (push_debuffsApplied fx)
  /\ appendOnly (push_buffsReceived fx) /\ appendOnly (push_debuffsReceived fx).
Proof. repeat (split; [append_only|]). append_only. Qed.

Lemma appendOnly_compose (f g : Entity -> Entity) :
  appendOnly f -> appendOnly g -> appendOnly (fun e => f (g e)).
Proof. intros Hf Hg e. eapply grownFrom_trans; [apply Hg|apply Hf]. Qed.

Lemma registryGrows_refl (m : EMap.t) : registryGrows m m.
Proof.
  split; [exists []; now rewrite app_nil_r|].
  intros k e H. exists e. split; [exact H|apply grownFrom_refl].
Qed.

Lemma registryGrows_trans (m1 m2 m3 : EMap.t) :
  registryGrows m1 m2 -> registryGrows m2 m3 -> registryGrows m1 m3.
Proof.
  intros [[a1 K1] G1] [[a2 K2] G2]. split.
  - exists (a1 ++ a2)%list. now rewrite K2, K1, app_assoc.
  - intros k e H. destruct (G1 k e H) as (e' & H' & Hg).
    destruct (G2 k e' H') as (e'' & H'' & Hg').
    exists e''. split; [exact H''|]. eapply grownFrom_trans; eassumption.
Qed.

Lemma registryGrows_getEntity (n : string) (m : EMap.t) :
  registryGrows m (snd (getEntity n m)).
Proof.
  destruct (getEntity_map n m) as [[_ ->]|[Hnone ->]];
    [apply registryGrows_refl|].
  split.
  - exists [n]. unfold EMap.keys. now rewrite map_app.
  - intros k e H. exists e. split; [|apply grownFrom_refl].
    rewrite <- (set_absent n (newEntity n) m Hnone), get_set.
    destruct (String.eqb_spec n k) as [->|_]; [congruence|exact H].
Qed.

Lemma registryGrows_modify (k : string) (f : Entity -> Entity) (m : EMap.t) :
  appendOnly f -> registryGrows m (EMap.modify k f m).
Proof.
  intro Hf. split.
  - exists []. now rewrite keys_modify, app_nil_r.
  - intros k' e H. rewrite get_modify, H.
    destruct (String.eqb k k'); simpl; eexists; split; try reflexivity;
      [apply Hf|apply grownFrom_refl].
Qed.

(** A property of the map that [getEntity] and the append-only writes
    preserve is preserved by the writes of a numeric record and by those of
    an effect record. *)
Lemma numericWrites_closed (P : EMap.t -> Prop) (ts : Q) (type : string)
    (parts : list string) (a : Q) (m : EMap.t) :
  (forall n m, P m -> P (snd (getEntity n m))) ->
  (forall k f m, appendOnly f -> P m -> P (EMap.modify k f m)) ->
  P m -> P (numericWrites ts type parts a m).
Proof.
  intros Hget Hmod Hm. unfold numericWrites.
  assert (H2 : P (snd (getEntity (nth 3 parts "")
                         (snd (getEntity (nth 2 parts "") m)))))
    by auto.
  destruct (String.eqb type "DMG" || String.eqb type "DOT");
    [|destruct (String.eqb type "HEAL")]; [| |exact H2];
    repeat (apply Hmod; [append_only|]); exact H2.
Qed.

Lemma effectWrites_closed (P : EMap.t -> Prop) (ts : Q) (type : string)
    (parts : list string) (effectId : jsnum) (m : EMap.t) :
  (forall n m, P m -> P (snd (getEntity n m))) ->
  (forall k f m, appendOnly f -> P m -> P (EMap.modify k f m)) ->
  P m -> P (effectWrites ts type parts effectId m).
Proof.
  intros Hget Hmod Hm. unfold effectWrites.
  assert (H2 : P (snd (getEntity (nth 3 parts "")
                         (snd (getEntity (nth 2 parts "") m)))))
    by auto.
  destruct (String.eqb type "BUFF");
    repeat (apply Hmod; [append_only|]); exact H2.
Qed.

End RegistryFacts.

Module RegistryLookup.

Lemma In_get (k : string) (e : Entity) (m : EMap.t) :
  NoDup (EMap.keys m) ->
  (In (k, e) m <-> EMap.get k m = Some e).
Proof.
  unfold EMap.keys. induction m as [|[k0 v] m IH]; simpl; intro Hnd.
  - split; [contradiction|discriminate].
  - inversion Hnd as [|x l Hnotin Hnd']; subst.
    destruct (String.eqb_spec k0 k) as [->|Hne].
    + split.
      * intros [H|H]; [congruence|].
        exfalso. apply Hnotin. apply (in_map fst) in H. exact H.
      * intro H. left. congruence.
    + rewrite <- (IH Hnd'). split; [|tauto].
      intros [H|H]; [congruence|exact H].
Qed.

End RegistryLookup.

(** X3.  After an ingestion the keys of [entities] are distinct and every
    entity is stored under its own [name], so that the entities of the map
    are those that [entities.get] finds. *)
Theorem registry_keys_distinct_and_named
    (Number : string -> jsnum) (text : string) (st0 : State) :
  let m := entities (ingest Number text st0) in
  NoDup (EMap.keys m)
  /\ (forall k e, In (k, e) m -> name e = k)
  /\ (forall k e, In (k, e) m <-> EMap.get k m = Some e).
Proof.
  intro m.
  assert (H : registryOk m).
  { apply (ingest_inv Number (fun st => registryOk (entities st))).
    - intro st. split; constructor.
    - intros st H. exact H.
    - intros st ts type parts a H _.
      apply (RegistryFacts.numericWrites_closed registryOk);
        [apply RegistryFacts.registryOk_getEntity
        |apply RegistryFacts.registryOk_modify|exact H].
    - intros st ts type parts effectId H _.
      apply (RegistryFacts.effectWrites_closed registryOk);
        [apply RegistryFacts.registryOk_getEntity
        |apply RegistryFacts.registryOk_modify|exact H].
    - intros tf st H. exact H. }
  destruct H as [Hnd Hnames]. split; [exact Hnd|]. split.
  - intros k e Hin. rewrite Forall_forall in Hnames. apply (Hnames (k, e) Hin).
  - intros k e. now apply RegistryLookup.In_get.
Qed.

(** X4.  Parsing any lines from any state only adds to the registry: the
    keys of the map after are the keys before, in the same order, followed
    by the new names; and each entity of the map before is still stored
    under its key, with the same name and with each of its seven histories
    extended at the end. *)
Theorem parseLines_only_appends
    (Number : string -> jsnum) (lines : list string) (st : State) :
  let m := entities st in
  let m' := entities (parseLines Number lines st) in
  (exists added, EMap.keys m' = (EMap.keys m ++ added)%list)
  /\ (forall k e, EMap.get k m = Some e ->
        exists e', EMap.get k m' = Some e' /\ grownFrom e e').
Proof.
  intros m m'. subst m m'.
  change (registryGrows (entities st) (entities (parseLines Number lines st))).
  apply (parseLines_inv Number
           (fun s => registryGrows (entities st) (entities s))).
  - intros s H. exact H.
  - intros s ts type parts a H _.
    eapply RegistryFacts.registryGrows_trans; [exact H|].
    apply (RegistryFacts.numericWrites_closed
             (fun m' => registryGrows (entities s) m')).
    + intros n m0 H0. eapply RegistryFacts.registryGrows_trans; [exact H0|].
      apply RegistryFacts.registryGrows_getEntity.
    + intros k f m0 Hf H0. eapply RegistryFacts.registryGrows_trans; [exact H0|].
      now apply RegistryFacts.registryGrows_modify.
    + apply RegistryFacts.registryGrows_refl.
  - intros s ts type parts effectId H _.
    eapply RegistryFacts.registryGrows_trans; [exact H|].
    apply (RegistryFacts.effectWrites_closed
             (fun m' => registryGrows (entities s) m')).
    + intros n m0 H0. eapply RegistryFacts.registryGrows_trans; [exact H0|].
      apply RegistryFacts.registryGrows_getEntity.
    + intros k f m0 Hf H0. eapply RegistryFacts.registryGrows_trans; [exact H0|].
      now apply RegistryFacts.registryGrows_modify.
    + apply RegistryFacts.registryGrows_refl.
  - apply RegistryFacts.registryGrows_refl.
Qed.

(** ** Parsed lines *)

Module ParsedFacts.

Import EMapFacts.

Lemma numeric_not_effect (type : string) :
  isEffectType type = true -> isNumericType type = false.
Proof.
  unfold isEffectType, isNumericType. intro H.
  apply orb_true_iff in H. destruct H as [H|H]; apply String.eqb_eq in H;
    subst; reflexivity.
Qed.

Lemma has_modify (k k' : string) (f : Entity -> Entity) (m : EMap.t) :
  EMap.has k' (EMap.modify k f m) = EMap.has k' m.
Proof.
  unfold EMap.has. rewrite get_modify.
  destruct (String.eqb k k'), (EMap.get k' m); reflexivity.
Qed.

Lemma has_fetched (s t k : string) (m : EMap.t) :
  EMap.has k (snd (getEntity t (snd (getEntity s m))))
  = (String.eqb s k || String.eqb t k || EMap.has k m)%bool.
Proof.
  unfold EMap.has. rewrite NumericWritesFacts.get_fetched.
  destruct (String.eqb s k || String.eqb t k); reflexivity.
Qed.

Lemma has_numericWrites (ts : Q) (type : string) (parts : list string) (a : Q)
    (m : EMap.t) (k : string) :
  EMap.has k (numericWrites ts type parts a m)
  = (String.eqb (nth 2 parts "") k || String.eqb (nth 3 parts "") k
     || EMap.has k m)%bool.
Proof.
  unfold numericWrites.
  destruct (String.eqb type "DMG" || String.eqb type "DOT");
    [|destruct (String.eqb type "HEAL")];
    rewrite ?has_modify; apply has_fetched.
Qed.

Lemma has_effectWrites (ts : Q) (type : string) (parts : list string)
    (effectId : jsnum) (m : EMap.t) (k : string) :
  EMap.has k (effectWrites ts type parts effectId m)
  = (String.eqb (nth 2 parts "") k || String.eqb (nth 3 parts "") k
     || EMap.has k m)%bool.
Proof.
  unfold effectWrites.
  destruct (String.eqb type "BUFF"); rewrite ?has_modify; apply has_fetched.
Qed.

Lemma get_effectWrites (ts : Q) (type : string) (parts : list string)
    (effectId : jsnum) (m : EMap.t) (k : string) :
  let s := nth 2 parts "" in
  let t := nth 3 parts "" in
  let ev := Fx.mk ts type s t (nth 4 parts "")
              (match effectId with
               | None => inl (nth 5 parts "")
               | Some n => inr n
               end) in
  EMap.get k (effectWrites ts type parts effectId m)
  = if String.eqb s k || String.eqb t k then
      Some ((if String.eqb t k
             then (if String.eqb type "BUFF"
                   then push_buffsReceived ev else push_debuffsReceived ev)
             else fun e => e)
              ((if String.eqb s k
                then (if String.eqb type "BUFF"
                      then push_buffsApplied ev else push_debuffsApplied ev)
                else fun e => e)
                 (entityOf k m)))
    else EMap.get k m.
Proof.
  intros s t ev. unfold effectWrites. fold s t ev.
  destruct (String.eqb type "BUFF");
    rewrite !get_modify, NumericWritesFacts.get_fetched;
    destruct (String.eqb s k), (String.eqb t k); reflexivity.
Qed.

Lemma ByType_get_set (k : string) (v : nat) (m : ByType.t) :
  ByType.get k (ByType.set k v m) = Some v.
Proof.
  induction m as [|[k0 v0] m IH]; simpl.
  - now rewrite String.eqb_refl.
  - destruct (String.eqb k0 k) eqn:E; simpl.
    + now rewrite String.eqb_refl.
    + now rewrite E.
Qed.

End ParsedFacts.

Section WellFormedLines.

Variable Number : string -> jsnum.

(** A line that is not blank and has none of the defects of a skipped
    line is parsed: as a numeric record, or as an effect record. *)
Lemma parseLine_wellformed (line : string) (st : State) (ts : Q) :
  let parts := fields (Str.trim line) in
  let type := nth 1 parts "" in
  Str.blank line = false ->
  Number (nth 0 parts "") = Some ts ->
  (forall a,
     isNumericType type = true -> (8 <= length parts)%nat ->
     Number (nth 5 parts "") = Some a ->
     parseLine Number line st
     = set_entities (numericWrites ts type parts a (entities st))
         (counted ts type (incr_totalLines st)))
  /\ (isEffectType type = true -> (6 <= length parts)%nat ->
      parseLine Number line st
      = set_entities
          (effectWrites ts type parts (Number (nth 5 parts "")) (entities st))
          (counted ts type (incr_totalLines st))).
Proof.
  intros parts type Hb Hts.
  apply StrFacts.trim_nonempty in Hb.
  assert (E : (6 <= length parts)%nat ->
              parseLine Number line st
              = if isNumericType type
                then parseNumericEvent Number ts type parts (incr_totalLines st)
                else if isEffectType type
                     then parseEffectEvent Number ts type parts (incr_totalLines st)
                     else incr_skippedLines (incr_totalLines st)).
  { intros Hlen. unfold parseLine.
    destruct (Str.truthy (Str.trim line)) eqn:T;
      [|apply truthy_false in T; contradiction].
    simpl. fold parts. fold type.
    destruct (Nat.ltb_spec (length parts) 2); [lia|]. now rewrite Hts. }
  split.
  - intros a Hty Hlen Ha. rewrite E by lia. rewrite Hty.
    exact (parseNumericEvent_parsed Number ts type parts a
             (incr_totalLines st) Hlen Ha).
  - intros Hty Hlen. rewrite E by lia.
    rewrite (ParsedFacts.numeric_not_effect type Hty), Hty.
    exact (parseEffectEvent_parsed Number ts type parts (incr_totalLines st) Hlen).
Qed.

End WellFormedLines.

(** X5.  A line that is not blank is counted in [parsedLines] exactly when
    its timestamp converts to a number and either its kind is numeric, it
    has at least eight fields and its amount converts to a number, or its
    kind is BUFF or DEBUFF and it has at least six fields.  Such a line is
    not counted as skipped, adds 1 to the count of its kind, registers its
    source and its target, and puts its timestamp within the time
    bounds. *)
Theorem parseLine_parses_exactly_wellformed
    (Number : string -> jsnum) (line : string) (st : State) :
  Str.blank line = false ->
  let parts := fields (Str.trim line) in
  let type := nth 1 parts "" in
  let g := globalStats st in
  let st' := parseLine Number line st in
  let g' := globalStats st' in
  let wellformed :=
    exists ts,
      Number (nth 0 parts "") = Some ts
      /\ ((isNumericType type = true /\ (8 <= length parts)%nat
           /\ exists a, Number (nth 5 parts "") = Some a)
          \/ (isEffectType type = true /\ (6 <= length parts)%nat)) in
  (parsedLines g' = (parsedLines g + 1)%nat <-> wellformed)
  /\ (wellformed ->
      skippedLines g' = skippedLines g
      /\ ByType.get type (byType g')
         = Some (orZeroNat (ByType.get type (byType g)) + 1)%nat
      /\ EMap.has (nth 2 parts "") (entities st') = true
      /\ EMap.has (nth 3 parts "") (entities st') = true
      /\ exists ts, Number (nth 0 parts "") = Some ts
                    /\ inBounds (timeBounds st') ts).
Proof.
  intros Hb parts type g st' g' wellformed.
  assert (Hwf : wellformed ->
                exists ts m,
                  Number (nth 0 parts "") = Some ts
                  /\ st' = set_entities m (counted ts type (incr_totalLines st))
                  /\ EMap.has (nth 2 parts "") m = true
                  /\ EMap.has (nth 3 parts "") m = true).
  { intros (ts & Hts & [(Hty & Hlen & a & Ha)|(Hty & Hlen)]);
      destruct (parseLine_wellformed Number line st ts Hb Hts) as [Hn He];
      exists ts; eexists; (split; [exact Hts|]).
    - split; [exact (Hn a Hty Hlen Ha)|].
      rewrite !ParsedFacts.has_numericWrites, !String.eqb_refl.
      split; [reflexivity|]. now rewrite orb_true_r.
    - split; [exact (He Hty Hlen)|].
      rewrite !ParsedFacts.has_effectWrites, !String.eqb_refl.
      split; [reflexivity|]. now rewrite orb_true_r. }
  split; [split|].
  - intro Hp.
    destruct (parseLine_outcome Number line st)
      as [[Hb' _]|[[_ E]|[(ts & a & _ & Hty & Hlen & Hts & Ha & _)
                         |(ts & _ & Hty & Hlen & Hts & _)]]].
    + congruence.
    + exfalso. subst g g' st'. rewrite E in Hp. simpl in Hp. lia.
    + exists ts. split; [exact Hts|]. left. eauto.
    + exists ts. split; [exact Hts|]. right. auto.
  - intro H. destruct (Hwf H) as (ts & m & _ & E & _).
    subst g'. rewrite E. reflexivity.
  - intro H. destruct (Hwf H) as (ts & m & Hts & E & Hs & Ht).
    subst g'. rewrite E. simpl. repeat split; auto.
    + unfold ByType.incr. apply ParsedFacts.ByType_get_set.
    + exists ts. split; [exact Hts|].
      apply (StoreFacts.inBounds_update_self ts).
Qed.

Lemma parseLine_parses_exactly_wellformed_witness :
  parsedLines
    (globalStats (parseLine Number "4,BUFF,A,B,Shield,none" initialState))
  = (parsedLines (globalStats initialState) + 1)%nat.
Proof.
  apply (proj1 (parseLine_parses_exactly_wellformed Number
                  "4,BUFF,A,B,Shield,none" initialState eq_refl)).
  exists 4. split; [reflexivity|]. right. split; [reflexivity|].
  simpl. lia.
Defined.

(** X6.  A BUFF or DEBUFF line of at least six fields whose timestamp
    converts to a number is parsed, whatever its identifier field is: the
    identifier of the event is the number the field converts to, or the
    field itself when it converts to none.  The same event object is
    appended to the applied list of the source and to the received list of
    the target (of buffs or of debuffs, by the kind).  No running total and
    no history of damage or healing of any entity changes, and the
    entities other than the source and the target are as before. *)
Theorem parseLine_effect_record
    (Number : string -> jsnum) (line : string) (st : State)
    (tsS type src tgt effectName idS : string) (rest : list string) (ts : Q) :
  fields (Str.trim line)
  = tsS :: type :: src :: tgt :: effectName :: idS :: rest ->
  Number tsS = Some ts ->
  type = "BUFF" \/ type = "DEBUFF" ->
  let m := entities st in
  let st' := parseLine Number line st in
  let m' := entities st' in
  let ev := Fx.mk ts type src tgt effectName
              (match Number idS with None => inl idS | Some n => inr n end) in
  parsedLines (globalStats st') = (parsedLines (globalStats st) + 1)%nat
  /\ (exists es' et',
        EMap.get src m' = Some es' /\ EMap.get tgt m' = Some et'
        /\ (type = "BUFF" ->
            buffsApplied es' = (buffsApplied (entityOf src m) ++ [ev])%list
            /\ buffsReceived et' = (buffsReceived (entityOf tgt m) ++ [ev])%list)
        /\ (type = "DEBUFF" ->
            debuffsApplied es' = (debuffsApplied (entityOf src m) ++ [ev])%list
            /\ debuffsReceived et'
               = (debuffsReceived (entityOf tgt m) ++ [ev])%list))
  /\ (forall k e', EMap.get k m' = Some e' -> sameNumeric (entityOf k m) e')
  /\ (forall k, k <> src -> k <> tgt -> EMap.get k m' = EMap.get k m).
Proof.
  intros Hf Hts Hty m st' m' ev.
  assert (Hb : Str.blank line = false).
  { apply StrFacts.trim_nonempty. intro E. rewrite E in Hf. discriminate Hf. }
  assert (Heff : isEffectType type = true)
    by (destruct Hty as [-> | ->]; reflexivity).
  assert (E : st' = set_entities
                      (effectWrites ts type (fields (Str.trim line)) (Number idS) m)
                      (counted ts type (incr_totalLines st))).
  { destruct (parseLine_wellformed Number line st ts Hb) as [_ He].
    - rewrite Hf. exact Hts.
    - subst st'. rewrite He.
      + rewrite Hf. reflexivity.
      + rewrite Hf. exact Heff.
      + rewrite Hf. simpl. lia. }
  pose proof (ParsedFacts.get_effectWrites ts type (fields (Str.trim line))
                (Number idS) m) as G.
  rewrite Hf in G. simpl in G. fold ev in G.
  subst m'. rewrite E. simpl entities. rewrite Hf in *.
  split; [reflexivity|]. split; [|split].
  - rewrite (G src), (G tgt), !String.eqb_refl, orb_true_r. simpl.
    do 2 eexists. split; [reflexivity|]. split; [reflexivity|].
    clear Hty Heff E G.
    split; intro Hk; subst type; simpl;
      destruct (String.eqb tgt src), (String.eqb src tgt);
      split; reflexivity.
  - intros k e'. rewrite (G k).
    destruct (String.eqb src k || String.eqb tgt k) eqn:Ek.
    + intro H. injection H as <-.
      destruct (String.eqb tgt k), (String.eqb src k), (String.eqb type "BUFF");
        repeat split.
    + unfold entityOf. intros ->. repeat split.
  - intros k Hs Ht. rewrite (G k).
    destruct (String.eqb_spec src k) as [X|_]; [symmetry in X; contradiction|].
    destruct (String.eqb_spec tgt k) as [X|_]; [symmetry in X; contradiction|].
    reflexivity.
Qed.

Lemma parseLine_effect_record_witness :
  exists es' et',
    EMap.get "A" (entities (parseLine Number "4,BUFF,A,B,Shield,none" initialState))
    = Some es'
    /\ EMap.get "B" (entities (parseLine Number "4,BUFF,A,B,Shield,none" initialState))
       = Some et'
    /\ ("BUFF" = "BUFF" ->
        buffsApplied es' = [Fx.mk 4 "BUFF" "A" "B" "Shield" (inl "none")]
        /\ buffsReceived et' = [Fx.mk 4 "BUFF" "A" "B" "Shield" (inl "none")])
    /\ ("BUFF" = "DEBUFF" ->
        debuffsApplied es' = [Fx.mk 4 "BUFF" "A" "B" "Shield" (inl "none")]
        /\ debuffsReceived et' = [Fx.mk 4 "BUFF" "A" "B" "Shield" (inl "none")]).
Proof.
  exact (proj1 (proj2 (parseLine_effect_record Number
                         "4,BUFF,A,B,Shield,none" initialState
                         "4" "BUFF" "A" "B" "Shield" "none" [] 4
                         eq_refl eq_refl (or_introl eq_refl)))).
Defined.

(** X7.  An ENERGIZE line of at least eight fields whose timestamp and
    amount convert to numbers is parsed and counted, and its timestamp
    widens the time bounds, but its amount is stored nowhere: its source
    and its target are registered, as new, empty entities if they were
    unknown, and every entity that was in the map is left as it was. *)
Theorem parseLine_energize_record
    (Number : string -> jsnum) (line : string) (st : State)
    (tsS src tgt skill amtS pool hit : string) (rest : list string) (ts a : Q) :
  fields (Str.trim line)
  = tsS :: "ENERGIZE" :: src :: tgt :: skill :: amtS :: pool :: hit :: rest ->
  Number tsS = Some ts ->
  Number amtS = Some a ->
  let m := entities st in
  let st' := parseLine Number line st in
  parsedLines (globalStats st') = (parsedLines (globalStats st) + 1)%nat
  /\ ByType.get "ENERGIZE" (byType (globalStats st'))
     = Some (orZeroNat (ByType.get "ENERGIZE" (byType (globalStats st))) + 1)%nat
  /\ inBounds (timeBounds st') ts
  /\ (forall k,
        EMap.get k (entities st')
        = if String.eqb src k || String.eqb tgt k then Some (entityOf k m)
          else EMap.get k m)
  /\ (forall k e, EMap.get k m = Some e -> EMap.get k (entities st') = Some e).
Proof.
  intros Hf Hts Ha m st'.
  assert (E : st' = set_entities
                      (numericWrites ts "ENERGIZE" (fields (Str.trim line)) a m)
                      (counted ts "ENERGIZE" (incr_totalLines st)))
    by (apply (parseLine_numeric Number line st _ _ _ _ _ _ _ _ _ ts a Hf Hts Ha);
        reflexivity).
  assert (G : forall k,
             EMap.get k (entities st')
             = if String.eqb src k || String.eqb tgt k then Some (entityOf k m)
               else EMap.get k m).
  { intro k. rewrite E. simpl entities. unfold numericWrites. rewrite Hf. simpl.
    apply NumericWritesFacts.get_fetched. }
  rewrite E at 1 2 3. simpl. split; [reflexivity|]. split; [|split; [|split]].
  - unfold ByType.incr. apply ParsedFacts.ByType_get_set.
  - apply (StoreFacts.inBounds_update_self ts).
  - exact G.
  - intros k e Hk. rewrite G. unfold entityOf. rewrite Hk.
    destruct (String.eqb src k || String.eqb tgt k); reflexivity.
Qed.

Lemma parseLine_energize_record_witness :
  EMap.get "A"
    (entities (parseLine Number "9,ENERGIZE,A,B,Focus,40,Mana,Normal"
                 initialState))
  = Some (newEntity "A").
Proof.
  exact (proj1 (proj2 (proj2 (proj2
           (parseLine_energize_record Number
              "9,ENERGIZE,A,B,Focus,40,Mana,Normal" initialState
              "9" "A" "B" "Focus" "40" "Mana" "Normal" [] 9 40
              eq_refl eq_refl eq_refl)))) "A").
Defined.

(** ** Damage done and damage received *)

Module BalanceFacts.

Import EMapFacts.

Section Records.

Context {X : Type} (F : string -> Entity -> list X).

Lemma records_modify_same (k : string) (f : Entity -> Entity) (m : EMap.t) :
  (forall k' e, F k' (f e) = F k' e) ->
  flat_map (fun kv => F (fst kv) (snd kv)) (EMap.modify k f m)
  = flat_map (fun kv => F (fst kv) (snd kv)) m.
Proof.
  intro Hf.
  induction m as [|[k0 v] m IH]; simpl; [reflexivity|].
  destruct (String.eqb k0 k); simpl; [now rewrite Hf|now rewrite IH].
Qed.

Lemma records_modify_snoc (x : X) (k : string) (f : Entity -> Entity)
    (m : EMap.t) :
  (forall e, F k (f e) = (F k e ++ [x])%list) ->
  EMap.has k m = true ->
  Permutation (flat_map (fun kv => F (fst kv) (snd kv)) (EMap.modify k f m))
    (x :: flat_map (fun kv => F (fst kv) (snd kv)) m).
Proof.
  intros Hf. unfold EMap.has.
  induction m as [|[k0 v] m IH]; simpl; [discriminate|].
  destruct (String.eqb k0 k) eqn:E; simpl.
  - intros _. apply String.eqb_eq in E. subst k0. rewrite Hf.
    rewrite <- app_assoc. simpl. symmetry. apply Permutation_middle.
  - intro H. rewrite (IH H). symmetry. apply Permutation_middle.
Qed.

Lemma records_getEntity (n : string) (m : EMap.t) :
  F n (newEntity n) = [] ->
  flat_map (fun kv => F (fst kv) (snd kv)) (snd (getEntity n m))
  = flat_map (fun kv => F (fst kv) (snd kv)) m.
Proof.
  intro Hn.
  destruct (RegistryFacts.getEntity_map n m) as [[_ ->]|[_ ->]]; [reflexivity|].
  rewrite flat_map_app. simpl. rewrite Hn. now rewrite !app_nil_r.
Qed.

End Records.

Lemma balanced_fetched (s t : string) (m : EMap.t) :
  damageBalanced m ->
  damageBalanced (snd (getEntity t (snd (getEntity s m)))).
Proof.
  unfold damageBalanced, damageDoneRecords, damageTakenRecords. intro H.
  rewrite !(records_getEntity (fun k e => List.map (withSource k) (damageEvents e)))
    by reflexivity.
  rewrite !(records_getEntity
              (fun k e => List.map (withTarget k) (damageTakenEvents e)))
    by reflexivity.
  exact H.
Qed.

Lemma balanced_numericWrites (ts : Q) (type : string) (parts : list string)
    (a : Q) (m : EMap.t) :
  damageBalanced m -> damageBalanced (numericWrites ts type parts a m).
Proof.
  intros H. unfold numericWrites.
  pose proof (balanced_fetched (nth 2 parts "") (nth 3 parts "") m H) as H2.
  set (m2 := snd (getEntity (nth 3 parts "")
                    (snd (getEntity (nth 2 parts "") m)))) in *.
  assert (Hs : EMap.has (nth 2 parts "") m2 = true)
    by (unfold m2; rewrite ParsedFacts.has_fetched, String.eqb_refl; reflexivity).
  assert (Ht : EMap.has (nth 3 parts "") m2 = true)
    by (unfold m2; rewrite ParsedFacts.has_fetched, String.eqb_refl;
        now rewrite orb_true_r).
  unfold damageBalanced, damageDoneRecords, damageTakenRecords in *.
  destruct (String.eqb type "DMG" || String.eqb type "DOT");
    [|destruct (String.eqb type "HEAL")].
  - rewrite (records_modify_same
               (fun k e => List.map (withSource k) (damageEvents e)))
      by reflexivity.
    rewrite (records_modify_snoc
               (fun k e => List.map (withSource k) (damageEvents e))
               (Ev.mk ts type (Some (nth 2 parts "")) (Some (nth 3 parts ""))
                  (nth 4 parts "") (Qabs a) (nth 6 parts "") (nth 7 parts "")));
      [|intro e; simpl; rewrite map_app; reflexivity|exact Hs].
    rewrite (records_modify_snoc
               (fun k e => List.map (withTarget k) (damageTakenEvents e))
               (Ev.mk ts type (Some (nth 2 parts "")) (Some (nth 3 parts ""))
                  (nth 4 parts "") (Qabs a) (nth 6 parts "") (nth 7 parts "")));
      [|intro e; simpl; rewrite map_app; reflexivity
       |now rewrite ParsedFacts.has_modify].
    rewrite (records_modify_same
               (fun k e => List.map (withTarget k) (damageTakenEvents e)))
      by reflexivity.
    now constructor.
  - rewrite (records_modify_same
               (fun k e => List.map (withSource k) (damageEvents e)))
      by reflexivity.
    rewrite (records_modify_same
               (fun k e => List.map (withTarget k) (damageTakenEvents e)))
      by reflexivity.
    exact H2.
  - exact H2.
Qed.

Lemma balanced_effectWrites (ts : Q) (type : string) (parts : list string)
    (effectId : jsnum) (m : EMap.t) :
  damageBalanced m -> damageBalanced (effectWrites ts type parts effectId m).
Proof.
  intros H. unfold effectWrites.
  pose proof (balanced_fetched (nth 2 parts "") (nth 3 parts "") m H) as H2.
  unfold damageBalanced, damageDoneRecords, damageTakenRecords in *.
  destruct (String.eqb type "BUFF");
    rewrite !(records_modify_same
                (fun k e => List.map (withSource k) (damageEvents e)))
      by reflexivity;
    rewrite !(records_modify_same
                (fun k e => List.map (withTarget k) (damageTakenEvents e)))
      by reflexivity;
    exact H2.
Qed.

(** The records by key are the records by the name of the entity, when
    every entity is stored under its name. *)
Lemma records_by_name {X : Type} (F : string -> Entity -> list X) (m : EMap.t) :
  Forall (fun kv => name (snd kv) = fst kv) m ->
  flat_map (fun e => F (name e) e) (EMap.values m)
  = flat_map (fun kv => F (fst kv) (snd kv)) m.
Proof.
  unfold EMap.values. induction 1 as [|kv m Hkv _ IH]; simpl; [reflexivity|].
  now rewrite Hkv, IH.
Qed.

End BalanceFacts.

(** X8.  After an ingestion, the damage events of the histories of damage
    done of all the entities, each with the name of its entity as the
    attacker, are the damage events of the histories of damage taken of all
    the entities, each with the name of its entity as the target, in
    another order: a DMG or DOT record is held once by its source and once
    by its target, with the same timestamp, kind, skill, amount, pool and
    hit type. *)
Theorem damage_records_are_held_on_both_sides
    (Number : string -> jsnum) (text : string) (st0 : State) :
  let es := EMap.values (entities (ingest Number text st0)) in
  Permutation
    (flat_map (fun e => List.map (withSource (name e)) (damageEvents e)) es)
    (flat_map (fun e => List.map (withTarget (name e)) (damageTakenEvents e)) es).
Proof.
  intro es.
  assert (H : damageBalanced (entities (ingest Number text st0))
              /\ registryOk (entities (ingest Number text st0))).
  { apply (ingest_inv Number
             (fun s => damageBalanced (entities s) /\ registryOk (entities s))).
    - intros s. split; [constructor|split; constructor].
    - intros s H. exact H.
    - intros s ts type parts a [H1 H2] _. split.
      + now apply BalanceFacts.balanced_numericWrites.
      + apply (RegistryFacts.numericWrites_closed registryOk);
          [apply RegistryFacts.registryOk_getEntity
          |apply RegistryFacts.registryOk_modify|exact H2].
    - intros s ts type parts effectId [H1 H2] _. split.
      + now apply BalanceFacts.balanced_effectWrites.
      + apply (RegistryFacts.effectWrites_closed registryOk);
          [apply RegistryFacts.registryOk_getEntity
          |apply RegistryFacts.registryOk_modify|exact H2].
    - intros tf' s H. exact H. }
  destruct H as [Hb [_ Hnames]]. subst es.
  rewrite (BalanceFacts.records_by_name
             (fun k e => List.map (withSource k) (damageEvents e)))
    by exact Hnames.
  rewrite (BalanceFacts.records_by_name
             (fun k e => List.map (withTarget k) (damageTakenEvents e)))
    by exact Hnames.
  exact Hb.
Qed.

(** ** Loading a log over another *)

Module ReloadFacts.

Lemma keys_set_in (k : string) (v : nat) (m : ByType.t) :
  In k (List.map fst m) -> List.map fst (ByType.set k v m) = List.map fst m.
Proof.
  induction m as [|[k0 v0] m IH]; simpl; [contradiction|].
  destruct (String.eqb_spec k0 k) as [->|Hne]; simpl; [reflexivity|].
  intros [H|H]; [contradiction|]. now rewrite IH.
Qed.

Lemma type_in_keys (type : string) :
  isNumericType type = true \/ isEffectType type = true ->
  In type (List.map fst ByType.init).
Proof.
  unfold isNumericType, isEffectType. rewrite !orb_true_iff, !String.eqb_eq.
  simpl. intuition.
Qed.

Lemma keys_counted (ts : Q) (type : string) (st : State) :
  isNumericType type = true \/ isEffectType type = true ->
  List.map fst (byType (globalStats st)) = List.map fst ByType.init ->
  List.map fst (byType (globalStats (counted ts type (incr_totalLines st))))
  = List.map fst ByType.init.
Proof.
  intros Hty H. simpl. unfold ByType.incr.
  rewrite keys_set_in; [exact H|]. rewrite H. now apply type_in_keys.
Qed.

Lemma resetState_initial (st : State) :
  List.map fst (byType (globalStats st)) = List.map fst ByType.init ->
  resetState st = initialState.
Proof.
  intro H. unfold resetState, initialState. f_equal. f_equal.
  rewrite <- (map_map fst (fun k => (k, 0%nat))), H. reflexivity.
Qed.

End ReloadFacts.

(** X9.  Loading a log replaces the previous one.  From any state whose
    [byType] has the six kinds as its keys, an ingestion gives the state
    that it gives from the initial state; an ingestion keeps those keys,
    so that the state after two loads in a row is that of the second load
    alone.  Loading the empty text gives the initial state. *)
Theorem ingest_replaces_previous_log (Number : string -> jsnum) :
  (forall text st,
     List.map fst (byType (globalStats st)) = List.map fst ByType.init ->
     ingest Number text st = ingest Number text initialState)
  /\ (forall text st,
        List.map fst (byType (globalStats st)) = List.map fst ByType.init ->
        List.map fst (byType (globalStats (ingest Number text st)))
        = List.map fst ByType.init)
  /\ (forall text1 text2,
        ingest Number text2 (ingest Number text1 initialState)
        = ingest Number text2 initialState)
  /\ ingest Number "" initialState = initialState.
Proof.
  assert (H1 : forall text st,
             List.map fst (byType (globalStats st)) = List.map fst ByType.init ->
             ingest Number text st = ingest Number text initialState).
  { intros text st H. unfold ingest.
    now rewrite (ReloadFacts.resetState_initial st H). }
  assert (H2 : forall text st,
             List.map fst (byType (globalStats st)) = List.map fst ByType.init ->
             List.map fst (byType (globalStats (ingest Number text st)))
             = List.map fst ByType.init).
  { intros text st H. rewrite (H1 text st H). unfold ingest.
    destruct (onload_filter_only Number text (resetState initialState)) as [tf ->].
    simpl globalStats.
    apply (parseLines_inv Number
             (fun s => List.map fst (byType (globalStats s))
                       = List.map fst ByType.init)).
    - intros s Hs. exact Hs.
    - intros s ts type parts a Hs Hty. apply ReloadFacts.keys_counted; auto.
    - intros s ts type parts effectId Hs Hty. apply ReloadFacts.keys_counted; auto.
    - reflexivity. }
  split; [exact H1|]. split; [exact H2|]. split.
  - intros text1 text2. apply H1, H2. reflexivity.
  - reflexivity.
Qed.

(** ** The default window *)

Module DefaultWindowFacts.

Lemma Math_max_spec (x y : Q) :
  (x <= y /\ Math_max x y = y) \/ (y < x /\ Math_max x y = x).
Proof.
  unfold Math_max. destruct (Qle_bool x y) eqn:E.
  - left. split; [now apply Qle_bool_iff|reflexivity].
  - right. split; [|reflexivity].
    apply Qnot_le_lt. intro H. apply Qle_bool_iff in H. congruence.
Qed.

Lemma set_timeFilter_same (st : State) :
  set_timeFilter (timeFilter st) st = st.
Proof. destruct st. reflexivity. Qed.

End DefaultWindowFacts.

Lemma setInitialTimeFilterLast30Minutes_window_aux (st : State) (lo hi : Q) :
  tbMin (timeBounds st) = Some lo -> tbMax (timeBounds st) = Some hi ->
  lo <= hi ->
  exists s,
    setInitialTimeFilterLast30Minutes st
    = set_timeFilter (mkTimeFilter true (Some s) (Some hi)) st
    /\ lo <= s /\ s <= hi /\ hi - s <= 1800.
Proof.
  intros Hlo Hhi Hle. unfold setInitialTimeFilterLast30Minutes.
  rewrite Hlo, Hhi. eexists. split; [reflexivity|].
  destruct (DefaultWindowFacts.Math_max_spec (hi - 30 * 60) lo) as [[H ->]|[H ->]];
    repeat split; lra.
Qed.

(** X10.  With time bounds [lo <= hi], [setInitialTimeFilterLast30Minutes]
    enables the filter on a window that ends at [hi], starts within the
    bounds, and is at most 1800 seconds long: it starts at [lo] when the
    log spans at most 1800 seconds and at [hi - 1800] otherwise.  Without
    both bounds it leaves the state as it is. *)
Theorem setInitialTimeFilterLast30Minutes_window (st : State) :
  (forall lo hi,
     tbMin (timeBounds st) = Some lo -> tbMax (timeBounds st) = Some hi ->
     lo <= hi ->
     exists s,
       setInitialTimeFilterLast30Minutes st
       = set_timeFilter (mkTimeFilter true (Some s) (Some hi)) st
       /\ lo <= s /\ s <= hi /\ hi - s <= 1800
       /\ (hi - lo <= 1800 -> s = lo)
       /\ (1800 < hi - lo -> s = hi - 30 * 60))
  /\ (tbMin (timeBounds st) = None \/ tbMax (timeBounds st) = None ->
      setInitialTimeFilterLast30Minutes st = st).
Proof.
  split.
  - intros lo hi Hlo Hhi Hle. unfold setInitialTimeFilterLast30Minutes.
    rewrite Hlo, Hhi. eexists. split; [reflexivity|].
    destruct (DefaultWindowFacts.Math_max_spec (hi - 30 * 60) lo) as [[H ->]|[H ->]].
    + repeat split; try lra; intro H'; first [reflexivity | exfalso; lra].
    + repeat split; try lra; intro H'; first [reflexivity | exfalso; lra].
  - unfold setInitialTimeFilterLast30Minutes.
    destruct (tbMin (timeBounds st)), (tbMax (timeBounds st));
      intros [H|H]; try discriminate H; reflexivity.
Qed.

Lemma setInitialTimeFilterLast30Minutes_window_witness :
  exists s,
    setInitialTimeFilterLast30Minutes boundedState
    = set_timeFilter (mkTimeFilter true (Some s) (Some 1000)) boundedState
    /\ 0 <= s /\ s <= 1000 /\ 1000 - s <= 1800
    /\ (1000 - 0 <= 1800 -> s = 0)
    /\ (1800 < 1000 - 0 -> s = 1000 - 30 * 60).
Proof.
  apply (proj1 (setInitialTimeFilterLast30Minutes_window boundedState) 0 1000
           eq_refl eq_refl).
  unfold Qle. simpl. lia.
Defined.

Lemma default_window_after_parsing (p : State) :
  boundsOk p ->
  timeFilter p = mkTimeFilter false None None ->
  let st := match setupTimeFilterUI p with
            | Thrown st => st
            | Returned st => setInitialTimeFilterLast30Minutes st
            end in
  (parsedLines (globalStats st) = 0%nat ->
   timeFilter st = mkTimeFilter false None None)
  /\ ((0 < parsedLines (globalStats st))%nat ->
      exists lo hi,
        tbMin (timeBounds st) = Some lo /\ tbMax (timeBounds st) = Some hi
        /\ (epochToLocalInput_throws lo || epochToLocalInput_throws hi = false ->
            exists s,
              timeFilter st = mkTimeFilter true (Some s) (Some hi)
              /\ lo <= s /\ s <= hi /\ hi - s <= 1800
              /\ applyTimeFilterFromInputs (Some s) (Some hi) st = (st, None))
        /\ (epochToLocalInput_throws lo || epochToLocalInput_throws hi = true ->
            timeFilter st = mkTimeFilter false (Some lo) (Some hi))).
Proof.
  intros Hb Hf. unfold boundsOk in Hb. unfold setupTimeFilterUI.
  destruct (tbMin (timeBounds p)) as [lo|] eqn:Elo;
    destruct (tbMax (timeBounds p)) as [hi|] eqn:Ehi; try contradiction.
  - destruct Hb as [Hle Hpos].
    set (q := set_timeFilter (mkTimeFilter false (Some lo) (Some hi)) p).
    destruct (epochToLocalInput_throws lo || epochToLocalInput_throws hi) eqn:Et.
    + simpl. split; [intro H0; lia|]. intros _.
      exists lo, hi. split; [exact Elo|]. split; [exact Ehi|].
      split; [intro H; rewrite Et in H; discriminate H|]. intros _. reflexivity.
    + destruct (setInitialTimeFilterLast30Minutes_window_aux q lo hi Elo Ehi Hle)
        as (s & E & H1 & H2 & H3).
      rewrite E. simpl. split; [intro H0; lia|]. intros _.
      exists lo, hi. split; [exact Elo|]. split; [exact Ehi|].
      split; [|intro H; rewrite Et in H; discriminate H].
      intros _. exists s. repeat split; auto.
      unfold applyTimeFilterFromInputs. simpl. rewrite Elo, Ehi. simpl.
      assert (X1 : Qltb s lo = false) by now apply Qltb_ge.
      assert (X2 : Qltb hi s = false) by now apply Qltb_ge.
      assert (X3 : Qltb hi lo = false) by now apply Qltb_ge.
      assert (X4 : Qltb hi hi = false) by (apply Qltb_ge; lra).
      rewrite X1, X2, X3, X4. reflexivity.
  - unfold setInitialTimeFilterLast30Minutes. rewrite Elo, Ehi.
    split; [intros _; exact Hf|]. intro H. lia.
Qed.

(** X11.  After an ingestion that parsed nothing the filter is disabled
    with no bound.  After an ingestion that parsed at least one record,
    when [epochToLocalInput] returns for both time bounds, the filter is
    enabled on a window that ends at the latest timestamp, starts within
    the time bounds and is at most 1800 seconds long, and
    [applyTimeFilterFromInputs] accepts that window and leaves the state as
    it is.  When [epochToLocalInput] throws for a time bound, as for a log
    whose timestamps are in microseconds, the handler ends in
    [setupTimeFilterUI]: the filter is left disabled, on the two time
    bounds, and the window of the last 30 minutes is not set. *)
Theorem ingest_sets_default_window
    (Number : string -> jsnum) (text : string) (st0 : State) :
  let st := ingest Number text st0 in
  (parsedLines (globalStats st) = 0%nat ->
   timeFilter st = mkTimeFilter false None None)
  /\ ((0 < parsedLines (globalStats st))%nat ->
      exists lo hi,
        tbMin (timeBounds st) = Some lo /\ tbMax (timeBounds st) = Some hi
        /\ (epochToLocalInput_throws lo || epochToLocalInput_throws hi = false ->
            exists s,
              timeFilter st = mkTimeFilter true (Some s) (Some hi)
              /\ lo <= s /\ s <= hi /\ hi - s <= 1800
              /\ applyTimeFilterFromInputs (Some s) (Some hi) st = (st, None))
        /\ (epochToLocalInput_throws lo || epochToLocalInput_throws hi = true ->
            timeFilter st = mkTimeFilter false (Some lo) (Some hi))).
Proof.
  intro st. subst st. unfold ingest, onload.
  apply default_window_after_parsing.
  - apply boundsOk_parseLines. reflexivity.
  - now rewrite timeFilter_parseLines.
Qed.

(** A log with timestamps in microseconds: the three records are parsed,
    and the filter is left disabled. *)
Example ingest_microsecond_log :
  let st := ingest Number
              ("1700000000000000,DMG,A,B,Hit,5,Health,Normal"
               ++ String Str.LF "1700000600000000,HEAL,A,A,Mend,3,Health,Normal"
               ++ String Str.LF "1700003600000000,DMG,B,A,Hit,7,Health,Normal")
              initialState in
  parsedLines (globalStats st) = 3%nat
  /\ timeFilter st
     = mkTimeFilter false (Some 1700000000000000) (Some 1700003600000000).
Proof. vm_compute. split; reflexivity. Qed.

(** ** The full range *)

Section AfterIngest.

Variable Number : string -> jsnum.

Lemma boundsOk_ingest (text : string) (st0 : State) :
  boundsOk (ingest Number text st0).
Proof.
  unfold ingest.
  destruct (onload_filter_only Number text (resetState st0)) as [tf ->].
  apply (boundsOk_parseLines Number _ (resetState st0)). reflexivity.
Qed.

Lemma filter_disabled_when_nothing_parsed (text : string) (st0 : State) :
  parsedLines (globalStats (ingest Number text st0)) = 0%nat ->
  tfEnabled (timeFilter (ingest Number text st0)) = false.
Proof.
  unfold ingest, onload. intro H.
  destruct (default_window_after_parsing
              (parseLines Number (Str.splitLines text) (resetState st0)))
    as [H0 _].
  - apply boundsOk_parseLines. reflexivity.
  - now rewrite timeFilter_parseLines.
  - now rewrite (H0 H).
Qed.

End AfterIngest.

Lemma unfiltered_rows (st : State) :
  storeOk st -> unfiltered st ->
  buildAggregatedEntitiesForCurrentTimeFrame st
  = List.map totalsRow (EMap.values (entities st)).
Proof.
  intros [Hok Hb] Hu.
  unfold buildAggregatedEntitiesForCurrentTimeFrame, EMap.values.
  apply map_ext_in. intros e He. apply in_map_iff in He.
  destruct He as (kv & <- & Hkv).
  rewrite Forall_forall in Hok, Hb.
  apply (UnfilteredFacts.aggregateEntity_unfiltered st);
    [exact Hu|apply (Hok kv Hkv)|apply (Hb kv Hkv)].
Qed.

(** X12.  After an ingestion, once [resetTimeFilterToFullRange] has run,
    the row of every entity holds its running totals; and so it does once
    [applyTimeFilterFromInputs] has run on the two time bounds
    themselves. *)
Theorem full_range_rows_are_running_totals
    (Number : string -> jsnum) (text : string) (st0 : State) :
  let st := ingest Number text st0 in
  buildAggregatedEntitiesForCurrentTimeFrame (resetTimeFilterToFullRange st)
  = List.map totalsRow (EMap.values (entities st))
  /\ buildAggregatedEntitiesForCurrentTimeFrame
       (fst (applyTimeFilterFromInputs
               (tbMin (timeBounds st)) (tbMax (timeBounds st)) st))
     = List.map totalsRow (EMap.values (entities st)).
Proof.
  intro st.
  pose proof (storeOk_ingest Number text st0 : storeOk st) as Hok.
  split.
  - apply (unfiltered_rows (resetTimeFilterToFullRange st)); [exact Hok|].
    right. split; reflexivity.
  - pose proof (boundsOk_ingest Number text st0 : boundsOk st) as Hb.
    unfold boundsOk in Hb.
    destruct (tbMin (timeBounds st)) as [lo|] eqn:Hlo;
      destruct (tbMax (timeBounds st)) as [hi|] eqn:Hhi; try contradiction.
    2:{ simpl. apply (unfiltered_rows st Hok). left.
        now apply filter_disabled_when_nothing_parsed. }
    destruct Hb as [Hle _].
    + unfold applyTimeFilterFromInputs. rewrite Hlo, Hhi. simpl.
      assert (X1 : Qltb lo lo = false) by (apply Qltb_ge; lra).
      assert (X2 : Qltb hi lo = false) by now apply Qltb_ge.
      assert (X3 : Qltb hi hi = false) by (apply Qltb_ge; lra).
      rewrite X1, X2, X3. simpl.
      apply (unfiltered_rows
               (set_timeFilter (mkTimeFilter true (Some lo) (Some hi)) st));
        [exact Hok|].
      right. simpl. now rewrite Hlo, Hhi.
Qed.

(** X13.  While both time bounds are [null], as after a log in which no
    line was parsed, the comparisons of [applyTimeFilterFromInputs] read
    the bounds as 0: a pair of numbers is accepted exactly when both are 0,
    and any other pair is rejected with an alert and leaves the state as it
    was. *)
Theorem applyTimeFilterFromInputs_without_bounds (st : State) (s e : Q) :
  tbMin (timeBounds st) = None ->
  tbMax (timeBounds st) = None ->
  (s == 0 /\ e == 0 ->
   applyTimeFilterFromInputs (Some s) (Some e) st
   = (set_timeFilter (mkTimeFilter true (Some s) (Some e)) st, None))
  /\ (~ (s == 0 /\ e == 0) ->
      exists msg, applyTimeFilterFromInputs (Some s) (Some e) st = (st, Some msg)).
Proof.
  intros Hlo Hhi. unfold applyTimeFilterFromInputs. rewrite Hlo, Hhi. simpl.
  split.
  - intros [Hs He].
    assert (X1 : Qltb s 0 = false) by (apply Qltb_ge; lra).
    assert (X2 : Qltb 0 s = false) by (apply Qltb_ge; lra).
    assert (X3 : Qltb e 0 = false) by (apply Qltb_ge; lra).
    assert (X4 : Qltb 0 e = false) by (apply Qltb_ge; lra).
    assert (X5 : Qltb e s = false) by (apply Qltb_ge; lra).
    now rewrite X1, X2, X3, X4, X5.
  - intro Hnot.
    destruct (Qltb s 0 || Qltb 0 s || Qltb e 0 || Qltb 0 e) eqn:E1;
      [eexists; reflexivity|].
    exfalso. apply Hnot.
    rewrite !orb_false_iff in E1. destruct E1 as [[[A B] C] D].
    apply Qltb_ge in A, B, C, D. split; lra.
Qed.

Lemma applyTimeFilterFromInputs_without_bounds_witness :
  applyTimeFilterFromInputs (Some 0) (Some 0) initialState
  = (set_timeFilter (mkTimeFilter true (Some 0) (Some 0)) initialState, None)
  /\ exists msg,
       applyTimeFilterFromInputs (Some 5) (Some 9) initialState
       = (initialState, Some msg).
Proof.
  split.
  - apply (proj1 (applyTimeFilterFromInputs_without_bounds initialState 0 0
                    eq_refl eq_refl)).
    split; reflexivity.
  - apply (proj2 (applyTimeFilterFromInputs_without_bounds initialState 5 9
                    eq_refl eq_refl)).
    intros [H _]. discriminate H.
Defined.

(** ** Windowed totals and running totals *)

Module BoundedFacts.

Lemma Forall2_map_right {A B : Type} (R : A -> B -> Prop) (f : A -> B)
    (l : list A) :
  Forall (fun x => R x (f x)) l -> Forall2 R l (List.map f l).
Proof. induction 1; simpl; constructor; assumption. Qed.

Lemma windowedSum_le_sumAmounts (tf : TimeFilter) (events : list Ev.t) :
  Forall (fun ev => 0 <= Ev.amount ev) events ->
  windowedSum tf events <= sumAmounts events.
Proof.
  intro H.
  rewrite <- (UnfilteredFacts.windowedSum_all (mkTimeFilter false None None) events)
    by (apply Forall_forall; reflexivity).
  apply WindowFacts.windowedSum_mono; [exact H|reflexivity].
Qed.

End BoundedFacts.

(** X14.  After an ingestion and under any filter,
    [buildAggregatedEntitiesForCurrentTimeFrame] builds one row for each
    entity, in the order of the map and under the name of the entity, and
    each of the three windowed totals of the row lies between 0 and the
    running total of the entity. *)
Theorem windowed_totals_within_running_totals
    (Number : string -> jsnum) (text : string) (st0 : State) (tf : TimeFilter) :
  let st := set_timeFilter tf (ingest Number text st0) in
  Forall2
    (fun e row =>
       AggRow.name row = name e
       /\ (0 <= AggRow.damageDone row /\ AggRow.damageDone row <= damageDone e)
       /\ (0 <= AggRow.healingDone row /\ AggRow.healingDone row <= healingDone e)
       /\ (0 <= AggRow.damageReceived row
           /\ AggRow.damageReceived row <= damageReceived e))
    (EMap.values (entities st))
    (buildAggregatedEntitiesForCurrentTimeFrame st).
Proof.
  intro st. unfold buildAggregatedEntitiesForCurrentTimeFrame.
  apply BoundedFacts.Forall2_map_right.
  destruct (storeOk_ingest Number text st0) as [Hok _].
  unfold EMap.values. rewrite Forall_map.
  eapply Forall_impl; [|exact Hok].
  intros [k e] (H1 & H2 & H3 & H4 & H5 & H6). simpl in *.
  split; [reflexivity|].
  rewrite H1, H2, H3.
  repeat split;
    auto using UnfilteredFacts.windowedSum_nonneg,
      BoundedFacts.windowedSum_le_sumAmounts.
Qed.

(** ** The order of a ranking *)

Module SortFacts.

Section Descending.

Context {A : Type}.
Variable g : A -> Q.

Lemma sort_insert_In (x y : A) (l : list A) :
  In y (sort_insert (fun a b => g b - g a) x l) -> y = x \/ In y l.
Proof.
  intro H. apply (Permutation_in _ (TableFacts.sort_insert_perm _ x l)) in H.
  destruct H as [H|H]; auto.
Qed.

Lemma sort_insert_sorted (x : A) (l : list A) :
  Sorted.StronglySorted (fun a b => g b <= g a) l ->
  Sorted.StronglySorted (fun a b => g b <= g a) (sort_insert (fun a b => g b - g a) x l).
Proof.
  induction 1 as [|y l Hl IH Hy]; simpl.
  - constructor; constructor.
  - destruct (Qle_bool (g y - g x) 0) eqn:E.
    + apply Qle_bool_iff in E. constructor.
      * constructor; assumption.
      * constructor; [lra|].
        eapply Forall_impl; [|exact Hy]. simpl. intros z Hz. lra.
    + constructor; [exact IH|].
      apply Forall_forall. intros z Hz. apply sort_insert_In in Hz.
      destruct Hz as [->|Hz].
      * destruct (Qlt_le_dec (g x) (g y)) as [H|H]; [lra|].
        exfalso. assert (Qle_bool (g y - g x) 0 = true)
          by (apply Qle_bool_iff; lra). congruence.
      * rewrite Forall_forall in Hy. now apply Hy.
Qed.

Lemma sort_sorted (l : list A) :
  Sorted.StronglySorted (fun a b => g b <= g a) (sort (fun a b => g b - g a) l).
Proof.
  induction l as [|x l IH]; simpl; [constructor|].
  now apply sort_insert_sorted.
Qed.

(** The sort is stable: the elements with one value of the key are in the
    sorted list in the order that they had. *)
Lemma sort_insert_stable (v : Q) (x : A) (l : list A) :
  filter (fun a => Qeq_bool (g a) v) (sort_insert (fun a b => g b - g a) x l)
  = filter (fun a => Qeq_bool (g a) v) (x :: l).
Proof.
  induction l as [|y l IH]; [reflexivity|].
  cbn [sort_insert].
  destruct (Qle_bool (g y - g x) 0) eqn:E; [reflexivity|].
  cbn [filter] in *. rewrite IH.
  destruct (Qeq_bool (g x) v) eqn:Ex; [|reflexivity].
  destruct (Qeq_bool (g y) v) eqn:Ey; [|reflexivity].
  exfalso. apply Qeq_bool_iff in Ex, Ey.
  assert (Qle_bool (g y - g x) 0 = true) by (apply Qle_bool_iff; lra).
  congruence.
Qed.

Lemma sort_stable (v : Q) (l : list A) :
  filter (fun a => Qeq_bool (g a) v) (sort (fun a b => g b - g a) l)
  = filter (fun a => Qeq_bool (g a) v) l.
Proof.
  induction l as [|x l IH]; [reflexivity|].
  change (sort (fun a b => g b - g a) (x :: l))
    with (sort_insert (fun a b => g b - g a) x (sort (fun a b => g b - g a) l)).
  rewrite sort_insert_stable. cbn [filter]. now rewrite IH.
Qed.

End Descending.

Lemma StronglySorted_weaken {A : Type} (R R' : A -> A -> Prop) (l : list A) :
  (forall a b, R a b -> R' a b) ->
  Sorted.StronglySorted R l -> Sorted.StronglySorted R' l.
Proof.
  intro H. induction 1 as [|x l Hl IH Hx]; constructor; [exact IH|].
  eapply Forall_impl; [|exact Hx]. auto.
Qed.

Lemma StronglySorted_filter {A : Type} (R : A -> A -> Prop) (f : A -> bool)
    (l : list A) :
  Sorted.StronglySorted R l -> Sorted.StronglySorted R (filter f l).
Proof.
  induction 1 as [|x l Hl IH Hx]; simpl; [constructor|].
  destruct (f x); [|exact IH]. constructor; [exact IH|].
  apply Forall_forall. intros y Hy. apply filter_In in Hy.
  rewrite Forall_forall in Hx. now apply Hx.
Qed.

Lemma StronglySorted_map {A B : Type} (R : B -> B -> Prop) (f : A -> B)
    (l : list A) :
  Sorted.StronglySorted (fun a b => R (f a) (f b)) l -> Sorted.StronglySorted R (List.map f l).
Proof.
  induction 1 as [|x l Hl IH Hx]; simpl; constructor; [exact IH|].
  now rewrite Forall_map.
Qed.

Lemma tableRows_ranks (valueField : string) (includePercent : bool) (total : Q)
    (index : nat) (rows : list AggRow.t) :
  List.map rank (tableRows valueField includePercent total index rows)
  = seq (index + 1) (length rows).
Proof.
  revert index. induction rows as [|row rows IH]; intro index; simpl;
    [reflexivity|].
  now rewrite IH.
Qed.

Lemma tableRows_length (valueField : string) (includePercent : bool) (total : Q)
    (index : nat) (rows : list AggRow.t) :
  length (tableRows valueField includePercent total index rows) = length rows.
Proof.
  revert index. induction rows as [|row rows IH]; intro index; simpl;
    [reflexivity|]. now rewrite IH.
Qed.

Lemma renderEntityTable_some (rows : list AggRow.t) (valueField : string)
    (includePercent : bool) (table : list TableRow) :
  renderEntityTable rows valueField includePercent = Some table ->
  filteredRows rows valueField <> []
  /\ table = tableRows valueField includePercent
               (fold_left (fun sum row => sum + AggRow.num valueField row)
                  (filteredRows rows valueField) 0)
               0 (filteredRows rows valueField).
Proof.
  unfold renderEntityTable.
  destruct (filteredRows rows valueField) as [|row l]; [discriminate|].
  intro H. injection H as <-. split; [discriminate|reflexivity].
Qed.

(** A table rendered from rows sorted by the ranked field is in descending
    order of value, and its ranks count from 1. *)
Lemma renderEntityTable_sorted (valueField : string) (proj : AggRow.t -> Q)
    (rows : list AggRow.t) (includePercent : bool) :
  (forall row, AggRow.get valueField row = Some (proj row)) ->
  let t := renderEntityTable
             (sort (fun a b => proj b - proj a) rows) valueField includePercent in
  Sorted.StronglySorted (fun a b => b <= a) (tableValues t)
  /\ forall table, t = Some table ->
       table <> [] /\ List.map rank table = seq 1 (length table).
Proof.
  intros Hget t. subst t. split.
  - rewrite TableFacts.tableValues_render.
    apply StronglySorted_map. unfold filteredRows, AggRow.num.
    apply StronglySorted_filter.
    eapply StronglySorted_weaken; [|apply (sort_sorted proj)].
    intros a b H. rewrite !Hget. exact H.
  - intros table H. apply renderEntityTable_some in H. destruct H as [Hne ->].
    split.
    + intro E. apply Hne. apply (f_equal (@length _)) in E.
      rewrite tableRows_length in E. now apply length_zero_iff_nil.
    + now rewrite tableRows_ranks, tableRows_length.
Qed.

Lemma filter_comm {A : Type} (f h : A -> bool) (l : list A) :
  filter f (filter h l) = filter h (filter f l).
Proof.
  induction l as [|x l IH]; simpl; [reflexivity|].
  destruct (f x) eqn:Ef, (h x) eqn:Eh; simpl; rewrite ?Ef, ?Eh, IH; reflexivity.
Qed.

(** The rows of a table that have one value are those of the rows given
    to the sort, in the order that they were given. *)
Lemma renderEntityTable_stable (valueField : string) (proj : AggRow.t -> Q)
    (rows : list AggRow.t) (includePercent : bool) (v : Q) :
  (forall row, AggRow.get valueField row = Some (proj row)) ->
  filter (fun c => Qeq_bool (snd c) v)
    (tableCells
       (renderEntityTable (sort (fun a b => proj b - proj a) rows)
          valueField includePercent))
  = positiveCells
      (filter (fun c => Qeq_bool (snd c) v)
         (List.map (fun row => (AggRow.name row, proj row)) rows)).
Proof.
  intro Hget.
  rewrite (RankingFacts.tableCells_render valueField proj Hget).
  unfold positiveCells. rewrite filter_comm. f_equal.
  rewrite !filter_map_swap. simpl. f_equal.
  apply (sort_stable proj).
Qed.

End SortFacts.

(** X15.  In every state, each of the three tables of [renderTables] is
    in descending order of value, has at least one row when it is a table,
    and numbers its rows 1, 2, 3 and so on.  The sort is stable: in each
    table, the rows that have one value are the entities that have that
    value for the metric, when it is above 0, in the order of the rows of
    [buildAggregatedEntitiesForCurrentTimeFrame], which is the order of the
    map. *)
Theorem ranking_tables_sorted_ranked_and_stable (st : State) :
  let aggregated := buildAggregatedEntitiesForCurrentTimeFrame st in
  let ranked (t : option (list TableRow)) :=
    Sorted.StronglySorted (fun a b => b <= a) (tableValues t)
    /\ forall table, t = Some table ->
         table <> [] /\ List.map rank table = seq 1 (length table) in
  let stable (proj : AggRow.t -> Q) (t : option (list TableRow)) :=
    forall v,
      filter (fun c => Qeq_bool (snd c) v) (tableCells t)
      = positiveCells
          (filter (fun c => Qeq_bool (snd c) v)
             (List.map (fun row => (AggRow.name row, proj row)) aggregated)) in
  (ranked (fst (fst (renderTables st)))
   /\ ranked (snd (fst (renderTables st)))
   /\ ranked (snd (renderTables st)))
  /\ stable AggRow.damageDone (fst (fst (renderTables st)))
  /\ stable AggRow.healingDone (snd (fst (renderTables st)))
  /\ stable AggRow.damageReceived (snd (renderTables st)).
Proof.
  intros aggregated ranked stable. split; [|split; [|split]].
  - unfold renderTables. simpl. fold aggregated. subst ranked. simpl.
    split; [|split].
    + apply (SortFacts.renderEntityTable_sorted "damageDone" AggRow.damageDone).
      reflexivity.
    + apply (SortFacts.renderEntityTable_sorted "healingDone" AggRow.healingDone).
      reflexivity.
    + apply (SortFacts.renderEntityTable_sorted "damageReceived"
               AggRow.damageReceived).
      reflexivity.
  - intro v.
    apply (SortFacts.renderEntityTable_stable "damageDone" AggRow.damageDone).
    reflexivity.
  - intro v.
    apply (SortFacts.renderEntityTable_stable "healingDone" AggRow.healingDone).
    reflexivity.
  - intro v.
    apply (SortFacts.renderEntityTable_stable "damageReceived"
             AggRow.damageReceived).
    reflexivity.
Qed.

(** Two entities with the same damage are ranked in the order of the map,
    also when an entity with more damage comes after them. *)
Example ranking_keeps_ties_in_map_order :
  let st := resetTimeFilterToFullRange
              (ingest Number
                 ("1,DMG,A,X,Hit,5,Health,Normal"
                  ++ String Str.LF "2,DMG,B,X,Hit,5,Health,Normal"
                  ++ String Str.LF "3,DMG,C,X,Hit,9,Health,Normal")
                 initialState) in
  option_map (List.map entity) (fst (fst (renderTables st)))
  = Some ["C"; "A"; "B"].
Proof. vm_compute. reflexivity. Qed.

(** ** Maps built by a query *)

Module SMapFacts.

Section Values.

Context {V : Type}.

Lemma lookup_set (k k' : string) (v : V) (m : list (string * V)) :
  SMap.get k' (SMap.set k v m)
  = if String.eqb k k' then Some v else SMap.get k' m.
Proof.
  induction m as [|[k0 v0] m IH]; simpl.
  - reflexivity.
  - destruct (String.eqb k0 k) eqn:E1; destruct (String.eqb k0 k') eqn:E2;
      destruct (String.eqb k k') eqn:E3; simpl; rewrite ?E1, ?E2, ?E3;
      try reflexivity; try (rewrite IH, E3; reflexivity);
      rewrite ?String.eqb_eq, ?String.eqb_neq in *; congruence.
Qed.

Lemma lookup_None_iff (k : string) (m : list (string * V)) :
  SMap.get k m = None <-> ~ In k (List.map fst m).
Proof.
  induction m as [|[k0 v] m IH]; simpl; [tauto|].
  destruct (String.eqb_spec k0 k) as [->|Hne].
  - split; [discriminate|]. intro H. exfalso. apply H. now left.
  - rewrite IH. tauto.
Qed.

Lemma set_present (k : string) (v : V) (m : list (string * V)) :
  SMap.get k m <> None -> List.map fst (SMap.set k v m) = List.map fst m.
Proof.
  induction m as [|[k0 v0] m IH]; simpl; [congruence|].
  destruct (String.eqb_spec k0 k) as [->|Hne]; simpl; [reflexivity|].
  intro H. now rewrite IH.
Qed.

Lemma set_fresh (k : string) (v : V) (m : list (string * V)) :
  SMap.get k m = None -> SMap.set k v m = (m ++ [(k, v)])%list.
Proof.
  induction m as [|[k0 v0] m IH]; simpl; [reflexivity|].
  destruct (String.eqb k0 k); [discriminate|]. intro H. now rewrite IH.
Qed.

Lemma NoDup_set (k : string) (v : V) (m : list (string * V)) :
  NoDup (List.map fst m) -> NoDup (List.map fst (SMap.set k v m)).
Proof.
  intro H. destruct (SMap.get k m) eqn:E.
  - rewrite set_present; [exact H|congruence].
  - rewrite (set_fresh k v m E), map_app. simpl.
    apply NoDup_app; [exact H|repeat constructor; simpl; tauto|].
    intros x Hx [<-|[]]. apply lookup_None_iff in E. contradiction.
Qed.

Lemma In_lookup (k : string) (v : V) (m : list (string * V)) :
  NoDup (List.map fst m) ->
  (In (k, v) m <-> SMap.get k m = Some v).
Proof.
  induction m as [|[k0 v0] m IH]; simpl; intro Hnd.
  - split; [contradiction|discriminate].
  - inversion Hnd as [|x l Hnotin Hnd']; subst.
    destruct (String.eqb_spec k0 k) as [->|Hne].
    + split.
      * intros [H|H]; [congruence|].
        exfalso. apply Hnotin. apply (in_map fst) in H. exact H.
      * intro H. left. congruence.
    + rewrite <- (IH Hnd'). split; [|tauto].
      intros [H|H]; [congruence|exact H].
Qed.

End Values.

Lemma orZero_value (x : option Q) : orZero x == valueOr0 x.
Proof.
  destruct x as [v|]; simpl; [|reflexivity].
  destruct (Qeq_bool v 0) eqn:E; [|reflexivity].
  apply Qeq_bool_iff in E. now rewrite E.
Qed.

Lemma sumNat_set (k : string) (v : nat) (m : list (string * nat)) :
  (list_sum (List.map snd (SMap.set k v m)) + orZeroNat (SMap.get k m)
   = list_sum (List.map snd m) + v)%nat.
Proof.
  induction m as [|[k0 v0] m IH]; simpl; [lia|].
  destruct (String.eqb k0 k); simpl; lia.
Qed.

End SMapFacts.

(** ** Breakdowns by amount *)

Module GroupFacts.

Section Group.

Variable tf : TimeFilter.
Variable key : Ev.t -> string.

Lemma groupSum_cons (e : Ev.t) (events : list Ev.t) (m0 : list (string * Q)) :
  groupSum tf key (e :: events) m0
  = groupSum tf key events
      (if negb (isInCurrentTimeFrame tf (Ev.timestamp e)) then m0
       else SMap.set (key e) (orZero (SMap.get (key e) m0) + Ev.amount e) m0).
Proof. reflexivity. Qed.

Lemma groupSum_NoDup (events : list Ev.t) (m0 : list (string * Q)) :
  NoDup (List.map fst m0) -> NoDup (List.map fst (groupSum tf key events m0)).
Proof.
  revert m0. induction events as [|e events IH]; intros m0 H; [exact H|].
  rewrite groupSum_cons. apply IH.
  destruct (negb (isInCurrentTimeFrame tf (Ev.timestamp e))); [exact H|].
  now apply SMapFacts.NoDup_set.
Qed.

Lemma keyTotal_sumQ (events : list Ev.t) (k : string) :
  keyTotal tf key k events
  == sumQ (List.map Ev.amount (keyEvents tf key k events)).
Proof.
  unfold keyTotal, sumAmounts. rewrite TableFacts.fold_left_sumQ. lra.
Qed.

Lemma groupSum_value (events : list Ev.t) (m0 : list (string * Q)) (k : string) :
  valueOr0 (SMap.get k (groupSum tf key events m0))
  == valueOr0 (SMap.get k m0) + keyTotal tf key k events.
Proof.
  revert m0. induction events as [|e events IH]; intro m0.
  - unfold keyTotal, sumAmounts. simpl. lra.
  - rewrite groupSum_cons, IH, !keyTotal_sumQ. unfold keyEvents. simpl.
    destruct (isInCurrentTimeFrame tf (Ev.timestamp e)); simpl; [|reflexivity].
    rewrite SMapFacts.lookup_set.
    destruct (String.eqb (key e) k) eqn:E; simpl; [|reflexivity].
    apply String.eqb_eq in E. subst k.
    rewrite SMapFacts.orZero_value. lra.
Qed.

Lemma groupSum_present (events : list Ev.t) (m0 : list (string * Q)) (k : string) :
  SMap.get k (groupSum tf key events m0) <> None
  <-> SMap.get k m0 <> None \/ keyEvents tf key k events <> [].
Proof.
  revert m0. induction events as [|e events IH]; intro m0.
  - simpl. tauto.
  - rewrite groupSum_cons, IH. unfold keyEvents. simpl.
    destruct (isInCurrentTimeFrame tf (Ev.timestamp e)); simpl; [|tauto].
    rewrite SMapFacts.lookup_set.
    destruct (String.eqb (key e) k) eqn:E; simpl.
    + split; intros _; [right|left]; discriminate.
    + tauto.
Qed.

(** What the loop builds from the empty map. *)
Lemma groupSum_spec (events : list Ev.t) :
  let result := groupSum tf key events [] in
  NoDup (List.map fst result)
  /\ (forall k v, In (k, v) result <-> SMap.get k result = Some v)
  /\ (forall k v, SMap.get k result = Some v ->
        v == keyTotal tf key k events /\ keyEvents tf key k events <> [])
  /\ (forall k, SMap.get k result = None -> keyEvents tf key k events = []).
Proof.
  intro result.
  assert (Hnd : NoDup (List.map fst result))
    by (apply groupSum_NoDup; constructor).
  split; [exact Hnd|]. split; [|split].
  - intros k v. now apply SMapFacts.In_lookup.
  - intros k v H. split.
    + pose proof (groupSum_value events [] k) as Hv. fold result in Hv.
      rewrite H in Hv. simpl in Hv. lra.
    + assert (Hp : SMap.get k result <> None) by congruence.
      apply groupSum_present in Hp. destruct Hp as [Hp|Hp]; [|exact Hp].
      now contradiction Hp.
  - intros k H. destruct (keyEvents tf key k events) eqn:E; [reflexivity|].
    exfalso.
    assert (Hp : SMap.get k result <> None)
      by (apply groupSum_present; right; rewrite E; discriminate).
    contradiction.
Qed.

End Group.

End GroupFacts.

(** X16.  The breakdown of the damage of an entity by skill has one entry
    for each key that a damage event in the window has, the key of an
    event being its skill, or "(no skill)" when the skill is empty, and no
    other entry.  The value of an entry is the amounts of the events in the
    window with that key, added from 0 in the order of the history.  The
    breakdown of the healing is built the same way from the heal events. *)
Theorem skill_breakdowns_group_the_window (tf : TimeFilter) (entity : Entity) :
  let spec (events : list Ev.t) (result : list (string * Q)) :=
    NoDup (List.map fst result)
    /\ (forall k v, In (k, v) result <-> SMap.get k result = Some v)
    /\ (forall k v, SMap.get k result = Some v ->
          v == keyTotal tf skillKey k events
          /\ keyEvents tf skillKey k events <> [])
    /\ (forall k, SMap.get k result = None -> keyEvents tf skillKey k events = []) in
  spec (damageEvents entity) (buildEntityDamageBySkill tf entity)
  /\ spec (healEvents entity) (buildEntityHealingBySkill tf entity).
Proof.
  intro spec. split.
  - exact (GroupFacts.groupSum_spec tf skillKey (damageEvents entity)).
  - exact (GroupFacts.groupSum_spec tf skillKey (healEvents entity)).
Qed.

(** ** The top damage sources *)

Module TopFacts.

Lemma set_length {V : Type} (k : string) (v : V) (m : list (string * V)) :
  (length (SMap.set k v m) <= S (length m))%nat.
Proof.
  induction m as [|[k0 v0] m IH]; simpl; [lia|].
  destruct (String.eqb k0 k); simpl; lia.
Qed.

Lemma groupSum_length (tf : TimeFilter) (key : Ev.t -> string)
    (events : list Ev.t) (m0 : list (string * Q)) :
  (length (groupSum tf key events m0) <= length m0 + length events)%nat.
Proof.
  revert m0. induction events as [|e events IH]; intro m0; [simpl; lia|].
  rewrite GroupFacts.groupSum_cons. etransitivity; [apply IH|].
  destruct (negb (isInCurrentTimeFrame tf (Ev.timestamp e))); [simpl; lia|].
  pose proof (set_length (key e)
                (orZero (SMap.get (key e) m0) + Ev.amount e) m0).
  simpl. lia.
Qed.

End TopFacts.

(** X17.  [buildEntityTopDamageSources] returns the first [limit] entries
    of the breakdown of the damage received of the entity by attacker,
    sorted in descending order of amount: at most [limit] entries, with
    distinct keys, each holding the amounts of the events in the window
    with that key, added from 0 in the order of the history (the key of an
    event is its source, or "(unknown)" when the source is empty).  An
    attacker that is left out has no more than each of those shown. *)
Theorem top_damage_sources_are_a_prefix
    (tf : TimeFilter) (entity : Entity) (limit : nat) :
  let events := damageTakenEvents entity in
  let top := buildEntityTopDamageSources tf entity limit in
  let all := buildEntityTopDamageSources tf entity (length events) in
  top = firstn limit all
  /\ (length top <= limit)%nat
  /\ Sorted.StronglySorted (fun a b => b <= a) (List.map snd all)
  /\ NoDup (List.map fst all)
  /\ (forall k v, In (k, v) all ->
        v == keyTotal tf sourceKey k events
        /\ keyEvents tf sourceKey k events <> [])
  /\ (forall k, keyEvents tf sourceKey k events <> [] ->
        exists v, In (k, v) all)
  /\ (forall shown left, In shown top -> In left (skipn limit all) ->
        snd left <= snd shown).
Proof.
  intros events top all.
  set (map := groupSum tf sourceKey events []).
  set (sorted := sort (fun a b : string * Q => snd b - snd a) map).
  assert (Etop : top = firstn limit sorted) by reflexivity.
  assert (Hperm : Permutation sorted map) by apply TableFacts.sort_perm.
  destruct (GroupFacts.groupSum_spec tf sourceKey events)
    as (Hnd & Hin & Hval & Hnone). fold map in Hnd, Hin, Hval, Hnone.
  assert (Eall : all = sorted).
  { change all with (firstn (length events) sorted).
    apply firstn_all2. rewrite (Permutation_length Hperm).
    apply (TopFacts.groupSum_length tf sourceKey events []). }
  assert (Hsorted : Sorted.StronglySorted (fun a b => snd b <= snd a) sorted)
    by apply (SortFacts.sort_sorted snd).
  rewrite Eall, Etop. split; [reflexivity|]. split; [apply firstn_le_length|].
  split; [|split; [|split; [|split]]].
  - now apply SortFacts.StronglySorted_map.
  - eapply Permutation_NoDup; [|exact Hnd].
    apply Permutation_map, Permutation_sym, Hperm.
  - intros k v H.
    apply (Permutation_in _ Hperm) in H. apply Hin in H. now apply Hval.
  - intros k Hk. destruct (SMap.get k map) as [v|] eqn:E.
    + exists v. apply (Permutation_in _ (Permutation_sym Hperm)). now apply Hin.
    + now contradiction Hk; apply Hnone.
  - intros shown left Hs Hl.
    rewrite <- (firstn_skipn limit sorted) in Hsorted.
    revert Hs Hl Hsorted.
    generalize (firstn limit sorted) as l1. generalize (skipn limit sorted) as l2.
    intros l2 l1 Hs Hl Hsorted.
    induction l1 as [|x l1 IH]; [contradiction|].
    simpl in Hsorted. inversion Hsorted as [|? ? Hrest Hx]; subst.
    destruct Hs as [->|Hs]; [|now apply IH].
    rewrite Forall_forall in Hx. apply Hx. apply in_or_app. now right.
Qed.

(** ** The applied effects *)

Module EffectFacts.

Lemma append_eqb (p a b : string) :
  String.eqb (p ++ a) (p ++ b) = String.eqb a b.
Proof.
  induction p as [|c p IH]; simpl; [reflexivity|].
  now rewrite Ascii.eqb_refl.
Qed.

Lemma splitColons_nonempty (s : string) : splitColons s <> [].
Proof.
  induction s as [|c s IH]; simpl; [discriminate|].
  destruct (Ascii.eqb c ":").
  - destruct s as [|c' s']; [destruct (splitColons ""); discriminate|].
    destruct (Ascii.eqb c' ":"); [discriminate|].
    destruct (splitColons (String c' s')); discriminate.
  - destruct (splitColons s); discriminate.
Qed.

(** The row of a key that has the prefix of a kind. *)
Lemma row_of_buff_key (n : string) :
  nth 0 (splitColons ("BUFF::" ++ n)) "" = "BUFF"
  /\ nth_error (splitColons ("BUFF::" ++ n)) 1 = Some (hd "" (splitColons n)).
Proof.
  change (splitColons ("BUFF::" ++ n)) with ("BUFF" :: splitColons n).
  pose proof (splitColons_nonempty n).
  destruct (splitColons n); [contradiction|]. split; reflexivity.
Qed.

Lemma row_of_debuff_key (n : string) :
  nth 0 (splitColons ("DEBUFF::" ++ n)) "" = "DEBUFF"
  /\ nth_error (splitColons ("DEBUFF::" ++ n)) 1 = Some (hd "" (splitColons n)).
Proof.
  change (splitColons ("DEBUFF::" ++ n)) with ("DEBUFF" :: splitColons n).
  pose proof (splitColons_nonempty n).
  destruct (splitColons n); [contradiction|]. split; reflexivity.
Qed.

Lemma filter_none {A : Type} (f : A -> bool) (l : list A) :
  (forall x, f x = false) -> filter f l = [].
Proof.
  intro H. induction l as [|x l IH]; simpl; [reflexivity|]. now rewrite H.
Qed.

Lemma list_sum_perm (l l' : list nat) :
  Permutation l l' -> list_sum l = list_sum l'.
Proof. induction 1; simpl; lia. Qed.

Lemma natQ_le (a b : nat) : natQ a <= natQ b <-> (a <= b)%nat.
Proof. unfold natQ. rewrite <- Zle_Qle. lia. Qed.

Section Count.

Variable tf : TimeFilter.
Variable prefix : string.

Lemma groupCount_cons (e : Fx.t) (events : list Fx.t) (m0 : list (string * nat)) :
  groupCount tf prefix (e :: events) m0
  = groupCount tf prefix events
      (if negb (isInCurrentTimeFrame tf (Fx.timestamp e)) then m0
       else SMap.set (prefix ++ effectNameKey e)
              (orZeroNat (SMap.get (prefix ++ effectNameKey e) m0) + 1)%nat m0).
Proof. reflexivity. Qed.

Lemma groupCount_NoDup (events : list Fx.t) (m0 : list (string * nat)) :
  NoDup (List.map fst m0) ->
  NoDup (List.map fst (groupCount tf prefix events m0)).
Proof.
  revert m0. induction events as [|e events IH]; intros m0 H; [exact H|].
  rewrite groupCount_cons. apply IH.
  destruct (negb (isInCurrentTimeFrame tf (Fx.timestamp e))); [exact H|].
  now apply SMapFacts.NoDup_set.
Qed.

Lemma groupCount_value (events : list Fx.t) (m0 : list (string * nat))
    (k : string) :
  orZeroNat (SMap.get k (groupCount tf prefix events m0))
  = (orZeroNat (SMap.get k m0) + length (countedUnder tf prefix k events))%nat.
Proof.
  revert m0. induction events as [|e events IH]; intro m0.
  - simpl. lia.
  - rewrite groupCount_cons, IH. unfold countedUnder. simpl.
    destruct (isInCurrentTimeFrame tf (Fx.timestamp e)); simpl; [|reflexivity].
    rewrite SMapFacts.lookup_set.
    destruct (String.eqb (prefix ++ effectNameKey e) k) eqn:E; simpl; [|reflexivity].
    apply String.eqb_eq in E. subst k. lia.
Qed.

Lemma groupCount_present (events : list Fx.t) (m0 : list (string * nat))
    (k : string) :
  SMap.get k (groupCount tf prefix events m0) <> None
  <-> SMap.get k m0 <> None \/ countedUnder tf prefix k events <> [].
Proof.
  revert m0. induction events as [|e events IH]; intro m0.
  - simpl. tauto.
  - rewrite groupCount_cons, IH. unfold countedUnder. simpl.
    destruct (isInCurrentTimeFrame tf (Fx.timestamp e)); simpl; [|tauto].
    rewrite SMapFacts.lookup_set.
    destruct (String.eqb (prefix ++ effectNameKey e) k) eqn:E; simpl.
    + split; intros _; [right|left]; discriminate.
    + tauto.
Qed.

Lemma groupCount_total (events : list Fx.t) (m0 : list (string * nat)) :
  list_sum (List.map snd (groupCount tf prefix events m0))
  = (list_sum (List.map snd m0) + length (windowedEffects tf events))%nat.
Proof.
  revert m0. induction events as [|e events IH]; intro m0.
  - simpl. lia.
  - rewrite groupCount_cons, IH. unfold windowedEffects. simpl.
    destruct (isInCurrentTimeFrame tf (Fx.timestamp e)); simpl; [|lia].
    pose proof (SMapFacts.sumNat_set (prefix ++ effectNameKey e)
                  (orZeroNat (SMap.get (prefix ++ effectNameKey e) m0) + 1) m0).
    lia.
Qed.

(** A key under which an event is counted has the prefix and the name of
    the event. *)
Lemma counted_under_key (k : string) (events : list Fx.t) :
  countedUnder tf prefix k events <> [] ->
  exists n, k = prefix ++ n /\ countedUnder tf prefix k events = namedEffects tf n events.
Proof.
  intro H. destruct (countedUnder tf prefix k events) as [|e l] eqn:E; [contradiction|].
  assert (He : In e (countedUnder tf prefix k events)) by (rewrite E; now left).
  apply filter_In in He. destruct He as [_ He].
  apply andb_true_iff in He. destruct He as [_ He]. apply String.eqb_eq in He.
  exists (effectNameKey e). split; [now symmetry|].
  rewrite <- E. unfold countedUnder, namedEffects. subst k.
  apply filter_ext. intro x. now rewrite append_eqb.
Qed.

Lemma counted_under_named (n : string) (events : list Fx.t) :
  countedUnder tf prefix (prefix ++ n) events = namedEffects tf n events.
Proof.
  unfold countedUnder, namedEffects.
  apply filter_ext. intro x. now rewrite append_eqb.
Qed.

End Count.

End EffectFacts.

Module AppliedFacts.

Import EffectFacts.

Section Applied.

Variable tf : TimeFilter.
Variable entity : Entity.

(** The map that the two loops of [buildEntityAppliedBuffsByEffect]
    build. *)
Lemma applied_rows :
  buildEntityAppliedBuffsByEffect tf entity
  = sort (fun a b => natQ (FxRow.count b) - natQ (FxRow.count a))
      (List.map
         (fun kc => FxRow.mk (nth 0 (splitColons (fst kc)) "")
                      (nth_error (splitColons (fst kc)) 1) (snd kc))
         (groupCount tf "DEBUFF::" (debuffsApplied entity)
            (groupCount tf "BUFF::" (buffsApplied entity) []))).
Proof. reflexivity. Qed.

Lemma buff_key_count (n : string) :
  orZeroNat (SMap.get ("BUFF::" ++ n)
               (groupCount tf "DEBUFF::" (debuffsApplied entity)
                  (groupCount tf "BUFF::" (buffsApplied entity) [])))
  = length (namedEffects tf n (buffsApplied entity)).
Proof.
  rewrite !groupCount_value, counted_under_named. simpl.
  unfold countedUnder. rewrite filter_none; [simpl; lia|].
  intro x. apply andb_false_iff. right. reflexivity.
Qed.

Lemma debuff_key_count (n : string) :
  orZeroNat (SMap.get ("DEBUFF::" ++ n)
               (groupCount tf "DEBUFF::" (debuffsApplied entity)
                  (groupCount tf "BUFF::" (buffsApplied entity) [])))
  = length (namedEffects tf n (debuffsApplied entity)).
Proof.
  rewrite !groupCount_value, counted_under_named. simpl.
  unfold countedUnder. rewrite filter_none; [simpl; lia|].
  intro x. apply andb_false_iff. right. reflexivity.
Qed.

(** A key of the map is the key of a buff or of a debuff of the window. *)
Lemma applied_key (k : string) :
  SMap.get k (groupCount tf "DEBUFF::" (debuffsApplied entity)
                (groupCount tf "BUFF::" (buffsApplied entity) [])) <> None ->
  exists n,
    (k = "BUFF::" ++ n /\ namedEffects tf n (buffsApplied entity) <> [])
    \/ (k = "DEBUFF::" ++ n /\ namedEffects tf n (debuffsApplied entity) <> []).
Proof.
  intro H. apply groupCount_present in H. destruct H as [H|H].
  - apply groupCount_present in H. destruct H as [H|H]; [now contradiction H|].
    destruct (counted_under_key tf "BUFF::" k _ H) as (n & -> & E).
    exists n. left. split; [reflexivity|]. now rewrite <- E.
  - destruct (counted_under_key tf "DEBUFF::" k _ H) as (n & -> & E).
    exists n. right. split; [reflexivity|]. now rewrite <- E.
Qed.

(** The row of a key of the map. *)
Lemma applied_row (k : string) (c : nat) :
  SMap.get k (groupCount tf "DEBUFF::" (debuffsApplied entity)
                (groupCount tf "BUFF::" (buffsApplied entity) [])) = Some c ->
  exists n,
    nth_error (splitColons k) 1 = Some (hd "" (splitColons n))
    /\ ((nth 0 (splitColons k) "" = "BUFF"
         /\ namedEffects tf n (buffsApplied entity) <> []
         /\ c = length (namedEffects tf n (buffsApplied entity)))
        \/ (nth 0 (splitColons k) "" = "DEBUFF"
            /\ namedEffects tf n (debuffsApplied entity) <> []
            /\ c = length (namedEffects tf n (debuffsApplied entity)))).
Proof.
  intro Hk.
  assert (Hp : SMap.get k
                 (groupCount tf "DEBUFF::" (debuffsApplied entity)
                    (groupCount tf "BUFF::" (buffsApplied entity) [])) <> None)
    by congruence.
  destruct (applied_key k Hp) as (n & [[-> Hn]|[-> Hn]]); exists n.
  - destruct (row_of_buff_key n) as [E0 E1].
    split; [exact E1|]. left. split; [exact E0|]. split; [exact Hn|].
    pose proof (buff_key_count n) as Hc. rewrite Hk in Hc. exact Hc.
  - destruct (row_of_debuff_key n) as [E0 E1].
    split; [exact E1|]. right. split; [exact E0|]. split; [exact Hn|].
    pose proof (debuff_key_count n) as Hc. rewrite Hk in Hc. exact Hc.
Qed.

(** Every row is a row of buffs or a row of debuffs. *)
Lemma applied_row_type (r : FxRow.t) :
  In r (buildEntityAppliedBuffsByEffect tf entity) ->
  FxRow.type r = "BUFF" \/ FxRow.type r = "DEBUFF".
Proof.
  rewrite applied_rows. intro Hr.
  apply (Permutation_in _ (TableFacts.sort_perm _ _)) in Hr.
  apply in_map_iff in Hr. destruct Hr as ([k c] & <- & Hkc).
  apply SMapFacts.In_lookup in Hkc;
    [|do 2 apply groupCount_NoDup; constructor].
  destruct (applied_row k c Hkc) as (n & _ & [(H & _)|(H & _)]); auto.
Qed.

End Applied.

End AppliedFacts.

(** X18.  [buildEntityAppliedBuffsByEffect] counts the buffs and the
    debuffs that the entity applied in the window: the counts of its rows
    add up to the number of those events, and the rows are in descending
    order of count.  There is one row for each kind and each name under
    which an event is counted (its effect name, or "(unknown)" when that is
    empty), with the number of those events as its count; but the [name] of
    the row is only the part of that name before its first "::", since the
    key is split on "::" and its second element taken.  Every buff and
    every debuff of the window is counted in a row. *)
Theorem applied_effects_rows_count_the_window (tf : TimeFilter) (entity : Entity) :
  let rows := buildEntityAppliedBuffsByEffect tf entity in
  let buffs := buffsApplied entity in
  let debuffs := debuffsApplied entity in
  list_sum (List.map FxRow.count rows)
  = (length (windowedEffects tf buffs) + length (windowedEffects tf debuffs))%nat
  /\ Sorted.StronglySorted (fun a b => (b <= a)%nat) (List.map FxRow.count rows)
  /\ (forall r, In r rows ->
        exists n,
          FxRow.name r = Some (hd "" (splitColons n))
          /\ ((FxRow.type r = "BUFF"
               /\ namedEffects tf n buffs <> []
               /\ FxRow.count r = length (namedEffects tf n buffs))
              \/ (FxRow.type r = "DEBUFF"
                  /\ namedEffects tf n debuffs <> []
                  /\ FxRow.count r = length (namedEffects tf n debuffs))))
  /\ (forall e, In e (windowedEffects tf buffs) ->
        In (FxRow.mk "BUFF" (Some (hd "" (splitColons (effectNameKey e))))
              (length (namedEffects tf (effectNameKey e) buffs))) rows)
  /\ (forall e, In e (windowedEffects tf debuffs) ->
        In (FxRow.mk "DEBUFF" (Some (hd "" (splitColons (effectNameKey e))))
              (length (namedEffects tf (effectNameKey e) debuffs))) rows).
Proof.
  intros rows buffs debuffs. subst buffs debuffs.
  set (buffs := buffsApplied entity). set (debuffs := debuffsApplied entity).
  set (map := groupCount tf "DEBUFF::" debuffs (groupCount tf "BUFF::" buffs [])).
  set (rowOf := fun kc : string * nat =>
                  FxRow.mk (nth 0 (splitColons (fst kc)) "")
                    (nth_error (splitColons (fst kc)) 1) (snd kc)).
  assert (Erows : rows = sort (fun a b => natQ (FxRow.count b) - natQ (FxRow.count a))
                           (List.map rowOf map)) by reflexivity.
  assert (Hperm : Permutation rows (List.map rowOf map))
    by (rewrite Erows; apply TableFacts.sort_perm).
  assert (Hnd : NoDup (List.map fst map))
    by (unfold map; do 2 apply EffectFacts.groupCount_NoDup; constructor).
  assert (Hrow : forall k c,
             SMap.get k map = Some c ->
             exists n,
               FxRow.name (rowOf (k, c)) = Some (hd "" (splitColons n))
               /\ ((FxRow.type (rowOf (k, c)) = "BUFF"
                    /\ namedEffects tf n buffs <> []
                    /\ c = length (namedEffects tf n buffs))
                   \/ (FxRow.type (rowOf (k, c)) = "DEBUFF"
                       /\ namedEffects tf n debuffs <> []
                       /\ c = length (namedEffects tf n debuffs))))
    by (intros k c Hk; exact (AppliedFacts.applied_row tf entity k c Hk)).
  split; [|split; [|split; [|split]]].
  - rewrite (EffectFacts.list_sum_perm _ _ (Permutation_map FxRow.count Hperm)).
    rewrite map_map. simpl. unfold map.
    rewrite !EffectFacts.groupCount_total. simpl. lia.
  - apply SortFacts.StronglySorted_map. rewrite Erows.
    eapply SortFacts.StronglySorted_weaken;
      [|apply (SortFacts.sort_sorted (fun r => natQ (FxRow.count r)))].
    intros a b H. now apply EffectFacts.natQ_le.
  - intros r Hr. apply (Permutation_in _ Hperm) in Hr.
    apply in_map_iff in Hr. destruct Hr as ([k c] & <- & Hkc).
    apply (SMapFacts.In_lookup k c map Hnd) in Hkc.
    destruct (Hrow k c Hkc) as (n & Hname & H). exists n. split; [exact Hname|].
    exact H.
  - intros e He. apply filter_In in He. destruct He as [Hin Hwin].
    set (n := effectNameKey e).
    assert (Hn : namedEffects tf n buffs <> []).
    { intro E. assert (X : In e (namedEffects tf n buffs)).
      { apply filter_In. split; [exact Hin|].
        rewrite Hwin. unfold n. now rewrite String.eqb_refl. }
      rewrite E in X. contradiction. }
    pose proof (AppliedFacts.buff_key_count tf entity n) as Hc.
    fold buffs debuffs map in Hc.
    destruct (SMap.get ("BUFF::" ++ n) map) as [c|] eqn:Ek.
    + simpl in Hc. subst c.
      apply (SMapFacts.In_lookup _ _ map Hnd) in Ek.
      apply (Permutation_in _ (Permutation_sym Hperm)).
      apply in_map_iff. eexists. split; [|exact Ek].
      destruct (EffectFacts.row_of_buff_key n) as [E0 E1].
      exact (f_equal2 (fun t nm => FxRow.mk t nm _) E0 E1).
    + simpl in Hc. exfalso. apply Hn.
      now apply length_zero_iff_nil.
  - intros e He. apply filter_In in He. destruct He as [Hin Hwin].
    set (n := effectNameKey e).
    assert (Hn : namedEffects tf n debuffs <> []).
    { intro E. assert (X : In e (namedEffects tf n debuffs)).
      { apply filter_In. split; [exact Hin|].
        rewrite Hwin. unfold n. now rewrite String.eqb_refl. }
      rewrite E in X. contradiction. }
    pose proof (AppliedFacts.debuff_key_count tf entity n) as Hc.
    fold buffs debuffs map in Hc.
    destruct (SMap.get ("DEBUFF::" ++ n) map) as [c|] eqn:Ek.
    + simpl in Hc. subst c.
      apply (SMapFacts.In_lookup _ _ map Hnd) in Ek.
      apply (Permutation_in _ (Permutation_sym Hperm)).
      apply in_map_iff. eexists. split; [|exact Ek].
      destruct (EffectFacts.row_of_debuff_key n) as [E0 E1].
      exact (f_equal2 (fun t nm => FxRow.mk t nm _) E0 E1).
    + simpl in Hc. exfalso. apply Hn.
      now apply length_zero_iff_nil.
Qed.

(** ** The details of an entity *)

Module DetailsFacts.

Lemma groupSum_nothing (tf : TimeFilter) (key : Ev.t -> string)
    (events : list Ev.t) (m0 : list (string * Q)) :
  (forall ev, In ev events -> isInCurrentTimeFrame tf (Ev.timestamp ev) = false) ->
  groupSum tf key events m0 = m0.
Proof.
  revert m0. induction events as [|e events IH]; intros m0 H; [reflexivity|].
  rewrite GroupFacts.groupSum_cons, (H e (or_introl eq_refl)). simpl.
  apply IH. intros ev Hev. apply H. now right.
Qed.

Lemma groupCount_nothing (tf : TimeFilter) (prefix : string)
    (events : list Fx.t) (m0 : list (string * nat)) :
  (forall fx, In fx events -> isInCurrentTimeFrame tf (Fx.timestamp fx) = false) ->
  groupCount tf prefix events m0 = m0.
Proof.
  revert m0. induction events as [|e events IH]; intros m0 H; [reflexivity|].
  rewrite EffectFacts.groupCount_cons, (H e (or_introl eq_refl)). simpl.
  apply IH. intros ev Hev. apply H. now right.
Qed.

Lemma metricRows_cells (total : Q) (entries : list (string * Q)) :
  metricCells (metricRows total entries) = entries.
Proof.
  unfold metricCells, metricRows. rewrite map_map. simpl.
  rewrite <- (map_id entries) at 2. apply map_ext. now intros [k v].
Qed.

Lemma metricRows_amounts (total : Q) (entries : list (string * Q)) :
  List.map metricAmount (metricRows total entries) = List.map snd entries.
Proof. unfold metricRows. rewrite map_map. reflexivity. Qed.

Lemma metricRows_percentages (total : Q) (entries : list (string * Q)) :
  percentagesOf total (metricRows total entries).
Proof.
  unfold percentagesOf, metricRows. rewrite Forall_map.
  apply Forall_forall. intros kv _. reflexivity.
Qed.

Lemma filter_partition {A : Type} (f g : A -> bool) (l : list A) :
  (forall x, In x l -> f x = negb (g x)) ->
  Permutation (filter f l ++ filter g l) l.
Proof.
  induction l as [|x l IH]; intro H; simpl; [constructor|].
  assert (IH' : Permutation (filter f l ++ filter g l) l)
    by (apply IH; intros y Hy; apply H; now right).
  rewrite (H x (or_introl eq_refl)).
  destruct (g x); simpl.
  - rewrite <- Permutation_middle. now constructor.
  - now constructor.
Qed.

End DetailsFacts.

(** X19.  [renderEntityDetails] asks for a name exactly when the name is
    empty, and reports "Entity not found" exactly when the name is not
    empty and is not a key of [entities].  An entity that is in the map
    but has no event in the window is not reported as not found: its five
    tables are shown, all empty. *)
Theorem details_not_found_is_not_no_data (entityName : string) (st : State) :
  (renderEntityDetails entityName st = PleaseType <-> entityName = "")
  /\ (forall n,
        renderEntityDetails entityName st = EntityNotFound n
        <-> entityName <> "" /\ n = entityName
            /\ EMap.get entityName (entities st) = None)
  /\ (forall entity,
        entityName <> "" ->
        EMap.get entityName (entities st) = Some entity ->
        (forall ev,
           In ev (damageEvents entity ++ healEvents entity
                  ++ damageTakenEvents entity)%list ->
           isInCurrentTimeFrame (timeFilter st) (Ev.timestamp ev) = false) ->
        (forall fx,
           In fx (buffsApplied entity ++ debuffsApplied entity)%list ->
           isInCurrentTimeFrame (timeFilter st) (Fx.timestamp fx) = false) ->
        renderEntityDetails entityName st = Details [] [] [] [] []).
Proof.
  unfold renderEntityDetails. split; [|split].
  - destruct entityName as [|c s]; simpl; [tauto|].
    destruct (EMap.get (String c s) (entities st)); split; discriminate.
  - intro n. destruct entityName as [|c s]; simpl.
    + split; [discriminate|]. intros [H _]. now contradiction H.
    + destruct (EMap.get (String c s) (entities st)).
      * split; [discriminate|]. intros (_ & _ & H). discriminate H.
      * split.
        -- intro H. injection H as <-. repeat split. discriminate.
        -- intros (_ & -> & _). reflexivity.
  - intros entity Hne Hget Hev Hfx.
    destruct entityName as [|c s]; [now contradiction Hne|]. simpl.
    rewrite Hget.
    assert (H1 : buildEntityDamageBySkill (timeFilter st) entity = []).
    { apply (DetailsFacts.groupSum_nothing _ skillKey).
      intros ev H. apply Hev. apply in_or_app. now left. }
    assert (H2 : buildEntityHealingBySkill (timeFilter st) entity = []).
    { apply (DetailsFacts.groupSum_nothing _ skillKey).
      intros ev H. apply Hev. apply in_or_app. right. apply in_or_app. now left. }
    assert (H3 : buildEntityTopDamageSources (timeFilter st) entity 10 = []).
    { unfold buildEntityTopDamageSources.
      change (fold_left _ (damageTakenEvents entity) [])
        with (groupSum (timeFilter st) sourceKey (damageTakenEvents entity) []).
      rewrite DetailsFacts.groupSum_nothing; [reflexivity|].
      intros ev H. apply Hev. apply in_or_app. right. apply in_or_app. now right. }
    assert (H4 : buildEntityAppliedBuffsByEffect (timeFilter st) entity = []).
    { rewrite AppliedFacts.applied_rows.
      rewrite !DetailsFacts.groupCount_nothing; [reflexivity| |].
      - intros fx H. apply Hfx. apply in_or_app. now left.
      - intros fx H. apply Hfx. apply in_or_app. now right. }
    rewrite H1, H2, H3, H4. reflexivity.
Qed.

(** X20.  When [renderEntityDetails] shows the tables of an entity:
    - the table of the damage received by attacker is
      [buildEntityTopDamageSources] with the limit 10, so it has at most 10
      rows, and each of its percentages is taken of the amounts of the rows
      shown, added in their order from 0, not of all the damage received;
    - the table of the damage by skill has the entries of
      [buildEntityDamageBySkill] in descending order of amount, and each of
      its percentages is taken of the values of that map, added in the
      order of the map from 0; the table of the healing likewise;
    - a percentage is the amount divided by the total, times 100, and 0
      when the total is 0;
    - the rows of the applied effects are split into a table of buffs and
      a table of debuffs, none lost. *)
Theorem details_percentages_are_of_the_rows_shown
    (entityName : string) (st : State)
    (damage healing taken : list MetricRow)
    (appliedBuffs appliedDebuffs : list FxRow.t) :
  renderEntityDetails entityName st
  = Details damage healing taken appliedBuffs appliedDebuffs ->
  exists entity,
    EMap.get entityName (entities st) = Some entity
    /\ ((length taken <= 10)%nat
        /\ metricCells taken
           = buildEntityTopDamageSources (timeFilter st) entity 10
        /\ percentagesOf (fold_left Qplus (List.map metricAmount taken) 0) taken)
    /\ (Permutation (metricCells damage)
          (buildEntityDamageBySkill (timeFilter st) entity)
        /\ Sorted.StronglySorted (fun a b => b <= a)
             (List.map metricAmount damage)
        /\ percentagesOf
             (fold_left Qplus
                (List.map snd (buildEntityDamageBySkill (timeFilter st) entity)) 0)
             damage)
    /\ (Permutation (metricCells healing)
          (buildEntityHealingBySkill (timeFilter st) entity)
        /\ Sorted.StronglySorted (fun a b => b <= a)
             (List.map metricAmount healing)
        /\ percentagesOf
             (fold_left Qplus
                (List.map snd (buildEntityHealingBySkill (timeFilter st) entity)) 0)
             healing)
    /\ Permutation (appliedBuffs ++ appliedDebuffs)
         (buildEntityAppliedBuffsByEffect (timeFilter st) entity)
    /\ Forall (fun r => FxRow.type r = "BUFF") appliedBuffs
    /\ Forall (fun r => FxRow.type r = "DEBUFF") appliedDebuffs.
Proof.
  unfold renderEntityDetails.
  destruct (negb (Str.truthy entityName)); [discriminate|].
  destruct (EMap.get entityName (entities st)) as [entity|]; [|discriminate].
  intro H. injection H as <- <- <- <- <-.
  exists entity. split; [reflexivity|].
  split; [|split; [|split; [|split; [|split]]]].
  - split; [|split].
    + unfold metricRows. rewrite length_map.
      unfold buildEntityTopDamageSources. apply firstn_le_length.
    + apply DetailsFacts.metricRows_cells.
    + rewrite DetailsFacts.metricRows_amounts, RankingFacts.fold_left_map.
      apply DetailsFacts.metricRows_percentages.
  - split; [|split].
    + rewrite DetailsFacts.metricRows_cells. apply TableFacts.sort_perm.
    + rewrite DetailsFacts.metricRows_amounts.
      apply SortFacts.StronglySorted_map. apply (SortFacts.sort_sorted snd).
    + apply DetailsFacts.metricRows_percentages.
  - split; [|split].
    + rewrite DetailsFacts.metricRows_cells. apply TableFacts.sort_perm.
    + rewrite DetailsFacts.metricRows_amounts.
      apply SortFacts.StronglySorted_map. apply (SortFacts.sort_sorted snd).
    + apply DetailsFacts.metricRows_percentages.
  - apply DetailsFacts.filter_partition. intros r Hr.
    destruct (AppliedFacts.applied_row_type _ _ r Hr) as [-> | ->]; reflexivity.
  - apply Forall_forall. intros r Hr. apply filter_In in Hr.
    now apply String.eqb_eq.
  - apply Forall_forall. intros r Hr. apply filter_In in Hr.
    now apply String.eqb_eq.
Qed.

Lemma details_percentages_are_of_the_rows_shown_witness :
  (length (takenTable (renderEntityDetails "Alice" smallLogState)) <= 10)%nat.
Proof.
  destruct (details_percentages_are_of_the_rows_shown
              "Alice" smallLogState _ _ _ _ _ eq_refl)
    as (entity & _ & (H & _) & _).
  exact H.
Defined.

(** ** Escaping of names *)

Module HtmlFacts.

Lemma append_assoc (a b c : string) : ((a ++ b) ++ c = a ++ (b ++ c))%string.
Proof. induction a as [|x a IH]; simpl; [reflexivity|]. now rewrite IH. Qed.

Lemma replaceAll_app (c : ascii) (rep s1 s2 : string) :
  Html.replaceAll c rep (s1 ++ s2)
  = (Html.replaceAll c rep s1 ++ Html.replaceAll c rep s2)%string.
Proof.
  induction s1 as [|x s1 IH]; simpl; [reflexivity|].
  destruct (Ascii.eqb x c); rewrite IH; [|reflexivity].
  now rewrite append_assoc.
Qed.

Lemma escapeHtml_app (s1 s2 : string) :
  Html.escapeHtml (s1 ++ s2) = (Html.escapeHtml s1 ++ Html.escapeHtml s2)%string.
Proof. unfold Html.escapeHtml. now rewrite !replaceAll_app. Qed.

(** The six cases of a character. *)
Lemma escapeChar_cases (c : ascii) :
  (c = "&"%char /\ escapeChar c = "&amp;")
  \/ (c = "<"%char /\ escapeChar c = "&lt;")
  \/ (c = ">"%char /\ escapeChar c = "&gt;")
  \/ (c = Html.dquote /\ escapeChar c = "&quot;")
  \/ (c = "'"%char /\ escapeChar c = "&#39;")
  \/ (isMarkupChar c = false /\ escapeChar c = String c EmptyString).
Proof.
  unfold escapeChar, isMarkupChar.
  destruct (Ascii.eqb_spec c "&") as [->|H1]; [auto|].
  destruct (Ascii.eqb_spec c "<") as [->|H2]; [auto|].
  destruct (Ascii.eqb_spec c ">") as [->|H3]; [auto|].
  destruct (Ascii.eqb_spec c Html.dquote) as [->|H4]; [auto 6|].
  destruct (Ascii.eqb_spec c "'") as [->|H5]; [auto 7|].
  auto 8.
Qed.

Lemma escapeHtml_char (c : ascii) :
  Html.escapeHtml (String c EmptyString) = escapeChar c.
Proof.
  unfold escapeChar, Html.escapeHtml.
  destruct (Ascii.eqb_spec c "&") as [->|H1]; [reflexivity|].
  destruct (Ascii.eqb_spec c "<") as [->|H2]; [reflexivity|].
  destruct (Ascii.eqb_spec c ">") as [->|H3]; [reflexivity|].
  destruct (Ascii.eqb_spec c Html.dquote) as [->|H4]; [reflexivity|].
  destruct (Ascii.eqb_spec c "'") as [->|H5]; [reflexivity|].
  simpl.
  destruct (Ascii.eqb_spec c "&"); [contradiction|]. simpl.
  destruct (Ascii.eqb_spec c "<"); [contradiction|]. simpl.
  destruct (Ascii.eqb_spec c ">"); [contradiction|]. simpl.
  destruct (Ascii.eqb_spec c Html.dquote); [contradiction|]. simpl.
  destruct (Ascii.eqb_spec c "'"); [contradiction|]. reflexivity.
Qed.

(** The five replacements in sequence escape each character once: the
    ampersand of an entity written by a later replacement is not escaped
    again, since the ampersands are replaced first. *)
Lemma escapeHtml_each (s : string) : Html.escapeHtml s = escapeEach s.
Proof.
  induction s as [|c s IH]; [reflexivity|].
  change (String c s) with (String c EmptyString ++ s)%string.
  rewrite escapeHtml_app, escapeHtml_char, IH. reflexivity.
Qed.

Lemma occurs_app (c : ascii) (a b : string) :
  occurs c (a ++ b) = (occurs c a || occurs c b)%bool.
Proof.
  induction a as [|x a IH]; simpl; [reflexivity|].
  now rewrite IH, orb_assoc.
Qed.

End HtmlFacts.

(** Escaping never shortens a string. *)
Lemma HtmlFacts_length_le (s : string) :
  (String.length s <= String.length (Html.escapeHtml s))%nat.
Proof.
  rewrite HtmlFacts.escapeHtml_each.
  induction s as [|c s IH]; simpl; [lia|].
  destruct (HtmlFacts.escapeChar_cases c)
    as [[-> ->]|[[-> ->]|[[-> ->]|[[-> ->]|[[-> ->]|[_ ->]]]]]]; simpl; lia.
Qed.

(** X21.  Whatever the string, [escapeHtml] returns a string with no
    [<], no [>], no double quote and no apostrophe.  It escapes each
    character on its own, so that it distributes over concatenation, and it
    returns its argument unchanged exactly when the argument has none of
    the five characters it replaces. *)
Theorem escapeHtml_leaves_no_markup (s : string) :
  (occurs "<" (Html.escapeHtml s) = false
   /\ occurs ">" (Html.escapeHtml s) = false
   /\ occurs Html.dquote (Html.escapeHtml s) = false
   /\ occurs "'" (Html.escapeHtml s) = false)
  /\ (forall s2,
        Html.escapeHtml (s ++ s2)
        = (Html.escapeHtml s ++ Html.escapeHtml s2)%string)
  /\ (Html.escapeHtml s = s <-> plainText s = true).
Proof.
  split; [|split].
  - rewrite HtmlFacts.escapeHtml_each.
    induction s as [|c s (H1 & H2 & H3 & H4)]; [repeat split|].
    simpl. rewrite !HtmlFacts.occurs_app, H1, H2, H3, H4, !orb_false_r.
    destruct (HtmlFacts.escapeChar_cases c)
      as [[-> ->]|[[-> ->]|[[-> ->]|[[-> ->]|[[-> ->]|[Hc ->]]]]]];
      try (repeat split; reflexivity).
    unfold isMarkupChar in Hc. rewrite !orb_false_iff in Hc.
    destruct Hc as [[[[_ A] B] C] D]. simpl. rewrite A, B, C, D.
    repeat split.
  - intro s2. apply HtmlFacts.escapeHtml_app.
  - rewrite HtmlFacts.escapeHtml_each.
    induction s as [|c s IH]; simpl; [tauto|].
    destruct (HtmlFacts.escapeChar_cases c)
      as [[-> ->]|[[-> ->]|[[-> ->]|[[-> ->]|[[-> ->]|[Hc ->]]]]]].
    1-5: (split; [|discriminate]); simpl; intro H; exfalso;
      apply (f_equal String.length) in H; simpl in H;
      rewrite <- HtmlFacts.escapeHtml_each in H;
      pose proof (HtmlFacts_length_le s); lia.
    rewrite Hc. simpl. rewrite <- IH. split; intro H.
    + now injection H.
    + now rewrite H.
Qed.

Module InjectFacts.

Lemma escapeEach_inj (s1 s2 : string) :
  escapeEach s1 = escapeEach s2 -> s1 = s2.
Proof.
  revert s2. induction s1 as [|c1 s1 IH]; intros [|c2 s2]; simpl.
  - reflexivity.
  - destruct (HtmlFacts.escapeChar_cases c2)
      as [[-> ->]|[[-> ->]|[[-> ->]|[[-> ->]|[[-> ->]|[_ ->]]]]]]; discriminate.
  - destruct (HtmlFacts.escapeChar_cases c1)
      as [[-> ->]|[[-> ->]|[[-> ->]|[[-> ->]|[[-> ->]|[_ ->]]]]]]; discriminate.
  - destruct (HtmlFacts.escapeChar_cases c1)
      as [[-> ->]|[[-> ->]|[[-> ->]|[[-> ->]|[[-> ->]|[H1 ->]]]]]];
    destruct (HtmlFacts.escapeChar_cases c2)
      as [[-> ->]|[[-> ->]|[[-> ->]|[[-> ->]|[[-> ->]|[H2 ->]]]]]];
    simpl; intro H;
    try discriminate H;
    try (injection H as H; f_equal; now apply IH);
    try (injection H as <- _; vm_compute in H2; discriminate H2);
    try (injection H as -> _; vm_compute in H1; discriminate H1).
    injection H as -> H. f_equal. now apply IH.
Qed.

End InjectFacts.

(** X22.  [escapeHtml] is injective: two names that differ are written
    differently in the markup of a table, so that the [data-entity]
    attribute of a row determines the entity. *)
Theorem escapeHtml_injective (s1 s2 : string) :
  Html.escapeHtml s1 = Html.escapeHtml s2 -> s1 = s2.
Proof.
  rewrite !HtmlFacts.escapeHtml_each. apply InjectFacts.escapeEach_inj.
Qed.

Lemma escapeHtml_injective_witness : "a<b" = "a<b".
Proof.
  exact (escapeHtml_injective "a<b" "a<b" eq_refl).
Defined.

(** ** Timestamps and time bounds *)

Module HistoryFacts.

Import StoreFacts.

Lemma historiesInBounds_widen (b b' : TimeBounds) (e : Entity) :
  (forall x, inBounds b x -> inBounds b' x) ->
  historiesInBounds b e -> historiesInBounds b' e.
Proof.
  intros Hw (H0 & H1 & H2 & H3 & H4). unfold historiesInBounds.
  split; [now apply (entityInBounds_widen b b')|].
  repeat split; eapply Forall_impl; eauto; simpl; auto.
Qed.

Lemma historiesInBounds_new (b : TimeBounds) (n : string) :
  historiesInBounds b (newEntity n).
Proof.
  unfold historiesInBounds, entityInBounds. simpl. repeat split; constructor.
Qed.

Lemma Forall_effectWrites (P : Entity -> Prop) (ts : Q) (type : string)
    (parts : list string) (effectId : jsnum) (m : EMap.t) :
  (forall n, P (newEntity n)) ->
  (forall fx e, Fx.timestamp fx = ts -> P e ->
                P (push_buffsApplied fx e) /\ P (push_buffsReceived fx e)
                /\ P (push_debuffsApplied fx e) /\ P (push_debuffsReceived fx e)) ->
  Forall (fun kv => P (snd kv)) m ->
  Forall (fun kv => P (snd kv)) (effectWrites ts type parts effectId m).
Proof.
  intros Hnew Hw Hm. unfold effectWrites.
  assert (H2 : Forall (fun kv => P (snd kv))
                 (snd (getEntity (nth 3 parts "")
                         (snd (getEntity (nth 2 parts "") m)))))
    by (apply EMapFacts.Forall_getEntity; [apply Hnew|];
        apply EMapFacts.Forall_getEntity; [apply Hnew|exact Hm]).
  destruct (String.eqb type "BUFF");
    repeat (apply EMapFacts.Forall_modify;
            [intros e He; now apply Hw|]); exact H2.
Qed.

End HistoryFacts.

(** X23.  After an ingestion, the timestamp of every event of every
    history of every entity, of damage, of healing and of effects, lies
    within the time bounds [min] and [max]. *)
Theorem every_event_within_time_bounds
    (Number : string -> jsnum) (text : string) (st0 : State) :
  let st := ingest Number text st0 in
  forall k e, In (k, e) (entities st) ->
    Forall (fun ev => inBounds (timeBounds st) (Ev.timestamp ev))
      (damageEvents e ++ healEvents e ++ damageTakenEvents e)
    /\ Forall (fun fx => inBounds (timeBounds st) (Fx.timestamp fx))
         (buffsApplied e ++ debuffsApplied e
          ++ buffsReceived e ++ debuffsReceived e).
Proof.
  intros st k e Hin.
  assert (H : Forall (fun kv => historiesInBounds (timeBounds st) (snd kv))
                (entities st)).
  { apply (ingest_inv Number
             (fun s => Forall (fun kv => historiesInBounds (timeBounds s) (snd kv))
                         (entities s))).
    - intro s. constructor.
    - intros s H. exact H.
    - intros s ts type parts a H _.
      destruct (inBounds_counted ts type (incr_totalLines s)) as [Hself Hwiden].
      apply (StoreFacts.Forall_numericWrites
               (historiesInBounds
                  (timeBounds (counted ts type (incr_totalLines s))))).
      + intro n. apply HistoryFacts.historiesInBounds_new.
      + intros ev e0 Hts _ (H0 & H1).
        assert (Hev : inBounds (timeBounds (counted ts type (incr_totalLines s)))
                        (Ev.timestamp ev)) by (rewrite Hts; exact Hself).
        repeat split; try apply H1;
          first [ now apply StoreFacts.entityInBounds_damageDone
                | now apply StoreFacts.entityInBounds_damageReceived
                | now apply StoreFacts.entityInBounds_healingDone ].
      + eapply Forall_impl; [|exact H]. intros kv Hkv.
        eapply HistoryFacts.historiesInBounds_widen; [exact Hwiden|exact Hkv].
    - intros s ts type parts effectId H _.
      destruct (inBounds_counted ts type (incr_totalLines s)) as [Hself Hwiden].
      apply (HistoryFacts.Forall_effectWrites
               (historiesInBounds
                  (timeBounds (counted ts type (incr_totalLines s))))).
      + intro n. apply HistoryFacts.historiesInBounds_new.
      + intros fx e0 Hts (H0 & H1 & H2 & H3 & H4).
        assert (Hfx : inBounds (timeBounds (counted ts type (incr_totalLines s)))
                        (Fx.timestamp fx)) by (rewrite Hts; exact Hself).
        unfold historiesInBounds. simpl.
        repeat split; try apply H0; auto using StoreFacts.Forall_snoc.
      + eapply Forall_impl; [|exact H]. intros kv Hkv.
        eapply HistoryFacts.historiesInBounds_widen; [exact Hwiden|exact Hkv].
    - intros tf s H. exact H. }
  rewrite Forall_forall in H.
  destruct (H (k, e) Hin) as ((A & B & C) & D & E & F & G).
  split; repeat (apply Forall_app; split); assumption.
Qed.

Lemma every_event_within_time_bounds_witness :
  let st := ingest Number carolHeals initialState in
  Forall (fun ev => inBounds (timeBounds st) (Ev.timestamp ev))
    (damageEvents carolEntity ++ healEvents carolEntity
     ++ damageTakenEvents carolEntity)
  /\ Forall (fun fx => inBounds (timeBounds st) (Fx.timestamp fx))
       (buffsApplied carolEntity ++ debuffsApplied carolEntity
        ++ buffsReceived carolEntity ++ debuffsReceived carolEntity).
Proof.
  apply (every_event_within_time_bounds Number carolHeals initialState
           "Carol" carolEntity).
  vm_compute. left. reflexivity.
Defined.
